(** * Bookstore REST API: order placement, stock ledger and registration

    A shallow embedding of the service layer ([bookService.ts],
    [orderService.ts], [authService.ts]) and of the route guards in front of
    it, over an explicit model of the Prisma store.

    - The store is a record of four tables.  Tables keyed by [id] are finite
      maps from the id string to the row; [orderItems] is kept as the list of
      its rows in insertion order.  Row ids of order items and the
      [createdAt]/[updatedAt] columns are not modelled: no service function
      reads them.  The client refuses an order whose user is not stored
      (the relation the queries include) and a second book with an ISBN
      that is taken (the column [findUnique] looks up); both are modelled
      where the code writes.
    - An order as the API returns it keeps the columns of the order and of
      its line items.  The [user] and [book] objects that [transformOrder]
      attaches from the included rows are left out, and no statement below
      is about them.
    - A service function is a computation [Store A]: it takes the store,
      returns either a value or the message of the thrown [Error], and the
      store it leaves behind.
    - JavaScript numbers used for money are kept abstract ([PriceArith]): the
      code only adds prices, multiplies a price by a quantity and compares a
      price with zero, and nothing below depends on how these round.
      Stock counts are integers, and so are the quantities of the orders
      the model covers: the route and the service let any number above 0
      through, and what the client and the store make of a fraction is not
      modelled.
    - A string is a sequence of bytes; a text is held in UTF-8. *)

From Stdlib Require Import ZArith List String Ascii Lia.
From stdpp Require Import gmap strings list fin_maps pretty.

Local Open Scope string_scope.
Local Open Scope Z_scope.

(** ** Enumerations of the Prisma client *)

Inductive UserRole := ADMIN | CUSTOMER.

Inductive OrderStatus := PENDING | SHIPPED | DELIVERED | CANCELLED.

(** Modelled from the spec: the [PaymentStatus] enum is declared in the Prisma
    schema, which is not among the sources; the service and the seed script
    use the values PENDING and PAID. *)
Inductive PaymentStatus := PaymentStatus_PENDING | PaymentStatus_PAID.

#[global] Instance UserRole_eq_dec : EqDecision UserRole.
Proof. solve_decision. Defined.

#[global] Instance OrderStatus_eq_dec : EqDecision OrderStatus.
Proof. solve_decision. Defined.

#[global] Instance PaymentStatus_eq_dec : EqDecision PaymentStatus.
Proof. solve_decision. Defined.

(** ** Money *)

Class PriceArith (price : Type) := {
  price_zero : price;                      (* the literal [0] *)
  price_add : price -> price -> price;     (* [a + b] *)
  price_times : price -> Z -> price;       (* [book.price * item.quantity] *)
  price_negative : price -> bool;          (* [p < 0] *)
}.

(** Prices counted in minor units, used to run the model on examples. *)
#[global] Instance Z_PriceArith : PriceArith Z := {|
  price_zero := 0;
  price_add := Z.add;
  price_times := Z.mul;
  price_negative := fun p => p <? 0;
|}.

(** ** Results and thrown errors *)

Inductive Result (A : Type) :=
| Ok (value : A)
| Throw (message : string).
Arguments Ok {A} value.
Arguments Throw {A} message.

(** [message.includes(needle)] *)
Definition includes (needle message : string) : bool :=
  match String.index 0 needle message with
  | Some _ => true
  | None => false
  end.

(** The double quote character of the template literal in [createOrder]. *)
Definition dquote : string := String "034"%char EmptyString.

(** Message of the client's own error when [update] or [delete] addresses a
    record that does not exist. *)
Definition RECORD_NOT_FOUND : string :=
  "An operation failed because it depends on one or more records that were required but not found.".

(** Message of the client's own error when a row is to refer to a row that
    does not exist.  The text differs between versions of the client; it is
    none of the messages the services throw. *)
Definition FOREIGN_KEY_FAILED : string :=
  "Foreign key constraint failed on the field: `foreign key`".

(** Message of the client's own error when a write would give two rows the
    same value in a unique column. *)
Definition UNIQUE_CONSTRAINT_FAILED : string :=
  "Unique constraint failed on the fields: (`isbn`)".

(** Message of the client's own error when a filter is given [null] for a
    column that cannot be null. *)
Definition ARGUMENT_MUST_NOT_BE_NULL : string :=
  "Argument `userId` must not be null.".

(** ** Numbers in messages

    A template literal prints an integer with all its digits as long as it
    is a safe integer.  Beyond that JavaScript numbers are rounded, and from
    1e21 on printed in exponent form; what is printed there is not looked
    into. *)
Class NumberText := {
  unsafe_integer_text : Z -> string;
}.

(** [Number.MAX_SAFE_INTEGER] *)
Definition MAX_SAFE_INTEGER : Z := 2 ^ 53 - 1.

(** [`${n}`] *)
Definition number_text `{NumberText} (n : Z) : string :=
  if Z.abs n <=? MAX_SAFE_INTEGER then pretty n else unsafe_integer_text n.

(** ** Length of a string

    [s.length] counts UTF-16 code units: one for a character of up to three
    UTF-8 bytes, two for a character of four. *)
Definition utf16_units (c : ascii) : nat :=
  let n := nat_of_ascii c in
  if (n <? 128)%nat then 1%nat          (* ASCII *)
  else if (n <? 192)%nat then 0%nat     (* a continuation byte *)
  else if (n <? 240)%nat then 1%nat     (* first of two or three bytes *)
  else 2%nat.                           (* first of four bytes: a surrogate pair *)

Fixpoint js_length (s : string) : nat :=
  match s with
  | EmptyString => 0%nat
  | String c rest => (utf16_units c + js_length rest)%nat
  end.

(** ** HTTP responses of the route handlers

    Either the JSON payload with its status, or the error envelope
    [{ timestamp, status, error, message, path }], of which the status, the
    error label and the message are kept. *)
Inductive HttpResponse (A : Type) :=
| Json (status : Z) (body : A)
| ErrorJson (status : Z) (error message : string).
Arguments Json {A} status body.
Arguments ErrorJson {A} status error message.

Definition response_status {A} (r : HttpResponse A) : Z :=
  match r with
  | Json status _ => status
  | ErrorJson status _ _ => status
  end.

(** [error.message || fallback] *)
Definition message_or (message fallback : string) : string :=
  if bool_decide (message = EmptyString) then fallback else message.

(** ** Libraries behind the auth helpers

    [lib/auth.ts] hashes with bcryptjs and signs tokens with jose; the
    register route tests the e-mail against a regular expression and
    normalises it with [toLowerCase().trim()].  What they compute is not
    looked into. *)
Class AuthLib := {
  hashPassword : string -> string;
  generateToken : string -> string -> UserRole -> string;   (* userId, email, role *)
  emailRegex_test : string -> bool;
  toLowerCase_trim : string -> string;
}.

(** * The model *)

Section Model.

Context {price : Type} {PA : PriceArith price} {AL : AuthLib} {NT : NumberText}.

(** ** Rows of the store *)

Record Book := {
  book_title : string;
  book_authors : list string;   (* stored serialised, parsed back on read *)
  book_genre : string;
  book_isbn : string;
  book_price : price;
  book_description : option string;
  book_stockQuantity : Z;
  book_imageUrl : option string;
}.

Record User := {
  user_name : string;
  user_email : string;
  user_password : string;       (* the hash *)
  user_role : UserRole;
}.

Record OrderRow := {
  order_userId : string;
  order_totalPrice : price;
  order_orderStatus : OrderStatus;
  order_paymentStatus : PaymentStatus;
}.

Record OrderItemRow := {
  oi_orderId : string;
  oi_bookId : string;
  oi_quantity : Z;
  oi_unitPrice : price;
  oi_subtotal : price;
}.

Record DB := {
  books : gmap string Book;
  users : gmap string User;
  orders : gmap string OrderRow;
  orderItems : list OrderItemRow;
}.

Definition db_empty : DB :=
  {| books := ∅; users := ∅; orders := ∅; orderItems := [] |}.

Definition set_books (f : gmap string Book -> gmap string Book) (s : DB) : DB :=
  {| books := f (books s); users := users s; orders := orders s;
     orderItems := orderItems s |}.

Definition set_users (f : gmap string User -> gmap string User) (s : DB) : DB :=
  {| books := books s; users := f (users s); orders := orders s;
     orderItems := orderItems s |}.

Definition set_orders (f : gmap string OrderRow -> gmap string OrderRow) (s : DB) : DB :=
  {| books := books s; users := users s; orders := f (orders s);
     orderItems := orderItems s |}.

Definition set_orderItems (f : list OrderItemRow -> list OrderItemRow) (s : DB) : DB :=
  {| books := books s; users := users s; orders := orders s;
     orderItems := f (orderItems s) |}.

Definition set_stockQuantity (f : Z -> Z) (b : Book) : Book :=
  {| book_title := book_title b; book_authors := book_authors b;
     book_genre := book_genre b; book_isbn := book_isbn b;
     book_price := book_price b; book_description := book_description b;
     book_stockQuantity := f (book_stockQuantity b);
     book_imageUrl := book_imageUrl b |}.

Definition set_orderStatus (st : OrderStatus) (o : OrderRow) : OrderRow :=
  {| order_userId := order_userId o; order_totalPrice := order_totalPrice o;
     order_orderStatus := st; order_paymentStatus := order_paymentStatus o |}.

(** ** Computations against the store *)

Definition Store (A : Type) : Type := DB -> Result A * DB.

Definition ret {A} (a : A) : Store A := fun s => (Ok a, s).

Definition throw {A} (message : string) : Store A := fun s => (Throw message, s).

Definition bind {A B} (c : Store A) (k : A -> Store B) : Store B :=
  fun s =>
    match c s with
    | (Ok a, s') => k a s'
    | (Throw m, s') => (Throw m, s')
    end.

Notation "'let!' x ':=' c 'in' k" := (bind c (fun x => k))
  (at level 10, x pattern, c at level 100, k at level 200).

(** [db.$transaction(async (tx) => body)]: the body runs against the store;
    when it throws, everything it wrote is rolled back and the error is
    rethrown. *)
Definition db_transaction {A} (body : Store A) : Store A :=
  fun s =>
    match body s with
    | (Ok a, s') => (Ok a, s')
    | (Throw m, _) => (Throw m, s)
    end.

(** *** Client calls on [book] *)

(** [book.findUnique({ where: { id } })] *)
Definition book_findUnique (id : string) : Store (option Book) :=
  fun s => (Ok (books s !! id), s).

Definition first_with_isbn (isbn : string) (bs : gmap string Book)
  : option (string * Book) :=
  List.find (fun kv => bool_decide (book_isbn (snd kv) = isbn)) (map_to_list bs).

(** [book.findUnique({ where: { isbn } })] *)
Definition book_findUnique_isbn (isbn : string) : Store (option (string * Book)) :=
  fun s => (Ok (first_with_isbn isbn (books s)), s).

(** [book.create({ data })]: the store picks an id that is not in use.
    [createBook], its one caller, has just looked the ISBN up and found
    none. *)
Definition book_create (data : Book) : Store (string * Book) :=
  fun s =>
    let id := fresh (dom (books s)) in
    (Ok (id, data), set_books (insert id data) s).

(** Whether the unique index on [isbn] refuses to turn row [b] into [b']:
    the ISBN changes, and to one that a row has.  A write that leaves the
    ISBN as it is cannot fail on the index. *)
Definition isbn_taken (b b' : Book) (bs : gmap string Book) : bool :=
  negb (bool_decide (book_isbn b' = book_isbn b))
  && bool_decide (is_Some (first_with_isbn (book_isbn b') bs)).

(** [book.update({ where: { id }, data })] *)
Definition book_update (id : string) (data : Book -> Book) : Store Book :=
  fun s =>
    match books s !! id with
    | Some b =>
        if isbn_taken b (data b) (books s) then (Throw UNIQUE_CONSTRAINT_FAILED, s)
        else (Ok (data b), set_books (insert id (data b)) s)
    | None => (Throw RECORD_NOT_FOUND, s)
    end.

(** [book.delete({ where: { id } })] *)
Definition book_delete (id : string) : Store unit :=
  fun s =>
    match books s !! id with
    | Some _ => (Ok tt, set_books (delete id) s)
    | None => (Throw RECORD_NOT_FOUND, s)
    end.

(** *** Client calls on [orderItem] and [order] *)

(** [orderItem.count({ where: { bookId } })] *)
Definition orderItem_count (bookId : string) : Store nat :=
  fun s =>
    (Ok (length (List.filter (fun r => bool_decide (oi_bookId r = bookId))
                             (orderItems s))), s).

Definition items_of_order (orderId : string) (rows : list OrderItemRow)
  : list OrderItemRow :=
  List.filter (fun r => bool_decide (oi_orderId r = orderId)) rows.

(** [orderItem.findMany({ where: { orderId } })] *)
Definition orderItem_findMany (orderId : string) : Store (list OrderItemRow) :=
  fun s => (Ok (items_of_order orderId (orderItems s)), s).

(** [order.findUnique({ where: { id } })] *)
Definition order_findUnique (id : string) : Store (option OrderRow) :=
  fun s => (Ok (orders s !! id), s).

(** An order as the API returns it: the columns of the row and of its line
    items.  The objects [user] and [book] of the source's [Order] and
    [OrderItem] are left out. *)
Record Order := {
  Order_id : string;
  Order_userId : string;
  Order_orderItems : list OrderItemRow;
  Order_totalPrice : price;
  Order_orderStatus : OrderStatus;
  Order_paymentStatus : PaymentStatus;
}.

(** The row [id] with [include: { orderItems }], passed through
    [transformOrder]. *)
Definition transformOrder (id : string) (o : OrderRow) (rows : list OrderItemRow) : Order :=
  {| Order_id := id; Order_userId := order_userId o;
     Order_orderItems := items_of_order id rows;
     Order_totalPrice := order_totalPrice o;
     Order_orderStatus := order_orderStatus o;
     Order_paymentStatus := order_paymentStatus o |}.

(** A line as [createOrder] collects it before the transaction. *)
Record OrderItemInput := {
  in_bookId : string;
  in_quantity : Z;
  in_unitPrice : price;
  in_subtotal : price;
}.

Definition row_of_input (orderId : string) (i : OrderItemInput) : OrderItemRow :=
  {| oi_orderId := orderId; oi_bookId := in_bookId i; oi_quantity := in_quantity i;
     oi_unitPrice := in_unitPrice i; oi_subtotal := in_subtotal i |}.

(** [order.create({ data: { ..., orderItems: { create } }, include })]: the
    order must belong to a stored user; the store then picks an unused id
    and inserts the row and its line items.  The books of the lines are
    stored: [createOrder], the one caller, has found and updated each in the
    same transaction. *)
Definition order_create (data : OrderRow) (lines : list OrderItemInput) : Store Order :=
  fun s =>
    match users s !! order_userId data with
    | None => (Throw FOREIGN_KEY_FAILED, s)
    | Some _ =>
        let id := fresh (dom (orders s)) in
        let s' := set_orderItems (fun rows => (rows ++ List.map (row_of_input id) lines)%list)
                    (set_orders (insert id data) s) in
        (Ok (transformOrder id data (orderItems s')), s')
    end.

(** [order.update({ where: { id }, data: { orderStatus }, include })] *)
Definition order_update_status (id : string) (st : OrderStatus) : Store Order :=
  fun s =>
    match orders s !! id with
    | Some o =>
        (Ok (transformOrder id (set_orderStatus st o) (orderItems s)),
         set_orders (insert id (set_orderStatus st o)) s)
    | None => (Throw RECORD_NOT_FOUND, s)
    end.

(** ** bookService.ts *)

Record CreateBookDTO := {
  cb_title : string;
  cb_authors : list string;
  cb_genre : string;
  cb_isbn : string;
  cb_price : price;
  cb_description : option string;
  cb_stockQuantity : Z;
  cb_imageUrl : option string;
}.

(** Every field is optional; [None] is [undefined]. *)
Record UpdateBookDTO := {
  ub_title : option string;
  ub_authors : option (list string);
  ub_genre : option string;
  ub_isbn : option string;
  ub_price : option price;
  ub_description : option string;
  ub_stockQuantity : option Z;
  ub_imageUrl : option string;
}.

Definition getBookById (id : string) : Store (option Book) :=
  book_findUnique id.

Definition createBook (dto : CreateBookDTO) : Store (string * Book) :=
  let! existingBook := book_findUnique_isbn (cb_isbn dto) in
  match existingBook with
  | Some _ => throw "A book with this ISBN already exists"
  | None =>
      book_create
        {| book_title := cb_title dto; book_authors := cb_authors dto;
           book_genre := cb_genre dto; book_isbn := cb_isbn dto;
           book_price := cb_price dto; book_description := cb_description dto;
           book_stockQuantity := cb_stockQuantity dto;
           book_imageUrl := cb_imageUrl dto |}
  end.

(** The [updateData] object applied to the stored row: a field of the DTO
    that is not [undefined] replaces the stored one. *)
Definition updateData (dto : UpdateBookDTO) (b : Book) : Book :=
  {| book_title := default (book_title b) (ub_title dto);
     book_authors := default (book_authors b) (ub_authors dto);
     book_genre := default (book_genre b) (ub_genre dto);
     book_isbn := default (book_isbn b) (ub_isbn dto);
     book_price := default (book_price b) (ub_price dto);
     book_description :=
       match ub_description dto with Some d => Some d | None => book_description b end;
     book_stockQuantity := default (book_stockQuantity b) (ub_stockQuantity dto);
     book_imageUrl :=
       match ub_imageUrl dto with Some u => Some u | None => book_imageUrl b end |}.

(** [dto.isbn && dto.isbn !== existingBook.isbn] *)
Definition isbn_changes (dto : UpdateBookDTO) (existingBook : Book) : option string :=
  match ub_isbn dto with
  | Some i =>
      if bool_decide (i = EmptyString) then None
      else if bool_decide (i = book_isbn existingBook) then None
      else Some i
  | None => None
  end.

Definition updateBook (id : string) (dto : UpdateBookDTO) : Store Book :=
  let! existingBook := book_findUnique id in
  match existingBook with
  | None => throw "Book not found"
  | Some existingBook =>
      let! conflict :=
        match isbn_changes dto existingBook with
        | Some i =>
            let! bookWithIsbn := book_findUnique_isbn i in
            ret (bool_decide (is_Some bookWithIsbn))
        | None => ret false
        end in
      if (conflict : bool) then throw "A book with this ISBN already exists"
      else book_update id (updateData dto)
  end.

Definition deleteBook (id : string) : Store unit :=
  let! existingBook := book_findUnique id in
  match existingBook with
  | None => throw "Book not found"
  | Some _ =>
      let! orderItemsCount := orderItem_count id in
      if (0 <? Z.of_nat orderItemsCount)
      then throw "Cannot delete book that is referenced in orders"
      else book_delete id
  end.

Definition checkStockAvailability (bookId : string) (quantity : Z) : Store bool :=
  let! book := book_findUnique bookId in
  match book with
  | None => throw "Book not found"
  | Some book => ret (quantity <=? book_stockQuantity book)
  end.

(** [stockQuantity: { decrement: quantity }] *)
Definition decrement (quantity : Z) : Book -> Book :=
  set_stockQuantity (fun n => n - quantity).

(** [stockQuantity: { increment: quantity }] *)
Definition increment (quantity : Z) : Book -> Book :=
  set_stockQuantity (fun n => n + quantity).

Definition decrementStock (bookId : string) (quantity : Z) : Store unit :=
  let! book := book_findUnique bookId in
  match book with
  | None => throw "Book not found"
  | Some book =>
      if book_stockQuantity book <? quantity then throw "Insufficient stock"
      else
        let! _ := book_update bookId (decrement quantity) in
        ret tt
  end.

(** ** orderService.ts *)

(** [bookId] is a string, empty when the property is missing; [quantity] is
    a whole number.  A quantity with a fraction, which the tests below let
    through when it is above 0, is outside the model. *)
Record CreateOrderItemDTO := {
  item_bookId : string;
  item_quantity : Z;
}.

(** [!item.bookId || !item.quantity || item.quantity <= 0] *)
Definition item_invalid (item : CreateOrderItemDTO) : bool :=
  bool_decide (item_bookId item = EmptyString)
  || (item_quantity item =? 0)
  || (item_quantity item <=? 0).

Definition book_not_found_message (bookId : string) : string :=
  "Book with ID " +:+ bookId +:+ " not found".

Definition insufficient_stock_message (title : string) (available requested : Z) : string :=
  "Insufficient stock for book " +:+ dquote +:+ title +:+ dquote
  +:+ ". Available: " +:+ number_text available
  +:+ ", Requested: " +:+ number_text requested.

Definition STOCK_VALIDATION_FAILED : string :=
  "Stock validation failed during order processing. Please try again.".

(** One pass of the first loop for [item], with the lines and the total
    collected so far. *)
Definition createOrder_item (item : CreateOrderItemDTO)
    (orderItems : list OrderItemInput) (totalPrice : price)
  : Store (list OrderItemInput * price) :=
  if item_invalid item then throw "Invalid order item"
  else
    let! book := getBookById (item_bookId item) in
    match book with
    | None => throw (book_not_found_message (item_bookId item))
    | Some book =>
        let! isAvailable := checkStockAvailability (item_bookId item) (item_quantity item) in
        if negb isAvailable then
          throw (insufficient_stock_message (book_title book)
                   (book_stockQuantity book) (item_quantity item))
        else
          let subtotal := price_times (book_price book) (item_quantity item) in
          ret ((orderItems ++
                  [{| in_bookId := item_bookId item; in_quantity := item_quantity item;
                      in_unitPrice := book_price book; in_subtotal := subtotal |}])%list,
               price_add totalPrice subtotal)
    end.

(** [for (const item of dto.items) { ... }] *)
Fixpoint createOrder_collect (items : list CreateOrderItemDTO)
    (orderItems : list OrderItemInput) (totalPrice : price)
  : Store (list OrderItemInput * price) :=
  match items with
  | [] => ret (orderItems, totalPrice)
  | item :: rest =>
      let! acc := createOrder_item item orderItems totalPrice in
      createOrder_collect rest (fst acc) (snd acc)
  end.

(** [for (const item of orderItems) { ... }] inside the transaction *)
Fixpoint createOrder_decrementAll (orderItems : list OrderItemInput) : Store unit :=
  match orderItems with
  | [] => ret tt
  | item :: rest =>
      let! book := book_findUnique (in_bookId item) in
      match book with
      | None => throw STOCK_VALIDATION_FAILED
      | Some book =>
          if book_stockQuantity book <? in_quantity item
          then throw STOCK_VALIDATION_FAILED
          else
            let! _ := book_update (in_bookId item) (decrement (in_quantity item)) in
            createOrder_decrementAll rest
      end
  end.

(** The callback handed to [db.$transaction] by [createOrder]. *)
Definition createOrder_tx (userId : string) (orderItems : list OrderItemInput)
    (totalPrice : price) : Store Order :=
  let! _ := createOrder_decrementAll orderItems in
  order_create
    {| order_userId := userId; order_totalPrice := totalPrice;
       order_orderStatus := PENDING; order_paymentStatus := PaymentStatus_PENDING |}
    orderItems.

Definition createOrder (userId : string) (items : list CreateOrderItemDTO) : Store Order :=
  match items with
  | [] => throw "Order must contain at least one item"
  | _ :: _ =>
      let! acc := createOrder_collect items [] price_zero in
      db_transaction (createOrder_tx userId (fst acc) (snd acc))
  end.

Definition updateOrderStatus (id : string) (status : OrderStatus) : Store Order :=
  let! existingOrder := order_findUnique id in
  match existingOrder with
  | None => throw "Order not found"
  | Some _ => order_update_status id status
  end.

(** [for (const item of orderItems) { ... increment ... }] *)
Fixpoint cancelOrder_restore (orderItems : list OrderItemRow) : Store unit :=
  match orderItems with
  | [] => ret tt
  | item :: rest =>
      let! _ := book_update (oi_bookId item) (increment (oi_quantity item)) in
      cancelOrder_restore rest
  end.

(** The callback handed to [db.$transaction] by [cancelOrder]. *)
Definition cancelOrder_tx (orderId : string) : Store Order :=
  let! orderItems := orderItem_findMany orderId in
  let! _ := cancelOrder_restore orderItems in
  order_update_status orderId CANCELLED.

Definition cancelOrder (orderId userId : string) : Store Order :=
  let! existingOrder := order_findUnique orderId in
  match existingOrder with
  | None => throw "Order not found"
  | Some existingOrder =>
      if negb (bool_decide (order_userId existingOrder = userId))
      then throw "You can only cancel your own orders"
      else if negb (bool_decide (order_orderStatus existingOrder = PENDING))
      then throw "Only pending orders can be cancelled"
      else db_transaction (cancelOrder_tx orderId)
  end.

(** ** authService.ts *)

Record CreateUserDTO := {
  cu_name : string;
  cu_email : string;
  cu_password : string;
}.

(** The user as [transformUser] returns it: the row without the password. *)
Record ApiUser := {
  api_user_id : string;
  api_user_name : string;
  api_user_email : string;
  api_user_role : UserRole;
}.

Record AuthResponse := {
  ar_token : string;
  ar_tokenType : string;
  ar_expiresIn : Z;
  ar_user : ApiUser;
}.

Definition first_with_email (email : string) (us : gmap string User)
  : option (string * User) :=
  List.find (fun kv => bool_decide (user_email (snd kv) = email)) (map_to_list us).

(** [user.findUnique({ where: { email } })] *)
Definition user_findUnique_email (email : string) : Store (option (string * User)) :=
  fun s => (Ok (first_with_email email (users s)), s).

(** [user.create({ data })]; [registerUser], its one caller, has just looked
    the e-mail up and found none. *)
Definition user_create (data : User) : Store (string * User) :=
  fun s =>
    let id := fresh (dom (users s)) in
    (Ok (id, data), set_users (insert id data) s).

Definition transformUser (prismaUser : string * User) : ApiUser :=
  {| api_user_id := fst prismaUser; api_user_name := user_name (snd prismaUser);
     api_user_email := user_email (snd prismaUser);
     api_user_role := user_role (snd prismaUser) |}.

(** [7 * 24 * 60 * 60] *)
Definition getTokenExpiresIn : Z := 7 * 24 * 60 * 60.

Definition registerUser (dto : CreateUserDTO) : Store AuthResponse :=
  let! existingUser := user_findUnique_email (cu_email dto) in
  match existingUser with
  | Some _ => throw "Email already registered"
  | None =>
      let hashedPassword := hashPassword (cu_password dto) in
      let! prismaUser :=
        user_create {| user_name := cu_name dto; user_email := cu_email dto;
                       user_password := hashedPassword; user_role := CUSTOMER |} in
      let user := transformUser prismaUser in
      let token := generateToken (api_user_id user) (api_user_email user)
                     (api_user_role user) in
      ret {| ar_token := token; ar_tokenType := "Bearer";
             ar_expiresIn := getTokenExpiresIn; ar_user := user |}
  end.

(** ** lib/authorization.ts *)

Record AuthenticatedUser := {
  au_userId : string;
  au_email : string;
  au_role : UserRole;
}.

Definition isAdmin (user : AuthenticatedUser) : bool :=
  bool_decide (au_role user = ADMIN).

Definition canAccessResource (user : AuthenticatedUser) (resourceOwnerId : string) : bool :=
  isAdmin user || bool_decide (au_userId user = resourceOwnerId).

Definition requireAdmin (user : AuthenticatedUser) : Result unit :=
  if negb (isAdmin user) then Throw "Forbidden: Admin access required" else Ok tt.

(** ** Route handlers

    A handler receives what [getAuthenticatedUser] made of the request
    ([None] when it found no valid credentials) and the parsed body, and
    returns the response together with the store it leaves. *)

Definition Handler (A : Type) : Type := DB -> HttpResponse A * DB.

Definition unauthorized {A} : Handler A :=
  fun s => (ErrorJson 401 "Unauthorized" "Authentication required", s).

Definition forbidden {A} : Handler A :=
  fun s => (ErrorJson 403 "Forbidden" "Admin access required", s).

Definition bad_request {A} (message : string) : Handler A :=
  fun s => (ErrorJson 400 "Bad Request" message, s).

(** *** POST /api/register *)

(** [rb_other] lists the properties of the body besides name, email and
    password, such as a [role] the client chose to send. *)
Record RegisterBody := {
  rb_name : string;
  rb_email : string;
  rb_password : string;
  rb_other : list (string * string);
}.

Definition POST_api_register_catch (message : string) : HttpResponse AuthResponse :=
  let message := message_or message "Failed to register user" in
  if includes "already registered" message then ErrorJson 409 "Conflict" message
  else ErrorJson 500 "Internal Server Error" message.

Definition POST_api_register (body : RegisterBody) : Handler AuthResponse :=
  if bool_decide (rb_name body = EmptyString)
     || bool_decide (rb_email body = EmptyString)
     || bool_decide (rb_password body = EmptyString)
  then bad_request "Missing required fields: name, email, password"
  else if negb (emailRegex_test (rb_email body))
  then bad_request "Invalid email format"
  else if Z.of_nat (js_length (rb_password body)) <? 6
  then bad_request "Password must be at least 6 characters long"
  else
    let dto := {| cu_name := rb_name body;
                  cu_email := toLowerCase_trim (rb_email body);
                  cu_password := rb_password body |} in
    fun s =>
      match registerUser dto s with
      | (Ok authResponse, s') => (Json 201 authResponse, s')
      | (Throw m, s') => (POST_api_register_catch m, s')
      end.

(** *** POST /api/books *)

(** The body after [parseFloat]/[parseInt].  An empty string stands for a
    missing or falsy text field, [None] for a missing or falsy [authors] or
    [price], and for an [undefined] [stockQuantity].  A [stockQuantity] that
    does not parse to an integer is refused by the store's integer column
    and is not represented. *)
Record PostBookBody := {
  pb_title : string;
  pb_authors : option (list string);
  pb_genre : string;
  pb_isbn : string;
  pb_price : option price;
  pb_description : option string;
  pb_stockQuantity : option Z;
  pb_imageUrl : option string;
}.

Definition POST_api_books_catch (message : string) : HttpResponse (string * Book) :=
  let message := message_or message "Failed to create book" in
  if includes "already exists" message then ErrorJson 409 "Conflict" message
  else ErrorJson 500 "Internal Server Error" message.

Definition POST_api_books (user : option AuthenticatedUser) (body : PostBookBody)
  : Handler (string * Book) :=
  match user with
  | None => unauthorized
  | Some user =>
      match requireAdmin user with
      | Throw _ => forbidden
      | Ok _ =>
          match pb_authors body, pb_price body, pb_stockQuantity body with
          | Some authors, Some price_, Some stockQuantity =>
              if bool_decide (pb_title body = EmptyString)
                 || bool_decide (pb_genre body = EmptyString)
                 || bool_decide (pb_isbn body = EmptyString)
              then bad_request
                     "Missing required fields: title, authors, genre, isbn, price, stockQuantity"
              else
                let dto := {| cb_title := pb_title body; cb_authors := authors;
                              cb_genre := pb_genre body; cb_isbn := pb_isbn body;
                              cb_price := price_; cb_description := pb_description body;
                              cb_stockQuantity := stockQuantity;
                              cb_imageUrl := pb_imageUrl body |} in
                if price_negative (cb_price dto)
                then bad_request "Price must be non-negative"
                else if cb_stockQuantity dto <? 0
                then bad_request "Stock quantity must be non-negative"
                else
                  fun s =>
                    match createBook dto s with
                    | (Ok book, s') => (Json 201 book, s')
                    | (Throw m, s') => (POST_api_books_catch m, s')
                    end
          | _, _, _ =>
              bad_request
                "Missing required fields: title, authors, genre, isbn, price, stockQuantity"
          end
      end
  end.

(** *** PUT /api/books/{id} *)

(** The fields the handler copies into the DTO, after [parseFloat] and
    [parseInt], and whether the body has any other key. *)
Record PutBookBody := {
  put_fields : UpdateBookDTO;
  put_other_keys : bool;
}.

(** [Object.keys(body).length === 0] *)
Definition body_has_no_keys (body : PutBookBody) : bool :=
  let f := put_fields body in
  negb (put_other_keys body)
  && bool_decide (ub_title f = None) && bool_decide (ub_authors f = None)
  && bool_decide (ub_genre f = None) && bool_decide (ub_isbn f = None)
  && match ub_price f with None => true | Some _ => false end
  && bool_decide (ub_description f = None)
  && bool_decide (ub_stockQuantity f = None)
  && bool_decide (ub_imageUrl f = None).

Definition PUT_api_books_id_catch (message : string) : HttpResponse Book :=
  let message := message_or message "Failed to update book" in
  if includes "not found" message then ErrorJson 404 "Not Found" message
  else if includes "already exists" message then ErrorJson 409 "Conflict" message
  else ErrorJson 500 "Internal Server Error" message.

Definition PUT_api_books_id (user : option AuthenticatedUser) (id : string)
    (body : PutBookBody) : Handler Book :=
  match user with
  | None => unauthorized
  | Some user =>
      match requireAdmin user with
      | Throw _ => forbidden
      | Ok _ =>
          if body_has_no_keys body
          then bad_request "At least one field must be provided for update"
          else if match ub_price (put_fields body) with
                  | Some p => price_negative p
                  | None => false
                  end
          then bad_request "Price must be non-negative"
          else if match ub_stockQuantity (put_fields body) with
                  | Some stockQuantity => stockQuantity <? 0
                  | None => false
                  end
          then bad_request "Stock quantity must be non-negative"
          else
            fun s =>
              match updateBook id (put_fields body) s with
              | (Ok book, s') => (Json 200 book, s')
              | (Throw m, s') => (PUT_api_books_id_catch m, s')
              end
      end
  end.

(** *** DELETE /api/books/{id} *)

Definition DELETE_api_books_id_catch (message : string) : HttpResponse string :=
  let message := message_or message "Failed to delete book" in
  if includes "not found" message then ErrorJson 404 "Not Found" message
  else if includes "referenced in orders" message then ErrorJson 400 "Bad Request" message
  else ErrorJson 500 "Internal Server Error" message.

Definition DELETE_api_books_id (user : option AuthenticatedUser) (id : string)
  : Handler string :=
  match user with
  | None => unauthorized
  | Some user =>
      match requireAdmin user with
      | Throw _ => forbidden
      | Ok _ =>
          fun s =>
            match deleteBook id s with
            | (Ok _, s') => (Json 200 "Book deleted successfully", s')
            | (Throw m, s') => (DELETE_api_books_id_catch m, s')
            end
      end
  end.

(** *** POST /api/orders *)

Definition POST_api_orders_catch (message : string) : HttpResponse Order :=
  let message := message_or message "Failed to create order" in
  if includes "not found" message then ErrorJson 404 "Not Found" message
  else if includes "Insufficient stock" message then ErrorJson 400 "Bad Request" message
  else ErrorJson 500 "Internal Server Error" message.

(** [items] is [body.items]; the empty list also stands for a body whose
    [items] is missing or not an array. *)
Definition POST_api_orders (user : option AuthenticatedUser)
    (items : list CreateOrderItemDTO) : Handler Order :=
  match user with
  | None => unauthorized
  | Some user =>
      match items with
      | [] => bad_request "Order must contain at least one item"
      | _ :: _ =>
          if existsb item_invalid items
          then bad_request "Each item must have bookId and quantity (greater than 0)"
          else
            fun s =>
              match createOrder (au_userId user) items s with
              | (Ok order, s') => (Json 201 order, s')
              | (Throw m, s') => (POST_api_orders_catch m, s')
              end
      end
  end.

(** *** PUT /api/orders/{id}/status *)

Definition PUT_api_orders_id_catch (message : string) : HttpResponse Order :=
  let message := message_or message "Failed to update order status" in
  if includes "not found" message then ErrorJson 404 "Not Found" message
  else ErrorJson 500 "Internal Server Error" message.

(** [body.status]: missing or falsy, a value that is none of the four valid
    names, or one of them. *)
Inductive StatusField :=
| StatusMissing
| StatusInvalid
| StatusValid (status : OrderStatus).

Definition PUT_api_orders_id (user : option AuthenticatedUser) (id : string)
    (status : StatusField) : Handler Order :=
  match user with
  | None => unauthorized
  | Some user =>
      match requireAdmin user with
      | Throw _ => forbidden
      | Ok _ =>
          match status with
          | StatusMissing => bad_request "Missing required field: status"
          | StatusInvalid =>
              bad_request
                "Invalid status. Valid values: PENDING, SHIPPED, DELIVERED, CANCELLED"
          | StatusValid status =>
              fun s =>
                match updateOrderStatus id status s with
                | (Ok order, s') => (Json 200 order, s')
                | (Throw m, s') => (PUT_api_orders_id_catch m, s')
                end
          end
      end
  end.

(** ** The API as a transition system

    One request is handled after the other.  Besides the routes that write,
    the two exported service operations that no route calls are included. *)

Inductive Request :=
| Req_POST_register (body : RegisterBody)
| Req_POST_books (user : option AuthenticatedUser) (body : PostBookBody)
| Req_PUT_books_id (user : option AuthenticatedUser) (id : string) (body : PutBookBody)
| Req_DELETE_books_id (user : option AuthenticatedUser) (id : string)
| Req_POST_orders (user : option AuthenticatedUser) (items : list CreateOrderItemDTO)
| Req_PUT_orders_id (user : option AuthenticatedUser) (id : string)
    (status : StatusField)
| Call_cancelOrder (orderId userId : string)
| Call_decrementStock (bookId : string) (quantity : Z).

Definition handle (r : Request) (s : DB) : DB :=
  match r with
  | Req_POST_register body => snd (POST_api_register body s)
  | Req_POST_books user body => snd (POST_api_books user body s)
  | Req_PUT_books_id user id body => snd (PUT_api_books_id user id body s)
  | Req_DELETE_books_id user id => snd (DELETE_api_books_id user id s)
  | Req_POST_orders user items => snd (POST_api_orders user items s)
  | Req_PUT_orders_id user id status => snd (PUT_api_orders_id user id status s)
  | Call_cancelOrder orderId userId => snd (cancelOrder orderId userId s)
  | Call_decrementStock bookId quantity => snd (decrementStock bookId quantity s)
  end.

Inductive reachable : DB -> Prop :=
| reachable_empty : reachable db_empty
| reachable_handle r s : reachable s -> reachable (handle r s).

(** Whether a request goes through one of the two ledger operations: the
    decrement of order placement and of [decrementStock], the increment of
    cancellation. *)
Definition is_ledger_request (r : Request) : bool :=
  match r with
  | Req_POST_orders _ _ | Call_cancelOrder _ _ | Call_decrementStock _ _ => true
  | _ => false
  end.

(** Whether a request is one of the catalog writes of the book routes. *)
Definition is_catalog_request (r : Request) : bool :=
  match r with
  | Req_POST_books _ _ | Req_PUT_books_id _ _ _ | Req_DELETE_books_id _ _ => true
  | _ => false
  end.

(** ** Requests in flight

    A service function gives up control at every [await] of a client call,
    and another request may run before it resumes.  A call in flight is a
    program point; one step takes it up to and including its next client
    call.  A schedule names, step by step, which call moves. *)

Definition step_at {P} (step : P -> DB -> P * DB) (i : nat) (ps : list P) (s : DB)
  : list P * DB :=
  match ps !! i with
  | Some p => (<[i := fst (step p s)]> ps, snd (step p s))
  | None => (ps, s)
  end.

Fixpoint run_schedule {P} (step : P -> DB -> P * DB) (schedule : list nat)
    (ps : list P) (s : DB) : list P * DB :=
  match schedule with
  | [] => (ps, s)
  | i :: rest =>
      run_schedule step rest (fst (step_at step i ps s)) (snd (step_at step i ps s))
  end.

(** [n] steps of a single call with nothing in between. *)
Fixpoint run_alone {P} (step : P -> DB -> P * DB) (n : nat) (p : P) (s : DB) : P * DB :=
  match n with
  | O => (p, s)
  | S n => run_alone step n (fst (step p s)) (snd (step p s))
  end.

(** *** decrementStock *)

Inductive DecrementPc :=
| DsRead                         (* before [await db.book.findUnique] *)
| DsWrite                        (* both tests passed, before [await db.book.update] *)
| DsDone (r : Result unit).

Record DecrementCall := {
  ds_bookId : string;
  ds_quantity : Z;
  ds_pc : DecrementPc;
}.

Definition ds_at (c : DecrementCall) (pc : DecrementPc) : DecrementCall :=
  {| ds_bookId := ds_bookId c; ds_quantity := ds_quantity c; ds_pc := pc |}.

Definition decrementStock_step (c : DecrementCall) (s : DB) : DecrementCall * DB :=
  match ds_pc c with
  | DsRead =>
      match book_findUnique (ds_bookId c) s with
      | (Ok None, s') => (ds_at c (DsDone (Throw "Book not found")), s')
      | (Ok (Some book), s') =>
          if book_stockQuantity book <? ds_quantity c
          then (ds_at c (DsDone (Throw "Insufficient stock")), s')
          else (ds_at c DsWrite, s')
      | (Throw m, s') => (ds_at c (DsDone (Throw m)), s')
      end
  | DsWrite =>
      match book_update (ds_bookId c) (decrement (ds_quantity c)) s with
      | (Ok _, s') => (ds_at c (DsDone (Ok tt)), s')
      | (Throw m, s') => (ds_at c (DsDone (Throw m)), s')
      end
  | DsDone _ => (c, s)
  end.

Definition decrementStock_call (bookId : string) (quantity : Z) : DecrementCall :=
  {| ds_bookId := bookId; ds_quantity := quantity; ds_pc := DsRead |}.

(** *** createOrder

    The transaction is one step: it is taken to run isolated from the other
    requests, which is what the code wraps it in [db.$transaction] for. *)

Inductive CreateOrderPc :=
| CoLoop (items : list CreateOrderItemDTO) (orderItems : list OrderItemInput)
    (totalPrice : price)
    (* head of the first loop with [items] to go; with none left, before
       [await db.$transaction] *)
| CoCheck (item : CreateOrderItemDTO) (book : Book) (rest : list CreateOrderItemDTO)
    (orderItems : list OrderItemInput) (totalPrice : price)
    (* [getBookById] returned [book], before [await checkStockAvailability] *)
| CoDone (r : Result Order).

Record CreateOrderCall := {
  co_userId : string;
  co_pc : CreateOrderPc;
}.

Definition co_at (c : CreateOrderCall) (pc : CreateOrderPc) : CreateOrderCall :=
  {| co_userId := co_userId c; co_pc := pc |}.

Definition createOrder_step (c : CreateOrderCall) (s : DB) : CreateOrderCall * DB :=
  match co_pc c with
  | CoLoop [] orderItems totalPrice =>
      (co_at c (CoDone (fst (db_transaction
                               (createOrder_tx (co_userId c) orderItems totalPrice) s))),
       snd (db_transaction (createOrder_tx (co_userId c) orderItems totalPrice) s))
  | CoLoop (item :: rest) orderItems totalPrice =>
      if item_invalid item then (co_at c (CoDone (Throw "Invalid order item")), s)
      else
        match getBookById (item_bookId item) s with
        | (Ok None, s') =>
            (co_at c (CoDone (Throw (book_not_found_message (item_bookId item)))), s')
        | (Ok (Some book), s') => (co_at c (CoCheck item book rest orderItems totalPrice), s')
        | (Throw m, s') => (co_at c (CoDone (Throw m)), s')
        end
  | CoCheck item book rest orderItems totalPrice =>
      match checkStockAvailability (item_bookId item) (item_quantity item) s with
      | (Ok isAvailable, s') =>
          if negb isAvailable then
            (co_at c (CoDone (Throw (insufficient_stock_message (book_title book)
                                       (book_stockQuantity book) (item_quantity item)))),
             s')
          else
            let subtotal := price_times (book_price book) (item_quantity item) in
            (co_at c (CoLoop rest
                        (orderItems ++
                           [{| in_bookId := item_bookId item;
                               in_quantity := item_quantity item;
                               in_unitPrice := book_price book;
                               in_subtotal := subtotal |}])%list
                        (price_add totalPrice subtotal)),
             s')
      | (Throw m, s') => (co_at c (CoDone (Throw m)), s')
      end
  | CoDone _ => (c, s)
  end.

Definition createOrder_call (userId : string) (items : list CreateOrderItemDTO)
  : CreateOrderCall :=
  {| co_userId := userId;
     co_pc := match items with
              | [] => CoDone (Throw "Order must contain at least one item")
              | _ :: _ => CoLoop items [] price_zero
              end |}.

Definition co_succeeded (c : CreateOrderCall) : bool :=
  match co_pc c with
  | CoDone (Ok _) => true
  | _ => false
  end.

Definition co_finished (c : CreateOrderCall) : bool :=
  match co_pc c with
  | CoDone _ => true
  | _ => false
  end.

End Model.

Arguments Book price : clear implicits.
Arguments OrderRow price : clear implicits.
Arguments OrderItemRow price : clear implicits.
Arguments OrderItemInput price : clear implicits.
Arguments DB price : clear implicits.
Arguments Order price : clear implicits.
Arguments Store price : clear implicits.
Arguments Handler price : clear implicits.
Arguments CreateBookDTO price : clear implicits.
Arguments UpdateBookDTO price : clear implicits.
Arguments PostBookBody price : clear implicits.
Arguments PutBookBody price : clear implicits.
Arguments Request price : clear implicits.
Arguments CreateOrderPc price : clear implicits.
Arguments CreateOrderCall price : clear implicits.

(** ** Views of the store used in the statements *)

Section Views.

Context {price : Type} {PA : PriceArith price} {NT : NumberText}.

(** Total quantity asked of book [id] in a list of (book id, quantity). *)
Fixpoint requested (id : string) (lines : list (string * Z)) : Z :=
  match lines with
  | [] => 0
  | (bookId, quantity) :: rest =>
      (if bool_decide (bookId = id) then quantity else 0) + requested id rest
  end.

Definition item_pair (item : CreateOrderItemDTO) : string * Z :=
  (item_bookId item, item_quantity item).

Definition in_pair (i : OrderItemInput price) : string * Z :=
  (in_bookId i, in_quantity i).

Definition oi_pair (r : OrderItemRow price) : string * Z :=
  (oi_bookId r, oi_quantity r).

(** The line [createOrder] makes of [item] when the catalog holds [b] for it:
    the unit price is the book's price, the subtotal their product. *)
Definition snapshot (b : Book price) (item : CreateOrderItemDTO) : OrderItemInput price :=
  {| in_bookId := item_bookId item; in_quantity := item_quantity item;
     in_unitPrice := book_price b;
     in_subtotal := price_times (book_price b) (item_quantity item) |}.

Definition priced (s : DB price) (item : CreateOrderItemDTO) (l : OrderItemInput price)
  : Prop :=
  ∃ b, books s !! item_bookId item = Some b ∧ l = snapshot b item.

(** Row [r] of order [orderId] is the snapshot of [item] taken in [s]. *)
Definition placed_line (s : DB price) (orderId : string) (item : CreateOrderItemDTO)
    (r : OrderItemRow price) : Prop :=
  ∃ b, books s !! item_bookId item = Some b
       ∧ r = row_of_input orderId (snapshot b item).

(** The running total of [createOrder]: subtotals added in order, from 0. *)
Definition sum_subtotals (start : price) (subtotals : list price) : price :=
  fold_left price_add subtotals start.

(** The order row [createOrder] inserts. *)
Definition pending_order (userId : string) (totalPrice : price) : OrderRow price :=
  {| order_userId := userId; order_totalPrice := totalPrice;
     order_orderStatus := PENDING; order_paymentStatus := PaymentStatus_PENDING |}.

Definition stock (s : DB price) (id : string) : option Z :=
  book_stockQuantity <$> books s !! id.

(** Stock counts are not negative. *)
Definition stock_nonneg (s : DB price) : Prop :=
  ∀ id b, books s !! id = Some b → 0 ≤ book_stockQuantity b.

(** Every line item refers to a book of the catalog. *)
Definition items_reference_books (s : DB price) : Prop :=
  ∀ r, r ∈ orderItems s → is_Some (books s !! oi_bookId r).

(** Every line item belongs to a stored order. *)
Definition items_reference_orders (s : DB price) : Prop :=
  ∀ r, r ∈ orderItems s → is_Some (orders s !! oi_orderId r).

(** Every line item has a positive quantity. *)
Definition items_positive (s : DB price) : Prop :=
  ∀ r, r ∈ orderItems s → 0 < oi_quantity r.

Definition line (bookId : string) (quantity : Z) : CreateOrderItemDTO :=
  {| item_bookId := bookId; item_quantity := quantity |}.

(** *** Several createOrder calls after the whole stock of one book

    Each call orders [quantity] copies of [bookId], whose title is [title].
    A call that has not finished is at one of three points; a call that lost
    threw one of three messages. *)

Definition race_waiting (bookId : string) (quantity : Z) (title : string)
    (pc : CreateOrderPc price) : Prop :=
  pc = CoLoop [line bookId quantity] [] price_zero
  ∨ (∃ b, pc = CoCheck (line bookId quantity) b [] [] price_zero
          ∧ book_title b = title
          ∧ (book_stockQuantity b = quantity ∨ book_stockQuantity b = 0))
  ∨ (∃ l total, pc = CoLoop [] [l] total
                ∧ in_bookId l = bookId ∧ in_quantity l = quantity).

Definition race_lost_message (quantity : Z) (title : string) (m : string) : Prop :=
  m = STOCK_VALIDATION_FAILED
  ∨ m = insufficient_stock_message title quantity quantity
  ∨ m = insufficient_stock_message title 0 quantity.

Definition race_lost (quantity : Z) (title : string) (pc : CreateOrderPc price) : Prop :=
  ∃ m, pc = CoDone (Throw m) ∧ race_lost_message quantity title m.

Definition race_won (pc : CreateOrderPc price) : Prop :=
  ∃ order, pc = CoDone (Ok order).

(** How many steps a call at [pc] can still take. *)
Definition steps_left (pc : CreateOrderPc price) : nat :=
  match pc with
  | CoLoop items _ _ => 2 * length items + 1
  | CoCheck _ _ rest _ _ => 2 * length rest + 2
  | CoDone _ => 0
  end.

(** How many steps a schedule gives to call [i]. *)
Definition steps_given (i : nat) (schedule : list nat) : nat :=
  length (List.filter (Nat.eqb i) schedule).

Definition count_succeeded (calls : list (CreateOrderCall price)) : nat :=
  length (List.filter co_succeeded calls).

Definition race_inv (bookId : string) (quantity : Z) (title : string)
    (calls : list (CreateOrderCall price)) (s : DB price) : Prop :=
  ∃ b, books s !! bookId = Some b ∧ book_title b = title
       ∧ Forall (λ c, is_Some (users s !! co_userId c)) calls
       ∧ ((book_stockQuantity b = quantity
           ∧ Forall (λ c, race_waiting bookId quantity title (co_pc c)) calls)
          ∨ (book_stockQuantity b = 0
             ∧ Forall (λ c, race_waiting bookId quantity title (co_pc c)
                            ∨ race_lost quantity title (co_pc c)
                            ∨ race_won (co_pc c)) calls
             ∧ count_succeeded calls = 1%nat)).

Record db_inv (s : DB price) : Prop := {
  inv_stock : stock_nonneg s;
  inv_books : items_reference_books s;
  inv_orders : items_reference_orders s;
  inv_positive : items_positive s;
}.

End Views.

(** * The rest of the services, the auth helpers and the reading routes *)

(** ** Libraries behind login and token checks

    [comparePassword] is bcryptjs' [compare]; [verifyToken] is jose's
    [jwtVerify] with the payload it yields, [None] when it rejects the
    token. *)

(** The payload of a token, and an [AuthenticatedUser] as it is at run time:
    the role is the string the token or the header carried, the cast
    [as UserRole] checks nothing. *)
Record JWTPayload := {
  jwt_userId : string;
  jwt_email : string;
  jwt_role : string;
}.

Class CredentialLib := {
  comparePassword : string -> string -> bool;   (* password, hash *)
  verifyToken : string -> option JWTPayload;
}.

(** ** lib/auth.ts *)

(** [s.split(sep)] for a separator of one character: the pieces between the
    occurrences of [sep], an empty piece included; the empty string gives
    one empty piece. *)
Fixpoint split (sep : ascii) (s : string) : list string :=
  match s with
  | EmptyString => [EmptyString]
  | String c rest =>
      if Ascii.eqb c sep then EmptyString :: split sep rest
      else match split sep rest with
           | piece :: pieces => String c piece :: pieces
           | [] => [String c EmptyString]
           end
  end.

(** Whether [c] occurs in [s]. *)
Fixpoint contains_char (c : ascii) (s : string) : bool :=
  match s with
  | EmptyString => false
  | String c' rest => Ascii.eqb c' c || contains_char c rest
  end.

(** [pieces.join(sep)] *)
Fixpoint join (sep : ascii) (pieces : list string) : string :=
  match pieces with
  | [] => EmptyString
  | [piece] => piece
  | piece :: rest => piece +:+ String sep (join sep rest)
  end.

Definition space : ascii := " "%char.

(** [authHeader] is [None] for [null]. *)
Definition extractTokenFromHeader (authHeader : option string) : option string :=
  match authHeader with
  | None => None
  | Some authHeader =>
      if bool_decide (authHeader = EmptyString) then None
      else
        match split space authHeader with
        | [scheme; token] => if bool_decide (scheme = "Bearer") then Some token else None
        | _ => None
        end
  end.

(** ** lib/authorization.ts, continued *)

(** The second half of [getAuthenticatedUser]: the bearer token of the
    Authorization header, verified. *)
Definition user_from_token `{CredentialLib} (authHeader : option string)
  : option JWTPayload :=
  match extractTokenFromHeader authHeader with
  | None => None
  | Some token =>
      if bool_decide (token = EmptyString) then None
      else verifyToken token
  end.

(** [headers] maps the lower-case name of a request header to its value. *)
Definition getAuthenticatedUser `{CredentialLib} (headers : gmap string string)
  : option JWTPayload :=
  match headers !! "x-user-id", headers !! "x-user-email", headers !! "x-user-role" with
  | Some userId, Some email, Some role =>
      if negb (bool_decide (userId = EmptyString))
         && negb (bool_decide (email = EmptyString))
         && negb (bool_decide (role = EmptyString))
      then Some {| jwt_userId := userId; jwt_email := email; jwt_role := role |}
      else user_from_token (headers !! "authorization")
  | _, _, _ => user_from_token (headers !! "authorization")
  end.

(** ** Pagination of the list functions *)

(** [page] and [size] of the query string after [parseInt]; [None] stands for
    a parameter that is absent or does not parse to a number. *)
Record OrderListQuery := {
  q_page : option Z;
  q_size : option Z;
}.

(** [x || d] on a number *)
Definition or_default (x : option Z) (d : Z) : Z :=
  match x with
  | Some v => if v =? 0 then d else v
  | None => d
  end.

(** [Math.ceil(a / b)] for integers [a] and [b], [b] not 0. *)
Definition ceil_div (a b : Z) : Z := - ((- a) / b).

Record Pagination := {
  pg_page : Z;
  pg_size : Z;
  pg_totalElements : Z;
  pg_totalPages : Z;
  pg_hasNext : bool;
  pg_hasPrevious : bool;
}.

Definition query_page (query : OrderListQuery) : Z := or_default (q_page query) 1.

Definition query_size (query : OrderListQuery) : Z :=
  Z.min (or_default (q_size query) 10) 100.

Definition query_skip (query : OrderListQuery) : Z :=
  (query_page query - 1) * query_size query.

(** The [pagination] object of the answer. *)
Definition pagination (query : OrderListQuery) (totalElements : Z) : Pagination :=
  {| pg_page := query_page query;
     pg_size := query_size query;
     pg_totalElements := totalElements;
     pg_totalPages := ceil_div totalElements (query_size query);
     pg_hasNext := query_skip query + query_size query <? totalElements;
     pg_hasPrevious := 1 <? query_page query |}.

Record PaginatedResponse (A : Type) := {
  pr_data : list A;
  pr_pagination : Pagination;
}.
Arguments pr_data {A} _.
Arguments pr_pagination {A} _.

(** [skip] and [take] of [findMany] on rows already filtered and ordered.
    This is what the client does when neither is negative; the statements
    about the rows of a page assume so. *)
Definition skip_take {A} (skip take : Z) (rows : list A) : list A :=
  firstn (Z.to_nat take) (skipn (Z.to_nat skip) rows).

Section MoreModel.

Context {price : Type} {PA : PriceArith price} {AL : AuthLib} {NT : NumberText}
  {CL : CredentialLib}.

(** ** authService.ts, continued *)

Record LoginDTO := {
  lg_email : string;
  lg_password : string;
}.

Definition loginUser (dto : LoginDTO) : Store price AuthResponse :=
  bind (user_findUnique_email (lg_email dto)) (fun prismaUser =>
  match prismaUser with
  | None => throw "Invalid email or password"
  | Some prismaUser =>
      let isPasswordValid :=
        comparePassword (lg_password dto) (user_password (snd prismaUser)) in
      if negb isPasswordValid then throw "Invalid email or password"
      else
        let user := transformUser prismaUser in
        let token := generateToken (api_user_id user) (api_user_email user)
                       (api_user_role user) in
        ret {| ar_token := token; ar_tokenType := "Bearer";
               ar_expiresIn := getTokenExpiresIn; ar_user := user |}
  end).

Definition getUserById (id : string) : Store price (option ApiUser) :=
  fun s =>
    (Ok (match users s !! id with
         | Some prismaUser => Some (transformUser (id, prismaUser))
         | None => None
         end), s).

Definition getUserByEmail (email : string) : Store price (option ApiUser) :=
  bind (user_findUnique_email email) (fun prismaUser =>
  match prismaUser with
  | None => ret None
  | Some prismaUser => ret (Some (transformUser prismaUser))
  end).

(** ** orderService.ts, continued *)

(** [order.findUnique({ where: { id }, include })] through [transformOrder] *)
Definition getOrderById (id : string) : Store price (option (Order price)) :=
  fun s =>
    (Ok (match orders s !! id with
         | Some prismaOrder => Some (transformOrder id prismaOrder (orderItems s))
         | None => None
         end), s).

(** The [where] clause of [getOrders] as a test on rows: [{}] for an admin,
    [{ userId }] otherwise.  There is none for [{ userId: null }]: the
    column cannot be null, and the client refuses the filter. *)
Definition getOrders_where (userId : option string) (isAdmin : bool)
  : option (string * OrderRow price -> bool) :=
  if isAdmin then Some (fun _ => true)
  else match userId with
       | Some userId => Some (fun row => bool_decide (order_userId (snd row) = userId))
       | None => None
       end.

(** The [createdAt] column is not part of the store here; the order
    [orderBy: { createdAt: 'desc' }] gives the rows is the parameter
    [createdAt_desc], some rearrangement of them. *)
Definition getOrders (createdAt_desc : list (string * OrderRow price) ->
                                       list (string * OrderRow price))
    (userId : option string) (isAdmin : bool) (query : OrderListQuery)
  : Store price (PaginatedResponse (Order price)) :=
  fun s =>
    match getOrders_where userId isAdmin with
    | None => (Throw ARGUMENT_MUST_NOT_BE_NULL, s)     (* thrown by [order.count] *)
    | Some where_ =>
        let matching := List.filter where_ (map_to_list (orders s)) in
        let totalElements := Z.of_nat (length matching) in
        let prismaOrders :=
          skip_take (query_skip query) (query_size query) (createdAt_desc matching) in
        (Ok {| pr_data :=
                 List.map (fun row => transformOrder (fst row) (snd row) (orderItems s))
                   prismaOrders;
               pr_pagination := pagination query totalElements |}, s)
    end.

(** ** Reading routes and login *)

(** *** GET /api/orders *)
Definition GET_api_orders (createdAt_desc : list (string * OrderRow price) ->
                                            list (string * OrderRow price))
    (user : option AuthenticatedUser) (query : OrderListQuery)
  : Handler price (PaginatedResponse (Order price)) :=
  match user with
  | None => unauthorized
  | Some user =>
      let userIsAdmin := isAdmin user in
      let userId := if userIsAdmin then None else Some (au_userId user) in
      fun s =>
        match getOrders createdAt_desc userId userIsAdmin query s with
        | (Ok result, s') => (Json 200 result, s')
        | (Throw _, s') =>
            (ErrorJson 500 "Internal Server Error" "Failed to fetch orders", s')
        end
  end.

(** *** GET /api/orders/{id} *)
Definition GET_api_orders_id (user : option AuthenticatedUser) (id : string)
  : Handler price (Order price) :=
  match user with
  | None => unauthorized
  | Some user =>
      fun s =>
        match getOrderById id s with
        | (Ok None, s') => (ErrorJson 404 "Not Found" "Order not found", s')
        | (Ok (Some order), s') =>
            if negb (canAccessResource user (Order_userId order))
            then (ErrorJson 403 "Forbidden"
                    "You do not have permission to access this order", s')
            else (Json 200 order, s')
        | (Throw _, s') =>
            (ErrorJson 500 "Internal Server Error" "Failed to fetch order", s')
        end
  end.

(** *** GET /api/books/{id} *)
Definition GET_api_books_id (id : string) : Handler price (string * Book price) :=
  fun s =>
    match getBookById id s with
    | (Ok None, s') => (ErrorJson 404 "Not Found" "Book not found", s')
    | (Ok (Some book), s') => (Json 200 (id, book), s')
    | (Throw _, s') => (ErrorJson 500 "Internal Server Error" "Failed to fetch book", s')
    end.

(** *** GET /api/users/me *)
Definition GET_api_users_me (user : option AuthenticatedUser) : Handler price ApiUser :=
  match user with
  | None => unauthorized
  | Some user =>
      fun s =>
        match getUserById (au_userId user) s with
        | (Ok None, s') => (ErrorJson 404 "Not Found" "User not found", s')
        | (Ok (Some fullUser), s') => (Json 200 fullUser, s')
        | (Throw _, s') =>
            (ErrorJson 500 "Internal Server Error" "Failed to fetch user profile", s')
        end
  end.

(** *** POST /api/login *)

(** An empty string stands for a missing or falsy field. *)
Record LoginBody := {
  lb_email : string;
  lb_password : string;
}.

Definition POST_api_login (body : LoginBody) : Handler price AuthResponse :=
  if bool_decide (lb_email body = EmptyString)
     || bool_decide (lb_password body = EmptyString)
  then bad_request "Missing required fields: email, password"
  else
    let dto := {| lg_email := toLowerCase_trim (lb_email body);
                  lg_password := lb_password body |} in
    fun s =>
      match loginUser dto s with
      | (Ok authResponse, s') => (Json 200 authResponse, s')
      | (Throw _, s') => (ErrorJson 401 "Unauthorized" "Invalid email or password", s')
      end.

(** ** A sequence of requests, handled one after the other *)
Definition handle_all (requests : list (Request price)) (s : DB price) : DB price :=
  fold_left (fun s r => handle r s) requests s.

End MoreModel.

(** ** Further views of the store *)

Section MoreViews.

Context {price : Type} {PA : PriceArith price}.

(** No two users share an e-mail address. *)
Definition emails_unique (s : DB price) : Prop :=
  ∀ id1 id2 u1 u2,
    users s !! id1 = Some u1 → users s !! id2 = Some u2 →
    user_email u1 = user_email u2 → id1 = id2.

(** No two books share an ISBN. *)
Definition isbns_unique (s : DB price) : Prop :=
  ∀ id1 id2 b1 b2,
    books s !! id1 = Some b1 → books s !! id2 = Some b2 →
    book_isbn b1 = book_isbn b2 → id1 = id2.

(** The total of every stored order is the sum of the subtotals of its
    lines, added in order from 0. *)
Definition totals_consistent (s : DB price) : Prop :=
  ∀ id o, orders s !! id = Some o →
    order_totalPrice o
    = sum_subtotals price_zero (map oi_subtotal (items_of_order id (orderItems s))).

(** Every stored order belongs to a stored user. *)
Definition orders_reference_users (s : DB price) : Prop :=
  ∀ id o, orders s !! id = Some o → is_Some (users s !! order_userId o).

(** The book [createBook] stores for [dto]. *)
Definition book_of_dto (dto : CreateBookDTO price) : Book price :=
  {| book_title := cb_title dto; book_authors := cb_authors dto;
     book_genre := cb_genre dto; book_isbn := cb_isbn dto;
     book_price := cb_price dto; book_description := cb_description dto;
     book_stockQuantity := cb_stockQuantity dto;
     book_imageUrl := cb_imageUrl dto |}.

(** An update that gives no field. *)
Definition no_update : UpdateBookDTO price :=
  {| ub_title := None; ub_authors := None; ub_genre := None; ub_isbn := None;
     ub_price := None; ub_description := None; ub_stockQuantity := None;
     ub_imageUrl := None |}.

End MoreViews.

(** ** A small shop to run the model on

    Prices in cents; the helper libraries are replaced by stand-ins. *)

#[global] Instance example_AuthLib : AuthLib := {|
  hashPassword := fun password => "hash:" +:+ password;
  generateToken := fun userId _ _ => "token:" +:+ userId;
  emailRegex_test := fun _ => true;
  toLowerCase_trim := fun email => email;
|}.

(** Numbers that are not safe integers do not occur in the examples. *)
#[global] Instance example_NumberText : NumberText := {|
  unsafe_integer_text := fun n => pretty n;
|}.

Definition example_user (name email : string) (role : UserRole) : User :=
  {| user_name := name; user_email := email; user_password := "hash:secret1";
     user_role := role |}.

Definition example_book (title isbn : string) (cents stockQuantity : Z) : Book Z :=
  {| book_title := title; book_authors := ["Anonymous"]; book_genre := "Fiction";
     book_isbn := isbn; book_price := cents; book_description := None;
     book_stockQuantity := stockQuantity; book_imageUrl := None |}.

(** Item A with stock 5, item B with stock 2, item C with stock 10; three
    customers and an admin. *)
Definition shop : DB Z :=
  {| books := <["A" := example_book "Alpha" "111" 1299 5]>
                (<["B" := example_book "Beta" "222" 500 2]>
                   (<["C" := example_book "Gamma" "333" 750 10]> ∅));
     users := <["cust-1" := example_user "John" "john@example.com" CUSTOMER]>
                (<["cust-2" := example_user "Jane" "jane@example.com" CUSTOMER]>
                   (<["cust-3" := example_user "Joe" "joe@example.com" CUSTOMER]>
                      (<["admin-1" := example_user "Admin" "admin@bookstore.com" ADMIN]>
                         ∅)));
     orders := ∅; orderItems := [] |}.

Definition admin : AuthenticatedUser :=
  {| au_userId := "admin-1"; au_email := "admin@bookstore.com"; au_role := ADMIN |}.

Definition customer : AuthenticatedUser :=
  {| au_userId := "cust-1"; au_email := "john@example.com"; au_role := CUSTOMER |}.

Definition no_fields : UpdateBookDTO Z :=
  {| ub_title := None; ub_authors := None; ub_genre := None; ub_isbn := None;
     ub_price := None; ub_description := None; ub_stockQuantity := None;
     ub_imageUrl := None |}.

(** The shop after the customer ordered all 5 copies of item A; the order got
    the id "0". *)
Definition shop_after_order : DB Z :=
  snd (createOrder "cust-1" [line "A" 5] shop).

(** That order as [createOrder] returned it. *)
Definition placed_order : Order Z :=
  {| Order_id := "0"; Order_userId := "cust-1";
     Order_orderItems :=
       [{| oi_orderId := "0"; oi_bookId := "A"; oi_quantity := 5;
           oi_unitPrice := 1299; oi_subtotal := 6495 |}];
     Order_totalPrice := 6495; Order_orderStatus := PENDING;
     Order_paymentStatus := PaymentStatus_PENDING |}.

(** A registration body that also carries a role. *)
Definition body_with_role : RegisterBody :=
  {| rb_name := "Mallory"; rb_email := "mallory@example.com";
     rb_password := "secret1"; rb_other := [("role", "ADMIN")] |}.

(** Two lines for item A that pass the first loop one by one (3 of 5 each)
    and together ask for more than the 5 in stock. *)
Definition twice_three_of_A : list CreateOrderItemDTO := [line "A" 3; line "A" 3].

(** A book with 5 copies, as the admin posts it. *)
Definition new_book_body : PostBookBody Z :=
  {| pb_title := "Alpha"; pb_authors := Some ["Anonymous"]; pb_genre := "Fiction";
     pb_isbn := "111"; pb_price := Some 1299; pb_description := None;
     pb_stockQuantity := Some 5; pb_imageUrl := None |}.

(** The store after that one request; the book got the id "0". *)
Definition stocked : DB Z :=
  handle (Req_POST_books (Some admin) new_book_body) db_empty.

(** The README's update example: [{ "stockQuantity": 40 }]. *)
Definition restock_to_40 : PutBookBody Z :=
  {| put_fields :=
       {| ub_title := None; ub_authors := None; ub_genre := None; ub_isbn := None;
          ub_price := None; ub_description := None; ub_stockQuantity := Some 40;
          ub_imageUrl := None |};
     put_other_keys := false |}.


(** Stand-ins for the password comparison and the token check that go with
    [example_AuthLib]: one token is accepted, that of the admin. *)
#[global] Instance example_CredentialLib : CredentialLib := {|
  comparePassword := fun password hash => String.eqb hash ("hash:" +:+ password);
  verifyToken := fun token =>
    if String.eqb token "token:admin-1"
    then Some {| jwt_userId := "admin-1"; jwt_email := "admin@bookstore.com";
                 jwt_role := "ADMIN" |}
    else None;
|}.

(** The caller John is after he registered first: his user got the id "0". *)
Definition john_caller : AuthenticatedUser :=
  {| au_userId := "0"; au_email := "john@example.com"; au_role := CUSTOMER |}.

(** John registers, the admin posts the book (it gets the id "0"), John
    orders 2 of the 5 copies (the order gets the id "0"). *)
Definition stocked_after_order : DB Z :=
  handle (Req_POST_orders (Some john_caller) [line "0" 2])
    (handle (Req_POST_books (Some admin) new_book_body)
       (handle (Req_POST_register {| rb_name := "John"; rb_email := "john@example.com";
                                     rb_password := "secret1"; rb_other := [] |})
          db_empty)).

(** The one line of that order. *)
Definition two_of_book_0 : OrderItemRow Z :=
  {| oi_orderId := "0"; oi_bookId := "0"; oi_quantity := 2;
     oi_unitPrice := 1299; oi_subtotal := 2598 |}.

Definition john : CreateUserDTO :=
  {| cu_name := "John"; cu_email := "john@example.com"; cu_password := "secret1" |}.

(** The store after John registered; he got the id "0". *)
Definition registered : DB Z :=
  handle (Req_POST_register {| rb_name := "John"; rb_email := "john@example.com";
                               rb_password := "secret1"; rb_other := [] |}) db_empty.

Definition john_user : ApiUser :=
  {| api_user_id := "0"; api_user_name := "John";
     api_user_email := "john@example.com"; api_user_role := CUSTOMER |}.

(** The store after Mallory registered as well, with a body that asks for the
    role ADMIN; she got the id "1". *)
Definition registered_twice : DB Z :=
  handle (Req_POST_register body_with_role) registered.

(** A second book for [stocked], and the store with both; the second got the
    id "1". *)
Definition second_book_body : PostBookBody Z :=
  {| pb_title := "Beta"; pb_authors := Some ["Anonymous"]; pb_genre := "Fiction";
     pb_isbn := "222"; pb_price := Some 500; pb_description := None;
     pb_stockQuantity := Some 2; pb_imageUrl := None |}.

Definition stocked_twice : DB Z :=
  handle (Req_POST_books (Some admin) second_book_body) stocked.

(** A new price for a book and nothing else. *)
Definition reprice_to_1999 : UpdateBookDTO Z :=
  {| ub_title := None; ub_authors := None; ub_genre := None; ub_isbn := None;
     ub_price := Some 1999; ub_description := None; ub_stockQuantity := None;
     ub_imageUrl := None |}.

Definition first_page : OrderListQuery := {| q_page := Some 1; q_size := Some 10 |}.

(** The headers a middleware would forward for the customer. *)
Definition forwarded_headers : gmap string string :=
  <["x-user-id" := "cust-1"]>
    (<["x-user-email" := "john@example.com"]> (<["x-user-role" := "CUSTOMER"]> ∅)).

(** A fourth book for the shop, and Alpha's ISBN on another title. *)
Definition delta_dto : CreateBookDTO Z :=
  {| cb_title := "Delta"; cb_authors := ["Anonymous"]; cb_genre := "Fiction";
     cb_isbn := "444"; cb_price := 990; cb_description := None;
     cb_stockQuantity := 7; cb_imageUrl := None |}.

Definition alpha_again_dto : CreateBookDTO Z :=
  {| cb_title := "Alpha, again"; cb_authors := ["Anonymous"]; cb_genre := "Fiction";
     cb_isbn := "111"; cb_price := 1299; cb_description := None;
     cb_stockQuantity := 1; cb_imageUrl := None |}.

(** * Properties *)

Section Properties.

Context {price : Type} {PA : PriceArith price} {AL : AuthLib} {NT : NumberText}.

Implicit Types (s : DB price) (b : Book price) (id : string).

(** ** Bookkeeping on stock updates *)

Lemma decrement_stock q b :
  book_stockQuantity (decrement q b) = book_stockQuantity b - q.
Proof. reflexivity. Qed.

Lemma increment_stock q b :
  book_stockQuantity (increment q b) = book_stockQuantity b + q.
Proof. reflexivity. Qed.

Lemma decrement_0 b : decrement 0 b = b.
Proof. destruct b; unfold decrement, set_stockQuantity; simpl; f_equal; lia. Qed.

Lemma increment_0 b : increment 0 b = b.
Proof. destruct b; unfold increment, set_stockQuantity; simpl; f_equal; lia. Qed.

Lemma decrement_decrement q1 q2 b :
  decrement q2 (decrement q1 b) = decrement (q1 + q2) b.
Proof. destruct b; unfold decrement, set_stockQuantity; simpl; f_equal; lia. Qed.

Lemma increment_increment q1 q2 b :
  increment q2 (increment q1 b) = increment (q1 + q2) b.
Proof. destruct b; unfold increment, set_stockQuantity; simpl; f_equal; lia. Qed.

Lemma increment_decrement q b : increment q (decrement q b) = b.
Proof.
  destruct b; unfold increment, decrement, set_stockQuantity; simpl; f_equal; lia.
Qed.

(** A write to the stock alone cannot fail on the unique ISBN. *)
Lemma isbn_taken_same b b' (bs : gmap string (Book price)) :
  book_isbn b' = book_isbn b → isbn_taken b b' bs = false.
Proof. intros H. unfold isbn_taken. now rewrite (bool_decide_eq_true_2 _ H). Qed.

Lemma book_update_stock id (f : Z → Z) s :
  book_update id (set_stockQuantity f) s =
  match books s !! id with
  | Some b => (Ok (set_stockQuantity f b), set_books (insert id (set_stockQuantity f b)) s)
  | None => (Throw RECORD_NOT_FOUND, s)
  end.
Proof.
  unfold book_update. destruct (books s !! id) as [b|]; [|reflexivity].
  now rewrite isbn_taken_same.
Qed.

Lemma book_update_decrement id q s :
  book_update id (decrement q) s =
  match books s !! id with
  | Some b => (Ok (decrement q b), set_books (insert id (decrement q b)) s)
  | None => (Throw RECORD_NOT_FOUND, s)
  end.
Proof. apply book_update_stock. Qed.

Lemma book_update_increment id q s :
  book_update id (increment q) s =
  match books s !! id with
  | Some b => (Ok (increment q b), set_books (insert id (increment q b)) s)
  | None => (Throw RECORD_NOT_FOUND, s)
  end.
Proof. apply book_update_stock. Qed.

Lemma requested_app id (l1 l2 : list (string * Z)) :
  requested id (l1 ++ l2) = requested id l1 + requested id l2.
Proof.
  induction l1 as [|[k q] l1 IH]; simpl; [lia|]. rewrite IH. lia.
Qed.

Lemma requested_nonneg id (l : list (string * Z)) :
  (∀ p, p ∈ l → 0 ≤ snd p) → 0 ≤ requested id l.
Proof.
  induction l as [|[k q] l IH]; simpl; intros H; [lia|].
  assert (0 ≤ q) by (apply (H (k, q)); left).
  assert (0 ≤ requested id l) by (apply IH; intros p Hp; apply H; now right).
  case_bool_decide; lia.
Qed.

(** ** The loops of createOrder *)

(** The first loop only reads. *)
Lemma createOrder_item_reads item acc total s :
  snd (createOrder_item item acc total s) = s.
Proof.
  unfold createOrder_item.
  destruct (item_invalid item); [reflexivity|].
  unfold getBookById, checkStockAvailability.
  unfold bind, book_findUnique, throw, ret; simpl.
  destruct (books s !! item_bookId item) as [b|] eqn:Hb; simpl; [|reflexivity].
  rewrite Hb; simpl.
  destruct (item_quantity item <=? book_stockQuantity b); reflexivity.
Qed.

Lemma createOrder_collect_reads items acc total s :
  snd (createOrder_collect items acc total s) = s.
Proof.
  revert acc total. induction items as [|item rest IH]; intros acc total; simpl.
  - reflexivity.
  - unfold bind. pose proof (createOrder_item_reads item acc total s) as Hs.
    destruct (createOrder_item item acc total s) as [[[acc' total']|m] s1];
      simpl in *; subst s1; [apply IH | reflexivity].
Qed.

(** The second loop, one line at a time. *)
Lemma createOrder_decrementAll_cons (item : OrderItemInput price) rest s :
  createOrder_decrementAll (item :: rest) s =
  match books s !! in_bookId item with
  | None => (Throw STOCK_VALIDATION_FAILED, s)
  | Some b =>
      if book_stockQuantity b <? in_quantity item
      then (Throw STOCK_VALIDATION_FAILED, s)
      else createOrder_decrementAll rest
             (set_books (insert (in_bookId item) (decrement (in_quantity item) b)) s)
  end.
Proof.
  simpl. unfold bind, book_findUnique, throw; simpl.
  destruct (books s !! in_bookId item) as [b|] eqn:Hb; simpl; [|reflexivity].
  destruct (book_stockQuantity b <? in_quantity item); simpl; [reflexivity|].
  rewrite book_update_decrement, Hb. reflexivity.
Qed.

Lemma createOrder_decrementAll_frame (lines : list (OrderItemInput price)) s :
  users (snd (createOrder_decrementAll lines s)) = users s
  ∧ orders (snd (createOrder_decrementAll lines s)) = orders s
  ∧ orderItems (snd (createOrder_decrementAll lines s)) = orderItems s.
Proof.
  revert s. induction lines as [|item rest IH]; intros s; [easy|].
  rewrite createOrder_decrementAll_cons.
  destruct (books s !! in_bookId item) as [b|]; [|easy].
  destruct (book_stockQuantity b <? in_quantity item); [easy|].
  exact (IH (set_books _ s)).
Qed.

Lemma createOrder_decrementAll_throws (lines : list (OrderItemInput price)) s m :
  fst (createOrder_decrementAll lines s) = Throw m → m = STOCK_VALIDATION_FAILED.
Proof.
  revert s. induction lines as [|item rest IH]; intros s; [discriminate|].
  rewrite createOrder_decrementAll_cons.
  destruct (books s !! in_bookId item) as [b|]; [|simpl; congruence].
  destruct (book_stockQuantity b <? in_quantity item); [simpl; congruence|].
  apply IH.
Qed.

(** What the second loop has done to the catalog when it ran to its end. *)
Lemma createOrder_decrementAll_effect (lines : list (OrderItemInput price)) s :
  fst (createOrder_decrementAll lines s) = Ok tt →
  (∀ l, l ∈ lines → is_Some (books s !! in_bookId l))
  ∧ ∀ id, books (snd (createOrder_decrementAll lines s)) !! id
          = decrement (requested id (map in_pair lines)) <$> books s !! id.
Proof.
  revert s. induction lines as [|item rest IH]; intros s.
  - intros _. split; [intros l Hl; inversion Hl|].
    intros id; simpl. destruct (books s !! id); simpl; [|reflexivity].
    now rewrite decrement_0.
  - rewrite createOrder_decrementAll_cons.
    destruct (books s !! in_bookId item) as [b|] eqn:Hb; [|discriminate].
    destruct (book_stockQuantity b <? in_quantity item); [discriminate|].
    intros Hok. destruct (IH _ Hok) as [Hex Heff]. split.
    + intros l Hl. apply elem_of_cons in Hl as [->|Hl]; [rewrite Hb; eauto|].
      specialize (Hex l Hl). simpl in Hex.
      destruct (decide (in_bookId item = in_bookId l)) as [e|n].
      * rewrite <- e, Hb. eauto.
      * now rewrite lookup_insert_ne in Hex.
    + intros id. rewrite Heff. simpl.
      destruct (decide (in_bookId item = id)) as [<-|n].
      * rewrite lookup_insert_eq, Hb. simpl.
        rewrite bool_decide_eq_true_2 by reflexivity.
        now rewrite decrement_decrement.
      * rewrite lookup_insert_ne by assumption.
        rewrite bool_decide_eq_false_2 by assumption.
        reflexivity.
Qed.

Lemma createOrder_decrementAll_nonneg (lines : list (OrderItemInput price)) s :
  stock_nonneg s → stock_nonneg (snd (createOrder_decrementAll lines s)).
Proof.
  revert s. induction lines as [|item rest IH]; intros s Hs; [exact Hs|].
  rewrite createOrder_decrementAll_cons.
  destruct (books s !! in_bookId item) as [b|] eqn:Hb; [|exact Hs].
  destruct (book_stockQuantity b <? in_quantity item) eqn:Hlt; [exact Hs|].
  apply IH. intros id b' Hb'. simpl in Hb'.
  destruct (decide (in_bookId item = id)) as [<-|n].
  - rewrite lookup_insert_eq in Hb'. injection Hb' as <-.
    rewrite decrement_stock. apply Z.ltb_ge in Hlt. lia.
  - rewrite lookup_insert_ne in Hb' by assumption. eauto.
Qed.

(** With enough stock for the whole order the second loop runs to its end. *)
Lemma createOrder_decrementAll_succeeds (lines : list (OrderItemInput price)) s :
  (∀ l, l ∈ lines → 0 ≤ in_quantity l) →
  (∀ l, l ∈ lines → is_Some (books s !! in_bookId l)) →
  (∀ id b, books s !! id = Some b →
           requested id (map in_pair lines) ≤ book_stockQuantity b) →
  fst (createOrder_decrementAll lines s) = Ok tt.
Proof.
  revert s. induction lines as [|item rest IH]; intros s Hq Hex Hsuf; [reflexivity|].
  rewrite createOrder_decrementAll_cons.
  destruct (Hex item) as [b Hb]; [left|]. rewrite Hb.
  assert (Hrest : 0 ≤ requested (in_bookId item) (map in_pair rest)).
  { apply requested_nonneg. intros p Hp. apply list_elem_of_fmap in Hp as [l [-> Hl]].
    simpl. apply Hq. now right. }
  pose proof (Hsuf _ _ Hb) as Hb_suf. simpl in Hb_suf.
  rewrite bool_decide_eq_true_2 in Hb_suf by reflexivity.
  destruct (book_stockQuantity b <? in_quantity item) eqn:Hlt.
  { apply Z.ltb_lt in Hlt. lia. }
  apply IH.
  - intros l Hl. apply Hq. now right.
  - intros l Hl. simpl. destruct (decide (in_bookId item = in_bookId l)) as [e|n].
    + rewrite <- e, lookup_insert_eq. eauto.
    + rewrite lookup_insert_ne by assumption. apply Hex. now right.
  - intros id b' Hb'. simpl in Hb'.
    destruct (decide (in_bookId item = id)) as [<-|n].
    + rewrite lookup_insert_eq in Hb'. injection Hb' as <-.
      rewrite decrement_stock. lia.
    + rewrite lookup_insert_ne in Hb' by assumption.
      pose proof (Hsuf _ _ Hb') as H'. simpl in H'.
      rewrite bool_decide_eq_false_2 in H' by assumption. lia.
Qed.

(** ** The first loop of createOrder *)

Lemma item_invalid_false (item : CreateOrderItemDTO) :
  item_invalid item = false ↔ item_bookId item ≠ EmptyString ∧ 0 < item_quantity item.
Proof.
  unfold item_invalid. rewrite !orb_false_iff, bool_decide_eq_false.
  rewrite Z.eqb_neq, Z.leb_gt. intuition lia.
Qed.

Lemma createOrder_item_spec item (acc : list (OrderItemInput price)) total s :
  createOrder_item item acc total s =
  if item_invalid item then (Throw "Invalid order item", s)
  else match books s !! item_bookId item with
       | None => (Throw (book_not_found_message (item_bookId item)), s)
       | Some b =>
           if item_quantity item <=? book_stockQuantity b
           then (Ok ((acc ++ [snapshot b item])%list,
                     price_add total (in_subtotal (snapshot b item))), s)
           else (Throw (insufficient_stock_message (book_title b)
                          (book_stockQuantity b) (item_quantity item)), s)
       end.
Proof.
  unfold createOrder_item. destruct (item_invalid item); [reflexivity|].
  unfold getBookById, checkStockAvailability.
  unfold bind, book_findUnique, throw, ret; simpl.
  destruct (books s !! item_bookId item) as [b|] eqn:Hb; simpl; [|reflexivity].
  rewrite Hb; simpl.
  destruct (item_quantity item <=? book_stockQuantity b); reflexivity.
Qed.

Lemma createOrder_collect_cons item rest (acc : list (OrderItemInput price)) total s :
  createOrder_collect (item :: rest) acc total s =
  match createOrder_item item acc total s with
  | (Ok acc', _) => createOrder_collect rest (fst acc') (snd acc') s
  | (Throw m, _) => (Throw m, s)
  end.
Proof.
  simpl. unfold bind.
  pose proof (createOrder_item_reads item acc total s) as Hs.
  destruct (createOrder_item item acc total s) as [[acc'|m] s1]; simpl in Hs; now subst.
Qed.

(** What the first loop has collected when it ran to its end. *)
Lemma createOrder_collect_Ok items (acc : list (OrderItemInput price)) total s acc' :
  fst (createOrder_collect items acc total s) = Ok acc' →
  ∃ lines,
    Forall2 (priced s) items lines
    ∧ Forall (λ item, item_invalid item = false) items
    ∧ acc' = ((acc ++ lines)%list, sum_subtotals total (map in_subtotal lines)).
Proof.
  revert acc total. induction items as [|item rest IH]; intros acc total.
  - simpl. intros [= <-]. exists []. rewrite app_nil_r. repeat constructor.
  - rewrite createOrder_collect_cons, createOrder_item_spec.
    destruct (item_invalid item) eqn:Hinv; [discriminate|].
    destruct (books s !! item_bookId item) as [b|] eqn:Hb; [|discriminate].
    destruct (item_quantity item <=? book_stockQuantity b); [|discriminate].
    simpl. intros Hok. destruct (IH _ _ Hok) as (lines & Hl & Hv & ->).
    exists (snapshot b item :: lines). split; [|split].
    + constructor; [exists b; auto | assumption].
    + constructor; assumption.
    + now rewrite <- app_assoc.
Qed.

(** An item that asks for more than the catalog holds stops the first loop,
    wherever it stands in the list. *)
Lemma createOrder_collect_insufficient items (acc : list (OrderItemInput price))
    total s item b :
  item ∈ items → books s !! item_bookId item = Some b →
  book_stockQuantity b < item_quantity item →
  ∃ m, createOrder_collect items acc total s = (Throw m, s).
Proof.
  intros Hin Hb Hlt. revert acc total.
  induction items as [|item' rest IH]; intros acc total; [inversion Hin|].
  rewrite createOrder_collect_cons, createOrder_item_spec.
  destruct (item_invalid item') eqn:Hinv; [eauto|].
  destruct (books s !! item_bookId item') as [b'|] eqn:Hb'; [|eauto].
  destruct (item_quantity item' <=? book_stockQuantity b') eqn:Hle; [|eauto].
  simpl. apply elem_of_cons in Hin as [->|Hin]; [|now apply IH].
  rewrite Hb in Hb'. injection Hb' as <-. apply Z.leb_le in Hle. lia.
Qed.

(** With every item valid, known and in stock the first loop collects the
    snapshot of each. *)
Lemma createOrder_collect_succeeds items (acc : list (OrderItemInput price)) total s :
  Forall (λ item, item_invalid item = false) items →
  (∀ item, item ∈ items →
     ∃ b, books s !! item_bookId item = Some b
          ∧ item_quantity item ≤ book_stockQuantity b) →
  ∃ acc', fst (createOrder_collect items acc total s) = Ok acc'.
Proof.
  revert acc total. induction items as [|item rest IH]; intros acc total Hv Hst.
  - simpl. eauto.
  - rewrite createOrder_collect_cons, createOrder_item_spec.
    inversion Hv as [|? ? Hv1 Hv2]; subst. rewrite Hv1.
    destruct (Hst item) as (b & Hb & Hle); [left|]. rewrite Hb.
    apply Z.leb_le in Hle. rewrite Hle. simpl.
    apply IH; [assumption|]. intros item' Hin. apply Hst. now right.
Qed.

Lemma priced_pairs s items (lines : list (OrderItemInput price)) :
  Forall2 (priced s) items lines → map in_pair lines = map item_pair items.
Proof.
  induction 1 as [|item l items lines (b & _ & ->) _ IH]; simpl; [reflexivity|].
  now rewrite IH.
Qed.

Lemma createOrder_collect_app before rest (acc : list (OrderItemInput price)) total s :
  createOrder_collect (before ++ rest) acc total s =
  match fst (createOrder_collect before acc total s) with
  | Ok acc' => createOrder_collect rest (fst acc') (snd acc') s
  | Throw m => (Throw m, s)
  end.
Proof.
  revert acc total. induction before as [|item before IH]; intros acc total.
  - reflexivity.
  - rewrite <- app_comm_cons, !createOrder_collect_cons.
    destruct (createOrder_item item acc total s) as [[acc'|m] s1]; [apply IH|reflexivity].
Qed.

Lemma requested_elem id q (l : list (string * Z)) :
  (∀ p, p ∈ l → 0 ≤ snd p) → (id, q) ∈ l → q ≤ requested id l.
Proof.
  induction l as [|[k q'] l IH]; intros Hq Hin; [inversion Hin|].
  assert (0 ≤ q') by (apply (Hq (k, q')); left).
  assert (Hl : ∀ p, p ∈ l → 0 ≤ snd p) by (intros p Hp; apply Hq; now right).
  pose proof (requested_nonneg id l Hl). simpl.
  apply elem_of_cons in Hin as [[= <- <-]|Hin].
  - rewrite bool_decide_eq_true_2 by reflexivity. lia.
  - specialize (IH Hl Hin). case_bool_decide; lia.
Qed.

(** ** createOrder as a whole *)

Lemma createOrder_unfold userId items s :
  items ≠ [] →
  createOrder userId items s =
  match fst (createOrder_collect items [] price_zero s) with
  | Ok acc => db_transaction (createOrder_tx userId (fst acc) (snd acc)) s
  | Throw m => (Throw m, s)
  end.
Proof.
  intros Hne. unfold createOrder. destruct items as [|item rest]; [done|].
  unfold bind.
  pose proof (createOrder_collect_reads (item :: rest) [] price_zero s) as Hs.
  destruct (createOrder_collect (item :: rest) [] price_zero s) as [[acc|m] s1];
    simpl in Hs; now subst.
Qed.

Lemma createOrder_tx_unfold userId (lines : list (OrderItemInput price)) total s :
  createOrder_tx userId lines total s =
  match fst (createOrder_decrementAll lines s) with
  | Ok _ => order_create (pending_order userId total) lines
              (snd (createOrder_decrementAll lines s))
  | Throw m => (Throw m, snd (createOrder_decrementAll lines s))
  end.
Proof.
  unfold createOrder_tx, bind.
  destruct (createOrder_decrementAll lines s) as [[[]|m] s1]; reflexivity.
Qed.

(** A failing [createOrder] leaves the store as it found it. *)
Lemma createOrder_Throw userId items s m s' :
  createOrder userId items s = (Throw m, s') → s' = s.
Proof.
  destruct items as [|item rest]; [intros [= _ <-]; reflexivity|].
  rewrite createOrder_unfold by done.
  destruct (fst (createOrder_collect _ _ _ s)) as [acc|m']; [|congruence].
  unfold db_transaction.
  destruct (createOrder_tx _ _ _ s) as [[o|m'] s1]; congruence.
Qed.

(** What a successful [createOrder] has done. *)
Lemma createOrder_Ok userId items s order s' :
  createOrder userId items s = (Ok order, s') →
  ∃ lines,
    items ≠ []
    ∧ Forall (λ item, item_invalid item = false) items
    ∧ Forall2 (priced s) items lines
    ∧ (∀ id, books s' !! id
             = decrement (requested id (map item_pair items)) <$> books s !! id)
    ∧ users s' = users s
    ∧ orders s' = <[fresh (dom (orders s)) :=
                      pending_order userId (sum_subtotals price_zero (map in_subtotal lines))]>
                    (orders s)
    ∧ orderItems s'
      = (orderItems s ++ map (row_of_input (fresh (dom (orders s)))) lines)%list
    ∧ order = transformOrder (fresh (dom (orders s)))
                (pending_order userId (sum_subtotals price_zero (map in_subtotal lines)))
                (orderItems s')
    ∧ (stock_nonneg s → stock_nonneg s')
    ∧ is_Some (users s !! userId).
Proof.
  intros H. assert (Hne : items ≠ []) by (destruct items; [discriminate|done]).
  rewrite createOrder_unfold in H by assumption.
  destruct (fst (createOrder_collect _ _ _ s)) as [acc|m] eqn:Hc; [|discriminate].
  apply createOrder_collect_Ok in Hc as (lines & Hl & Hv & ->).
  cbn [fst snd] in H. rewrite app_nil_l in H.
  unfold db_transaction in H. rewrite createOrder_tx_unfold in H.
  pose proof (createOrder_decrementAll_frame lines s) as (Hu & Ho & Hi).
  pose proof (createOrder_decrementAll_nonneg lines s) as Hnn.
  pose proof (createOrder_decrementAll_effect lines s) as Heff.
  destruct (createOrder_decrementAll lines s) as [[[]|m] s1];
    cbn [fst snd] in *; [|discriminate].
  destruct (Heff eq_refl) as [_ Hbooks]. clear Heff.
  unfold order_create in H. cbn [pending_order order_userId] in H. rewrite Hu in H.
  destruct (users s !! userId) as [u|] eqn:Huser; [|discriminate].
  cbn [fst snd orders orderItems set_orders set_orderItems] in H.
  rewrite Ho, Hi in H. injection H as <- <-.
  exists lines. rewrite <- (priced_pairs s _ _ Hl).
  cbn [books users orders orderItems set_orders set_orderItems].
  rewrite Ho, Hi. done.
Qed.

Lemma items_of_order_new orderId (rows : list (OrderItemRow price))
    (lines : list (OrderItemInput price)) :
  (∀ r, r ∈ rows → oi_orderId r ≠ orderId) →
  items_of_order orderId (rows ++ map (row_of_input orderId) lines)
  = map (row_of_input orderId) lines.
Proof.
  unfold items_of_order. induction rows as [|r rows IH]; intros Hr; simpl.
  - induction lines as [|l lines IHl]; simpl; [reflexivity|].
    rewrite bool_decide_eq_true_2 by reflexivity. now rewrite IHl.
  - rewrite bool_decide_eq_false_2 by (apply Hr; left).
    apply IH. intros r' Hr'. apply Hr. now right.
Qed.

Lemma fresh_order_id s : orders s !! fresh (dom (orders s)) = None.
Proof. apply not_elem_of_dom, is_fresh. Qed.

Lemma items_of_order_fresh s (lines : list (OrderItemInput price)) :
  items_reference_orders s →
  items_of_order (fresh (dom (orders s)))
    (orderItems s ++ map (row_of_input (fresh (dom (orders s)))) lines)
  = map (row_of_input (fresh (dom (orders s)))) lines.
Proof.
  intros Href. apply items_of_order_new. intros r Hr Heq.
  destruct (Href r Hr) as [o Ho]. rewrite Heq, fresh_order_id in Ho. discriminate.
Qed.

(** C4.  When the order is placed for a stored user, every item is valid and
    known and the catalog holds, for every book, at least the total quantity
    the order asks of it, [createOrder] succeeds: every book's stock goes
    down by exactly that quantity and nothing else of the book changes; a new
    PENDING order of the user is stored whose lines are the items in order,
    each with the book's current price as unit price and unit price times
    quantity as subtotal; its total is the subtotals added up in order. *)
Theorem createOrder_sufficient_stock userId items s :
  is_Some (users s !! userId) →
  items ≠ [] →
  (∀ item, item ∈ items → item_bookId item ≠ EmptyString ∧ 0 < item_quantity item) →
  (∀ item, item ∈ items → is_Some (books s !! item_bookId item)) →
  (∀ id b, books s !! id = Some b →
           requested id (map item_pair items) ≤ book_stockQuantity b) →
  items_reference_orders s →
  ∃ order s',
    createOrder userId items s = (Ok order, s')
    ∧ (∀ id, books s' !! id
             = decrement (requested id (map item_pair items)) <$> books s !! id)
    ∧ (∀ id, stock s' id = (λ n, n - requested id (map item_pair items)) <$> stock s id)
    ∧ orders s !! Order_id order = None
    ∧ orders s' = <[Order_id order := pending_order userId (Order_totalPrice order)]>
                    (orders s)
    ∧ orderItems s' = (orderItems s ++ Order_orderItems order)%list
    ∧ Forall2 (placed_line s (Order_id order)) items (Order_orderItems order)
    ∧ Forall (λ r, oi_subtotal r = price_times (oi_unitPrice r) (oi_quantity r))
        (Order_orderItems order)
    ∧ Order_totalPrice order
      = sum_subtotals price_zero (map oi_subtotal (Order_orderItems order))
    ∧ Order_userId order = userId
    ∧ Order_orderStatus order = PENDING
    ∧ Order_paymentStatus order = PaymentStatus_PENDING
    ∧ users s' = users s.
Proof.
  intros [u Huser] Hne Hvalid Hknown Hstock Href.
  assert (Hpos : ∀ p, p ∈ map item_pair items → 0 ≤ snd p).
  { intros p Hp. apply list_elem_of_fmap in Hp as (item & -> & Hin).
    simpl. destruct (Hvalid item Hin). lia. }
  assert (Hv : Forall (λ item, item_invalid item = false) items).
  { apply Forall_forall. intros item Hin. apply item_invalid_false, Hvalid.
    exact Hin. }
  assert (Hper : ∀ item, item ∈ items →
            ∃ b, books s !! item_bookId item = Some b
                 ∧ item_quantity item ≤ book_stockQuantity b).
  { intros item Hin. destruct (Hknown item Hin) as [b Hb]. exists b. split; [done|].
    etransitivity; [|exact (Hstock _ _ Hb)].
    apply requested_elem; [assumption|].
    apply list_elem_of_fmap. exists item. split; [reflexivity|assumption]. }
  destruct (createOrder_collect_succeeds items [] price_zero s Hv Hper) as [acc Hacc].
  destruct (createOrder_collect_Ok _ _ _ _ _ Hacc) as (lines & Hl & _ & ->).
  pose proof (priced_pairs _ _ _ Hl) as Hpairs.
  assert (Hdec : fst (createOrder_decrementAll lines s) = Ok tt).
  { apply createOrder_decrementAll_succeeds.
    - intros l Hin. apply (Hpos (in_pair l)). rewrite <- Hpairs.
      apply list_elem_of_fmap. eauto.
    - intros l Hin.
      assert (Hp : in_pair l ∈ map item_pair items).
      { rewrite <- Hpairs. apply list_elem_of_fmap. eauto. }
      apply list_elem_of_fmap in Hp as (item & Heq & Hitem).
      injection Heq as -> _. now apply Hknown.
    - rewrite Hpairs. exact Hstock. }
  assert (Hrun : ∃ order s', createOrder userId items s = (Ok order, s')).
  { rewrite createOrder_unfold, Hacc by assumption. cbn [fst snd app].
    unfold db_transaction. rewrite createOrder_tx_unfold, Hdec.
    unfold order_create. cbn [pending_order order_userId].
    rewrite (proj1 (createOrder_decrementAll_frame lines s)), Huser. eauto. }
  destruct Hrun as (order & s' & Hrun). exists order, s'. split; [exact Hrun|].
  apply createOrder_Ok in Hrun
    as (lines' & _ & _ & Hl' & Hbooks & Husers & Horders & Hitems & -> & _).
  rewrite Hitems. unfold transformOrder; cbn [Order_id Order_userId Order_orderItems
    Order_totalPrice Order_orderStatus Order_paymentStatus pending_order
    order_userId order_totalPrice order_orderStatus order_paymentStatus].
  rewrite items_of_order_fresh by assumption.
  repeat split; try done.
  - intros id. unfold stock. rewrite Hbooks.
    destruct (books s !! id); reflexivity.
  - apply fresh_order_id.
  - clear -Hl'. induction Hl' as [|item l items lines (b & Hb & ->) _ IH]; simpl;
      constructor; [exists b; done | exact IH].
  - clear -Hl'. induction Hl' as [|item l items lines (b & Hb & ->) _ IH]; simpl;
      constructor; [reflexivity | exact IH].
  - f_equal. rewrite map_map. reflexivity.
Qed.

(** C1.  An item that asks for more than the catalog holds makes
    [createOrder] fail with the store, stock and orders alike, as it was;
    and however [createOrder] fails, also on a decrement inside the
    transaction after earlier lines were already decremented, all the
    transaction wrote is undone. *)
Theorem createOrder_insufficient_stock_no_effect userId items s item b :
  item ∈ items →
  books s !! item_bookId item = Some b →
  book_stockQuantity b < item_quantity item →
  (∃ m, createOrder userId items s = (Throw m, s))
  ∧ (∀ items' m s', createOrder userId items' s = (Throw m, s') → s' = s)
  ∧ (∀ lines total m s_mid,
       createOrder_tx userId lines total s = (Throw m, s_mid) →
       db_transaction (createOrder_tx userId lines total) s = (Throw m, s)).
Proof.
  intros Hin Hb Hlt. split; [|split].
  - assert (Hne : items ≠ []) by (intros ->; inversion Hin).
    rewrite createOrder_unfold by assumption.
    destruct (createOrder_collect_insufficient items [] price_zero s item b Hin Hb Hlt)
      as [m Hm].
    rewrite Hm. eauto.
  - intros items' m s'. apply createOrder_Throw.
  - intros lines total m s_mid Htx. unfold db_transaction. now rewrite Htx.
Qed.

(** C5, as the code has it.  When the first loop meets an item whose book
    holds less than asked, [createOrder] throws the message that spells out
    the book's title, the stock read and the quantity asked; when the first
    loop passed on a non-empty list and the order of a stored user still
    fails, it throws the fixed message [STOCK_VALIDATION_FAILED], the same
    for every item and quantity.  The one other failure after the first loop
    is the client's own, for a user that is not stored. *)
Theorem createOrder_stock_failure_messages userId items s :
  (∀ before item after b,
     items = (before ++ item :: after)%list →
     (∃ acc, fst (createOrder_collect before [] price_zero s) = Ok acc) →
     item_invalid item = false →
     books s !! item_bookId item = Some b →
     book_stockQuantity b < item_quantity item →
     createOrder userId items s
     = (Throw (insufficient_stock_message (book_title b) (book_stockQuantity b)
                 (item_quantity item)), s))
  ∧ (∀ acc m,
       items ≠ [] →
       fst (createOrder_collect items [] price_zero s) = Ok acc →
       fst (createOrder userId items s) = Throw m →
       (is_Some (users s !! userId) → m = STOCK_VALIDATION_FAILED)
       ∧ (m = STOCK_VALIDATION_FAILED
          ∨ (users s !! userId = None ∧ m = FOREIGN_KEY_FAILED
             ∧ fst (createOrder_decrementAll (fst acc) s) = Ok tt))).
Proof.
  split.
  - intros before item after b -> [acc Hacc] Hinv Hb Hlt.
    rewrite createOrder_unfold by (destruct before; discriminate).
    rewrite createOrder_collect_app, Hacc, createOrder_collect_cons,
      createOrder_item_spec, Hinv, Hb.
    apply Z.leb_gt in Hlt. rewrite Hlt. reflexivity.
  - intros acc m Hne Hacc.
    rewrite createOrder_unfold, Hacc by assumption.
    unfold db_transaction. rewrite createOrder_tx_unfold.
    pose proof (createOrder_decrementAll_throws (fst acc) s) as Hthrow.
    destruct (fst (createOrder_decrementAll (fst acc) s)) as [[]|m'].
    + unfold order_create. cbn [pending_order order_userId].
      rewrite (proj1 (createOrder_decrementAll_frame (fst acc) s)).
      destruct (users s !! userId) as [u|]; [discriminate|].
      cbn [fst]. intros [= <-]. split; [intros [u Hu]; discriminate|].
      right. done.
    + cbn [fst]. intros [= <-]. rewrite (Hthrow m' eq_refl). split; [done|now left].
Qed.

(** ** cancelOrder *)

Lemma cancelOrder_restore_cons (item : OrderItemRow price) rest s :
  cancelOrder_restore (item :: rest) s =
  match books s !! oi_bookId item with
  | None => (Throw RECORD_NOT_FOUND, s)
  | Some b =>
      cancelOrder_restore rest
        (set_books (insert (oi_bookId item) (increment (oi_quantity item) b)) s)
  end.
Proof.
  simpl. unfold bind. rewrite book_update_increment.
  destruct (books s !! oi_bookId item) as [b|]; reflexivity.
Qed.

Lemma cancelOrder_restore_frame (rows : list (OrderItemRow price)) s :
  users (snd (cancelOrder_restore rows s)) = users s
  ∧ orders (snd (cancelOrder_restore rows s)) = orders s
  ∧ orderItems (snd (cancelOrder_restore rows s)) = orderItems s.
Proof.
  revert s. induction rows as [|item rest IH]; intros s; [easy|].
  rewrite cancelOrder_restore_cons.
  destruct (books s !! oi_bookId item) as [b|]; [|easy].
  exact (IH (set_books _ s)).
Qed.

Lemma cancelOrder_restore_effect (rows : list (OrderItemRow price)) s :
  fst (cancelOrder_restore rows s) = Ok tt →
  ∀ id, books (snd (cancelOrder_restore rows s)) !! id
        = increment (requested id (map oi_pair rows)) <$> books s !! id.
Proof.
  revert s. induction rows as [|item rest IH]; intros s.
  - intros _ id; simpl. destruct (books s !! id); simpl; [|reflexivity].
    now rewrite increment_0.
  - rewrite cancelOrder_restore_cons.
    destruct (books s !! oi_bookId item) as [b|] eqn:Hb; [|discriminate].
    intros Hok id. rewrite (IH _ Hok). simpl.
    destruct (decide (oi_bookId item = id)) as [<-|n].
    + rewrite lookup_insert_eq, Hb. simpl.
      rewrite bool_decide_eq_true_2 by reflexivity.
      now rewrite increment_increment.
    + rewrite lookup_insert_ne by assumption.
      rewrite bool_decide_eq_false_2 by assumption.
      reflexivity.
Qed.

Lemma cancelOrder_restore_succeeds (rows : list (OrderItemRow price)) s :
  (∀ r, r ∈ rows → is_Some (books s !! oi_bookId r)) →
  fst (cancelOrder_restore rows s) = Ok tt.
Proof.
  revert s. induction rows as [|item rest IH]; intros s Hex; [reflexivity|].
  rewrite cancelOrder_restore_cons.
  destruct (Hex item) as [b Hb]; [left|]. rewrite Hb.
  apply IH. intros r Hr. simpl.
  destruct (decide (oi_bookId item = oi_bookId r)) as [e|n].
  - rewrite <- e, lookup_insert_eq. eauto.
  - rewrite lookup_insert_ne by assumption. apply Hex. now right.
Qed.

Lemma cancelOrder_unfold orderId userId s :
  cancelOrder orderId userId s =
  match orders s !! orderId with
  | None => (Throw "Order not found", s)
  | Some o =>
      if negb (bool_decide (order_userId o = userId))
      then (Throw "You can only cancel your own orders", s)
      else if negb (bool_decide (order_orderStatus o = PENDING))
      then (Throw "Only pending orders can be cancelled", s)
      else db_transaction (cancelOrder_tx orderId) s
  end.
Proof.
  unfold cancelOrder, bind, order_findUnique.
  destruct (orders s !! orderId) as [o|]; [|reflexivity].
  destruct (negb (bool_decide (order_userId o = userId))); [reflexivity|].
  destruct (negb (bool_decide (order_orderStatus o = PENDING))); reflexivity.
Qed.

Lemma cancelOrder_tx_unfold orderId s :
  cancelOrder_tx orderId s =
  match fst (cancelOrder_restore (items_of_order orderId (orderItems s)) s) with
  | Ok _ =>
      order_update_status orderId CANCELLED
        (snd (cancelOrder_restore (items_of_order orderId (orderItems s)) s))
  | Throw m =>
      (Throw m, snd (cancelOrder_restore (items_of_order orderId (orderItems s)) s))
  end.
Proof.
  unfold cancelOrder_tx, bind, orderItem_findMany.
  destruct (cancelOrder_restore _ s) as [[[]|m] s1]; reflexivity.
Qed.

(** A failing [cancelOrder] leaves the store as it found it. *)
Lemma cancelOrder_Throw orderId userId s m s' :
  cancelOrder orderId userId s = (Throw m, s') → s' = s.
Proof.
  rewrite cancelOrder_unfold.
  destruct (orders s !! orderId) as [o|]; [|congruence].
  destruct (negb _); [congruence|]. destruct (negb _); [congruence|].
  unfold db_transaction.
  destruct (cancelOrder_tx orderId s) as [[o'|m'] s1]; congruence.
Qed.

(** C6.  For a PENDING order cancelled by its owner, whose lines refer to
    books of the catalog: [cancelOrder] succeeds, every book's stock goes up
    by the quantities of the order's lines for it, and the order becomes
    CANCELLED with nothing else changed; a second [cancelOrder] then fails
    with "Only pending orders can be cancelled" and leaves the store alone.
    When the order had just been placed by [createOrder], the catalog is
    back to what it was before the order. *)
Theorem cancelOrder_pending_restores orderId userId s o :
  orders s !! orderId = Some o →
  order_userId o = userId →
  order_orderStatus o = PENDING →
  (∀ r, r ∈ items_of_order orderId (orderItems s) → is_Some (books s !! oi_bookId r)) →
  ∃ order s',
    cancelOrder orderId userId s = (Ok order, s')
    ∧ (∀ id, books s' !! id
             = increment (requested id (map oi_pair (items_of_order orderId (orderItems s))))
               <$> books s !! id)
    ∧ (∀ id, stock s' id
             = (λ n, n + requested id (map oi_pair (items_of_order orderId (orderItems s))))
               <$> stock s id)
    ∧ orders s' = <[orderId := set_orderStatus CANCELLED o]> (orders s)
    ∧ Order_id order = orderId
    ∧ Order_orderStatus order = CANCELLED
    ∧ orderItems s' = orderItems s
    ∧ users s' = users s
    ∧ cancelOrder orderId userId s' = (Throw "Only pending orders can be cancelled", s')
    ∧ (∀ items s0 order0,
         items_reference_orders s0 →
         createOrder userId items s0 = (Ok order0, s) →
         Order_id order0 = orderId →
         books s' = books s0).
Proof.
  intros Ho Hu Hp Hex.
  pose proof (cancelOrder_restore_succeeds _ s Hex) as Hok.
  pose proof (cancelOrder_restore_effect _ s Hok) as Heff.
  pose proof (cancelOrder_restore_frame (items_of_order orderId (orderItems s)) s)
    as (Hfu & Hfo & Hfi).
  assert (Hrun : cancelOrder orderId userId s
                 = order_update_status orderId CANCELLED
                     (snd (cancelOrder_restore (items_of_order orderId (orderItems s)) s))).
  { rewrite cancelOrder_unfold, Ho, Hu, Hp.
    rewrite !bool_decide_eq_true_2 by reflexivity. cbn [negb].
    unfold db_transaction. rewrite cancelOrder_tx_unfold, Hok.
    unfold order_update_status. rewrite Hfo, Ho. reflexivity. }
  unfold order_update_status in Hrun. rewrite Hfo, Ho in Hrun.
  eexists _, _. split; [exact Hrun|].
  cbn [books users orders orderItems set_orders transformOrder Order_id Order_orderStatus
       set_orderStatus order_orderStatus].
  rewrite Hfo, Hfi, Hfu.
  split; [exact Heff|]. split.
  { intros id. unfold stock. rewrite Heff. destruct (books s !! id); reflexivity. }
  do 5 (split; [reflexivity|]). split.
  - rewrite cancelOrder_unfold.
    cbn [orders set_orders]. rewrite Hfo, lookup_insert_eq.
    cbn [set_orderStatus order_userId order_orderStatus]. rewrite Hu.
    rewrite bool_decide_eq_true_2 by reflexivity.
    rewrite bool_decide_eq_false_2 by discriminate. reflexivity.
  - intros items s0 order0 Href Hplace Hid.
    apply createOrder_Ok in Hplace
      as (lines & _ & _ & Hl & Hbooks & _ & _ & Hitems & -> & _).
    cbn [transformOrder Order_id] in Hid.
    apply map_eq. intros id. rewrite Heff, Hbooks, Hitems, Hid.
    rewrite <- Hid at 1 2. rewrite items_of_order_fresh by assumption.
    rewrite map_map. change (λ x, oi_pair (row_of_input (fresh (dom (orders s0))) x))
      with (@in_pair price). rewrite (priced_pairs _ _ _ Hl).
    destruct (books s0 !! id) as [b|]; cbn; [|reflexivity].
    now rewrite increment_decrement.
Qed.

(** ** updateOrderStatus *)

(** C8.  [updateOrderStatus] throws "Order not found" for an id that is not
    stored; for a stored order it succeeds for every status, replaces the
    order's status and nothing else: the catalog with all stock counts, the
    line items, the users and the other orders are as before, and so are the
    order's owner, total and payment status. *)
Theorem updateOrderStatus_only_status id status s :
  (orders s !! id = None →
   updateOrderStatus id status s = (Throw "Order not found", s))
  ∧ (∀ o, orders s !! id = Some o →
       ∃ order,
         updateOrderStatus id status s
         = (Ok order, set_orders (insert id (set_orderStatus status o)) s)
         ∧ Order_id order = id
         ∧ Order_orderStatus order = status
         ∧ Order_userId order = order_userId o
         ∧ Order_totalPrice order = order_totalPrice o
         ∧ Order_paymentStatus order = order_paymentStatus o
         ∧ Order_orderItems order = items_of_order id (orderItems s))
  ∧ books (snd (updateOrderStatus id status s)) = books s
  ∧ (∀ id', stock (snd (updateOrderStatus id status s)) id' = stock s id')
  ∧ orderItems (snd (updateOrderStatus id status s)) = orderItems s
  ∧ users (snd (updateOrderStatus id status s)) = users s
  ∧ (∀ id', id' ≠ id →
       orders (snd (updateOrderStatus id status s)) !! id' = orders s !! id')
  ∧ (∀ o', orders (snd (updateOrderStatus id status s)) !! id = Some o' →
       ∃ o, orders s !! id = Some o
            ∧ order_orderStatus o' = status
            ∧ order_userId o' = order_userId o
            ∧ order_totalPrice o' = order_totalPrice o
            ∧ order_paymentStatus o' = order_paymentStatus o).
Proof.
  unfold updateOrderStatus, bind, order_findUnique, order_update_status, stock.
  destruct (orders s !! id) as [o|] eqn:Ho; cbn [throw]; rewrite ?Ho; cbn.
  - split; [discriminate|]. split.
    { intros o0 [= <-]. eexists. split; [reflexivity|]. done. }
    do 4 (split; [done|]). split.
    + intros id' Hne. now rewrite lookup_insert_ne.
    + intros o'. rewrite lookup_insert_eq. intros [= <-]. exists o. done.
  - split; [done|]. split; [discriminate|]. do 5 (split; [done|]).
    intros o'. rewrite Ho. discriminate.
Qed.

(** ** deleteBook *)

Lemma deleteBook_unfold id s :
  deleteBook id s =
  match books s !! id with
  | None => (Throw "Book not found", s)
  | Some _ =>
      if 0 <? Z.of_nat (length (List.filter (λ r, bool_decide (oi_bookId r = id))
                                  (orderItems s)))
      then (Throw "Cannot delete book that is referenced in orders", s)
      else (Ok tt, set_books (delete id) s)
  end.
Proof.
  unfold deleteBook, bind, book_findUnique, orderItem_count, book_delete, throw.
  destruct (books s !! id) as [b|] eqn:Hb; [|reflexivity].
  destruct (0 <? _); [reflexivity|]. now rewrite Hb.
Qed.

Lemma count_positive {A} (f : A → bool) (l : list A) x :
  x ∈ l → f x = true → 0 < Z.of_nat (length (List.filter f l)).
Proof.
  induction l as [|y l IH]; intros Hin Hf; [inversion Hin|]. simpl.
  apply elem_of_cons in Hin as [<-|Hin].
  - rewrite Hf. simpl. lia.
  - destruct (f y); simpl; [lia | now apply IH].
Qed.

Lemma count_zero {A} (f : A → bool) (l : list A) x :
  length (List.filter f l) = O → x ∈ l → f x = false.
Proof.
  induction l as [|y l IH]; intros Hlen Hin; [inversion Hin|]. simpl in Hlen.
  apply elem_of_cons in Hin as [<-|Hin].
  - destruct (f x); [discriminate|reflexivity].
  - destruct (f y); [discriminate|now apply IH].
Qed.

Lemma deleteBook_referenced id s b r :
  books s !! id = Some b → r ∈ orderItems s → oi_bookId r = id →
  deleteBook id s = (Throw "Cannot delete book that is referenced in orders", s).
Proof.
  intros Hb Hr Hid. rewrite deleteBook_unfold, Hb.
  pose proof (count_positive (λ r, bool_decide (oi_bookId r = id)) _ r Hr) as Hc.
  rewrite (proj2 (Z.ltb_lt _ _)); [reflexivity|].
  apply Hc. now apply bool_decide_eq_true_2.
Qed.

Lemma deleteBook_Ok id s s' :
  deleteBook id s = (Ok tt, s') →
  is_Some (books s !! id)
  ∧ (∀ r, r ∈ orderItems s → oi_bookId r ≠ id)
  ∧ s' = set_books (delete id) s.
Proof.
  rewrite deleteBook_unfold.
  destruct (books s !! id) as [b|]; [|discriminate].
  destruct (0 <? _) eqn:Hc; [discriminate|]. intros [= <-].
  split; [eauto|]. split; [|reflexivity].
  intros r Hr. apply Z.ltb_ge in Hc.
  assert (Hlen : length (List.filter (λ r, bool_decide (oi_bookId r = id)) (orderItems s))
                 = O) by lia.
  pose proof (count_zero _ _ r Hlen Hr) as Hf. now apply bool_decide_eq_false in Hf.
Qed.

Lemma deleteBook_Throw id s m s' : deleteBook id s = (Throw m, s') → s' = s.
Proof.
  rewrite deleteBook_unfold. destruct (books s !! id); [|congruence].
  destruct (0 <? _); congruence.
Qed.

(** ** decrementStock *)

Lemma decrementStock_unfold bookId quantity s :
  decrementStock bookId quantity s =
  match books s !! bookId with
  | None => (Throw "Book not found", s)
  | Some b =>
      if book_stockQuantity b <? quantity then (Throw "Insufficient stock", s)
      else (Ok tt, set_books (insert bookId (decrement quantity b)) s)
  end.
Proof.
  unfold decrementStock, bind, book_findUnique, throw, ret.
  destruct (books s !! bookId) as [b|] eqn:Hb; [|reflexivity].
  destruct (book_stockQuantity b <? quantity); [reflexivity|].
  now rewrite book_update_decrement, Hb.
Qed.

(** C2, as the code has it.  Run with no other request in between,
    [decrementStock] throws "Book not found" for a missing book, throws
    "Insufficient stock" when the stock is below the quantity, and otherwise
    takes exactly the quantity off the stock.  It does so in two client
    calls, a read and then a write: run alone the two steps give the result
    above, and the write step on its own takes the quantity off whatever
    stock it finds, without looking at it. *)
Theorem decrementStock_read_then_write bookId quantity s :
  (books s !! bookId = None →
   decrementStock bookId quantity s = (Throw "Book not found", s))
  ∧ (∀ b, books s !! bookId = Some b → book_stockQuantity b < quantity →
       decrementStock bookId quantity s = (Throw "Insufficient stock", s))
  ∧ (∀ b, books s !! bookId = Some b → quantity ≤ book_stockQuantity b →
       decrementStock bookId quantity s
       = (Ok tt, set_books (insert bookId (decrement quantity b)) s)
       ∧ stock (snd (decrementStock bookId quantity s)) bookId
         = Some (book_stockQuantity b - quantity))
  ∧ run_alone decrementStock_step 2 (decrementStock_call bookId quantity) s
    = (ds_at (decrementStock_call bookId quantity)
         (DsDone (fst (decrementStock bookId quantity s))),
       snd (decrementStock bookId quantity s))
  ∧ (∀ b, books s !! bookId = Some b →
       decrementStock_step (ds_at (decrementStock_call bookId quantity) DsWrite) s
       = (ds_at (decrementStock_call bookId quantity) (DsDone (Ok tt)),
          set_books (insert bookId (decrement quantity b)) s)).
Proof.
  rewrite decrementStock_unfold. split; [|split; [|split; [|split]]].
  - intros ->. reflexivity.
  - intros b -> Hlt. apply Z.ltb_lt in Hlt. now rewrite Hlt.
  - intros b Hb Hle. rewrite Hb. apply Z.ltb_ge in Hle. rewrite Hle.
    split; [reflexivity|]. unfold stock. cbn. now rewrite lookup_insert_eq.
  - cbn. unfold decrementStock_step, book_findUnique, ds_at; cbn.
    destruct (books s !! bookId) as [b|] eqn:Hb; cbn; [|reflexivity].
    destruct (book_stockQuantity b <? quantity); cbn; [reflexivity|].
    now rewrite book_update_decrement, Hb.
  - intros b Hb. unfold decrementStock_step, ds_at; cbn.
    now rewrite book_update_decrement, Hb.
Qed.

(** ** Looking a row up by a unique column *)

Lemma find_map_to_list_None {A} (f : string * A → bool) (m : gmap string A) :
  List.find f (map_to_list m) = None ↔ ∀ k v, m !! k = Some v → f (k, v) = false.
Proof.
  split.
  - intros Hnone k v Hkv. apply (find_none _ _ Hnone).
    apply list_elem_of_In, elem_of_map_to_list, Hkv.
  - intros Hall. destruct (List.find f (map_to_list m)) as [[k v]|] eqn:Hf; [|reflexivity].
    apply find_some in Hf as [Hin Htrue].
    apply list_elem_of_In, elem_of_map_to_list in Hin.
    rewrite (Hall k v Hin) in Htrue. discriminate.
Qed.

Lemma find_map_to_list_Some {A} (f : string * A → bool) (m : gmap string A) k v :
  List.find f (map_to_list m) = Some (k, v) → m !! k = Some v ∧ f (k, v) = true.
Proof.
  intros Hf. apply find_some in Hf as [Hin Htrue]. split; [|exact Htrue].
  now apply list_elem_of_In, elem_of_map_to_list in Hin.
Qed.

Lemma first_with_email_None email (us : gmap string User) :
  first_with_email email us = None
  ↔ ∀ id u, us !! id = Some u → user_email u ≠ email.
Proof.
  unfold first_with_email. rewrite find_map_to_list_None.
  split; intros H id u Hu; specialize (H id u Hu); cbn in *.
  - now apply bool_decide_eq_false in H.
  - now apply bool_decide_eq_false_2.
Qed.

Lemma first_with_email_Some email (us : gmap string User) id u :
  first_with_email email us = Some (id, u) → us !! id = Some u ∧ user_email u = email.
Proof.
  intros H. apply find_map_to_list_Some in H as [Hu He]. split; [exact Hu|].
  now apply bool_decide_eq_true in He.
Qed.

(** With e-mail addresses unique, the user found by e-mail is the user. *)
Lemma first_with_email_unique email (us : gmap string User) id u :
  (∀ id' u', us !! id' = Some u' → user_email u' = email → id' = id) →
  us !! id = Some u → user_email u = email →
  first_with_email email us = Some (id, u).
Proof.
  intros Huniq Hu He.
  destruct (first_with_email email us) as [[k v]|] eqn:Hf.
  - apply first_with_email_Some in Hf as [Hk Hv].
    rewrite (Huniq k v Hk Hv) in Hk |- *. congruence.
  - exfalso. exact (proj1 (first_with_email_None _ _) Hf id u Hu He).
Qed.

Lemma first_with_isbn_None isbn (bs : gmap string (Book price)) :
  first_with_isbn isbn bs = None
  ↔ ∀ id b, bs !! id = Some b → book_isbn b ≠ isbn.
Proof.
  unfold first_with_isbn. rewrite find_map_to_list_None.
  split; intros H id b Hb; specialize (H id b Hb); cbn in *.
  - now apply bool_decide_eq_false in H.
  - now apply bool_decide_eq_false_2.
Qed.

Lemma first_with_isbn_Some isbn (bs : gmap string (Book price)) id b :
  first_with_isbn isbn bs = Some (id, b) → bs !! id = Some b ∧ book_isbn b = isbn.
Proof.
  intros H. apply find_map_to_list_Some in H as [Hb Hi]. split; [exact Hb|].
  now apply bool_decide_eq_true in Hi.
Qed.

(** ** Registration *)

Lemma registerUser_unfold dto s :
  registerUser dto s =
  match first_with_email (cu_email dto) (users s) with
  | Some _ => (Throw "Email already registered", s)
  | None =>
      (Ok {| ar_token := generateToken (fresh (dom (users s))) (cu_email dto) CUSTOMER;
             ar_tokenType := "Bearer";
             ar_expiresIn := getTokenExpiresIn;
             ar_user := {| api_user_id := fresh (dom (users s));
                           api_user_name := cu_name dto;
                           api_user_email := cu_email dto;
                           api_user_role := CUSTOMER |} |},
       set_users (insert (fresh (dom (users s)))
                    {| user_name := cu_name dto; user_email := cu_email dto;
                       user_password := hashPassword (cu_password dto);
                       user_role := CUSTOMER |}) s)
  end.
Proof.
  unfold registerUser, bind, user_findUnique_email, user_create, throw, ret.
  destruct (first_with_email _ _); reflexivity.
Qed.

Lemma fresh_user_id s : users s !! fresh (dom (users s)) = None.
Proof. apply not_elem_of_dom, is_fresh. Qed.

(** What [registerUser] does to the rest of the store, and to the users. *)
Lemma registerUser_effect dto s :
  books (snd (registerUser dto s)) = books s
  ∧ orders (snd (registerUser dto s)) = orders s
  ∧ orderItems (snd (registerUser dto s)) = orderItems s
  ∧ (∀ id u, users (snd (registerUser dto s)) !! id = Some u →
       users s !! id = Some u ∨ (users s !! id = None ∧ user_role u = CUSTOMER))
  ∧ (∀ r, fst (registerUser dto s) = Ok r →
       api_user_role (ar_user r) = CUSTOMER
       ∧ users s !! api_user_id (ar_user r) = None
       ∧ ∃ u, users (snd (registerUser dto s)) !! api_user_id (ar_user r) = Some u
              ∧ user_role u = CUSTOMER).
Proof.
  rewrite registerUser_unfold.
  destruct (first_with_email _ _); cbn.
  - do 3 (split; [reflexivity|]). split; [|discriminate].
    intros id u Hu. now left.
  - do 3 (split; [reflexivity|]). split.
    + intros id u. destruct (decide (fresh (dom (users s)) = id)) as [<-|Hne].
      * rewrite lookup_insert_eq. intros [= <-]. right. split; [apply fresh_user_id|done].
      * rewrite lookup_insert_ne by assumption. now left.
    + intros r [= <-]. cbn. split; [reflexivity|]. split; [apply fresh_user_id|].
      rewrite lookup_insert_eq. eauto.
Qed.

(** The handler either answers 201 with what [registerUser] returned and
    leaves its store, or answers an error. *)
Lemma POST_api_register_cases body s :
  (∃ dto r, cu_name dto = rb_name body ∧ cu_password dto = rb_password body
            ∧ cu_email dto = toLowerCase_trim (rb_email body)
            ∧ registerUser dto s = (Ok r, snd (registerUser dto s))
            ∧ POST_api_register body s = (Json 201 r, snd (registerUser dto s)))
  ∨ (∃ status error message,
       POST_api_register body s = (ErrorJson status error message, s)).
Proof.
  unfold POST_api_register, bad_request.
  destruct (_ || _); [right; eauto|].
  destruct (negb _); [right; eauto|].
  destruct (_ <? 6); [right; eauto|].
  match goal with |- context [registerUser ?d s] => set (dto := d) end.
  pose proof (registerUser_unfold dto s) as Hr.
  destruct (first_with_email _ _).
  - right. rewrite Hr. unfold POST_api_register_catch.
    destruct (includes _ _); eauto.
  - left. exists dto. eexists. rewrite !Hr. cbn [snd]. repeat split; reflexivity.
Qed.

(** C10.  Whatever the body of a registration request holds, every user the
    store has afterwards was there before or is new with role CUSTOMER; an
    answer with a payload reports a CUSTOMER; properties of the body besides
    name, email and password (a [role], say) make no difference to the
    answer or the store.  So no request to this route adds an ADMIN.  And a
    request does create the user: with a name, an e-mail that passes the
    test and that no user has yet, and a password of at least 6 characters
    the answer is 201 and the store has gained exactly the user with that
    name, the e-mail in lower case and trimmed, the hash of the password and
    the role CUSTOMER, under an id that was free, whoever was registered
    before. *)
Theorem POST_api_register_creates_customer body s :
  (∀ id u, users (snd (POST_api_register body s)) !! id = Some u →
     users s !! id = Some u ∨ (users s !! id = None ∧ user_role u = CUSTOMER))
  ∧ (∀ status r, fst (POST_api_register body s) = Json status r →
       api_user_role (ar_user r) = CUSTOMER
       ∧ users s !! api_user_id (ar_user r) = None
       ∧ ∃ u, users (snd (POST_api_register body s)) !! api_user_id (ar_user r) = Some u
              ∧ user_role u = CUSTOMER)
  ∧ (∀ other,
       POST_api_register
         {| rb_name := rb_name body; rb_email := rb_email body;
            rb_password := rb_password body; rb_other := other |} s
       = POST_api_register body s)
  ∧ (∀ id u, users (snd (POST_api_register body s)) !! id = Some u →
       user_role u = ADMIN → users s !! id = Some u)
  ∧ (rb_name body ≠ EmptyString →
     rb_email body ≠ EmptyString →
     emailRegex_test (rb_email body) = true →
     6 ≤ Z.of_nat (js_length (rb_password body)) →
     (∀ id u, users s !! id = Some u →
        user_email u ≠ toLowerCase_trim (rb_email body)) →
     ∃ id,
       users s !! id = None
       ∧ POST_api_register body s
         = (Json 201
              {| ar_token := generateToken id (toLowerCase_trim (rb_email body)) CUSTOMER;
                 ar_tokenType := "Bearer";
                 ar_expiresIn := getTokenExpiresIn;
                 ar_user := {| api_user_id := id; api_user_name := rb_name body;
                               api_user_email := toLowerCase_trim (rb_email body);
                               api_user_role := CUSTOMER |} |},
            set_users (insert id {| user_name := rb_name body;
                                    user_email := toLowerCase_trim (rb_email body);
                                    user_password := hashPassword (rb_password body);
                                    user_role := CUSTOMER |}) s)).
Proof.
  assert (Hnew : ∀ id u, users (snd (POST_api_register body s)) !! id = Some u →
     users s !! id = Some u ∨ (users s !! id = None ∧ user_role u = CUSTOMER)).
  { destruct (POST_api_register_cases body s)
      as [(dto & r & _ & _ & _ & _ & ->)|(st & e & m & ->)]; cbn [snd].
    - apply registerUser_effect.
    - intros id u Hu. now left. }
  split; [exact Hnew|]. split; [|split; [|split]].
  - destruct (POST_api_register_cases body s)
      as [(dto & r & _ & _ & _ & Hr & ->)|(st & e & m & ->)]; cbn [fst snd].
    + intros status r' [= _ <-].
      destruct (registerUser_effect dto s) as (_ & _ & _ & _ & H).
      apply H. now rewrite Hr.
    + discriminate.
  - intros other. reflexivity.
  - intros id u Hu Hadmin. destruct (Hnew id u Hu) as [H|[_ H]]; [exact H|].
    congruence.
  - intros Hname Hemail Hregex Hlen Hfree.
    assert (Hpassword : rb_password body ≠ EmptyString).
    { intros Hp. rewrite Hp in Hlen. cbn in Hlen. lia. }
    exists (fresh (dom (users s))). split; [apply fresh_user_id|].
    unfold POST_api_register.
    rewrite !bool_decide_eq_false_2 by assumption. cbn [orb].
    rewrite Hregex. cbn [negb].
    rewrite (proj2 (Z.ltb_ge _ _)) by exact Hlen.
    rewrite registerUser_unfold. cbn [cu_name cu_email cu_password].
    now rewrite (proj2 (first_with_email_None _ _) Hfree).
Qed.

(** ** What each request can do to the store *)

Lemma createBook_unfold (dto : CreateBookDTO price) s :
  createBook dto s =
  match first_with_isbn (cb_isbn dto) (books s) with
  | Some _ => (Throw "A book with this ISBN already exists", s)
  | None =>
      book_create
        {| book_title := cb_title dto; book_authors := cb_authors dto;
           book_genre := cb_genre dto; book_isbn := cb_isbn dto;
           book_price := cb_price dto; book_description := cb_description dto;
           book_stockQuantity := cb_stockQuantity dto;
           book_imageUrl := cb_imageUrl dto |} s
  end.
Proof.
  unfold createBook, bind, book_findUnique_isbn, throw.
  destruct (first_with_isbn _ _); reflexivity.
Qed.

Lemma POST_api_books_state user (body : PostBookBody price) s :
  snd (POST_api_books user body s) = s
  ∨ ∃ data, 0 ≤ book_stockQuantity data
            ∧ snd (POST_api_books user body s)
              = set_books (insert (fresh (dom (books s))) data) s.
Proof.
  unfold POST_api_books, unauthorized, forbidden, bad_request.
  destruct user as [user|]; [|now left].
  destruct (requireAdmin user); [|now left].
  destruct (pb_authors body); [|now left].
  destruct (pb_price body); [|now left].
  destruct (pb_stockQuantity body) as [q|]; [|now left].
  destruct (_ || _); [now left|]. cbn [cb_price cb_stockQuantity].
  destruct (price_negative _); [now left|].
  destruct (q <? 0) eqn:Hq; [now left|].
  rewrite createBook_unfold. cbn [cb_isbn].
  destruct (first_with_isbn _ _); [now left|].
  right. unfold book_create. cbn. eexists. split; [|reflexivity].
  cbn. now apply Z.ltb_ge.
Qed.

Lemma updateBook_state id (dto : UpdateBookDTO price) s :
  snd (updateBook id dto s) = s
  ∨ ∃ b, books s !! id = Some b
         ∧ snd (updateBook id dto s) = set_books (insert id (updateData dto b)) s.
Proof.
  unfold updateBook, bind, book_findUnique, book_findUnique_isbn, book_update, throw, ret.
  destruct (books s !! id) as [b|] eqn:Hb; [|now left].
  destruct (isbn_changes dto b) as [i|]; cbn.
  - destruct (bool_decide _); cbn; [now left|]. rewrite Hb.
    destruct (isbn_taken _ _ _); [now left|]. right. eauto.
  - rewrite Hb. destruct (isbn_taken _ _ _); [now left|]. right. eauto.
Qed.

Lemma PUT_api_books_id_state user id (body : PutBookBody price) s :
  snd (PUT_api_books_id user id body s) = s
  ∨ ∃ b, books s !! id = Some b
         ∧ (∀ q, ub_stockQuantity (put_fields body) = Some q → 0 ≤ q)
         ∧ snd (PUT_api_books_id user id body s)
           = set_books (insert id (updateData (put_fields body) b)) s.
Proof.
  unfold PUT_api_books_id, unauthorized, forbidden, bad_request.
  destruct user as [user|]; [|now left].
  destruct (requireAdmin user); [|now left].
  destruct (body_has_no_keys body); [now left|].
  destruct (match ub_price _ with Some _ => _ | None => _ end); [now left|].
  destruct (match ub_stockQuantity _ with Some _ => _ | None => _ end) eqn:Hq;
    [now left|].
  destruct (updateBook_state id (put_fields body) s) as [Hs|(b & Hb & Hs)].
  - left. destruct (updateBook id (put_fields body) s) as [[o|m] s1]; exact Hs.
  - right. exists b. split; [exact Hb|]. split.
    + intros q Hsome. rewrite Hsome in Hq. now apply Z.ltb_ge.
    + destruct (updateBook id (put_fields body) s) as [[o|m] s1]; exact Hs.
Qed.

Lemma DELETE_api_books_id_state user id s :
  snd (@DELETE_api_books_id price user id s) = s
  ∨ (∀ r, r ∈ orderItems s → oi_bookId r ≠ id)
    ∧ snd (@DELETE_api_books_id price user id s) = set_books (delete id) s.
Proof.
  unfold DELETE_api_books_id, unauthorized, forbidden.
  destruct user as [user|]; [|now left].
  destruct (requireAdmin user); [|now left].
  destruct (deleteBook id s) as [[[]|m] s1] eqn:Hd; cbn.
  - right. apply deleteBook_Ok in Hd as (_ & Hr & ->). done.
  - left. now apply deleteBook_Throw in Hd.
Qed.

Lemma POST_api_orders_state user items s :
  snd (POST_api_orders user items s) = s
  ∨ ∃ userId order,
      createOrder userId items s = (Ok order, snd (POST_api_orders user items s)).
Proof.
  unfold POST_api_orders, unauthorized, bad_request.
  destruct user as [user|]; [|now left].
  destruct items as [|item rest]; [now left|].
  destruct (existsb _ _); [now left|].
  destruct (createOrder (au_userId user) (item :: rest) s) as [[o|m] s1] eqn:Hc; cbn.
  - right. eauto.
  - left. now apply createOrder_Throw in Hc.
Qed.

Lemma updateOrderStatus_unfold id status s :
  updateOrderStatus id status s =
  match orders s !! id with
  | None => (Throw "Order not found", s)
  | Some o =>
      (Ok (transformOrder id (set_orderStatus status o) (orderItems s)),
       set_orders (insert id (set_orderStatus status o)) s)
  end.
Proof.
  unfold updateOrderStatus, bind, order_findUnique, order_update_status, throw.
  destruct (orders s !! id) as [o|] eqn:Ho; [|reflexivity]. now rewrite Ho.
Qed.

Lemma PUT_api_orders_id_state user id status s :
  snd (@PUT_api_orders_id price user id status s) = s
  ∨ ∃ o st, orders s !! id = Some o
            ∧ snd (@PUT_api_orders_id price user id status s)
              = set_orders (insert id (set_orderStatus st o)) s.
Proof.
  unfold PUT_api_orders_id, unauthorized, forbidden, bad_request.
  destruct user as [user|]; [|now left].
  destruct (requireAdmin user); [|now left].
  destruct status as [| |status]; [now left|now left|].
  rewrite updateOrderStatus_unfold.
  destruct (orders s !! id) as [o|] eqn:Ho; [|now left].
  right. eauto.
Qed.

(** What a successful [cancelOrder] has done. *)
Lemma cancelOrder_Ok orderId userId s order s' :
  cancelOrder orderId userId s = (Ok order, s') →
  ∃ o, orders s !! orderId = Some o
       ∧ (∀ id, books s' !! id
                = increment (requested id (map oi_pair
                                             (items_of_order orderId (orderItems s))))
                  <$> books s !! id)
       ∧ orders s' = <[orderId := set_orderStatus CANCELLED o]> (orders s)
       ∧ orderItems s' = orderItems s
       ∧ users s' = users s.
Proof.
  rewrite cancelOrder_unfold.
  destruct (orders s !! orderId) as [o|] eqn:Ho; [|discriminate].
  destruct (negb _); [discriminate|]. destruct (negb _); [discriminate|].
  unfold db_transaction. rewrite cancelOrder_tx_unfold.
  pose proof (cancelOrder_restore_effect (items_of_order orderId (orderItems s)) s)
    as Heff.
  pose proof (cancelOrder_restore_frame (items_of_order orderId (orderItems s)) s)
    as (Hfu & Hfo & Hfi).
  destruct (cancelOrder_restore _ s) as [[[]|m] s1]; cbn [fst snd] in *; [|discriminate].
  unfold order_update_status. rewrite Hfo, Ho. intros [= _ <-].
  exists o. cbn. rewrite Hfo, Hfi, Hfu. split; [reflexivity|].
  split; [exact (Heff eq_refl)|]. done.
Qed.

(** ** The invariant of the store *)

Lemma db_inv_empty : db_inv (@db_empty price).
Proof.
  split.
  - intros id b Hb. cbn in Hb. now rewrite lookup_empty in Hb.
  - intros r Hr. inversion Hr.
  - intros r Hr. inversion Hr.
  - intros r Hr. inversion Hr.
Qed.

Lemma db_inv_frame s s' :
  books s' = books s → orders s' = orders s → orderItems s' = orderItems s →
  db_inv s → db_inv s'.
Proof.
  intros Hb Ho Hi [H1 H2 H3 H4]. split.
  - intros id b. rewrite Hb. apply H1.
  - intros r. rewrite Hi, Hb. apply H2.
  - intros r. rewrite Hi, Ho. apply H3.
  - intros r. rewrite Hi. apply H4.
Qed.

Lemma db_inv_insert_book s id b :
  0 ≤ book_stockQuantity b → db_inv s → db_inv (set_books (insert id b) s).
Proof.
  intros Hq [H1 H2 H3 H4]. split; [| |exact H3|exact H4].
  - intros id' b'. cbn. destruct (decide (id = id')) as [<-|Hne].
    + rewrite lookup_insert_eq. now intros [= <-].
    + rewrite lookup_insert_ne by assumption. apply H1.
  - intros r Hr. cbn. destruct (decide (id = oi_bookId r)) as [<-|Hne].
    + rewrite lookup_insert_eq. eauto.
    + rewrite lookup_insert_ne by assumption. now apply H2.
Qed.

Lemma db_inv_delete_book s id :
  (∀ r, r ∈ orderItems s → oi_bookId r ≠ id) →
  db_inv s → db_inv (set_books (delete id) s).
Proof.
  intros Hfree [H1 H2 H3 H4]. split; [| |exact H3|exact H4].
  - intros id' b'. cbn. intros Hb. apply lookup_delete_Some in Hb as [_ Hb]. eauto.
  - intros r Hr. cbn. rewrite lookup_delete_ne by (apply not_eq_sym, Hfree, Hr).
    now apply H2.
Qed.

Lemma db_inv_insert_order s id (o : OrderRow price) :
  db_inv s → db_inv (set_orders (insert id o) s).
Proof.
  intros [H1 H2 H3 H4]. split; [exact H1|exact H2| |exact H4].
  intros r Hr. cbn. destruct (decide (id = oi_orderId r)) as [<-|Hne].
  - rewrite lookup_insert_eq. eauto.
  - rewrite lookup_insert_ne by assumption. now apply H3.
Qed.

Lemma updateData_stock_nonneg (dto : UpdateBookDTO price) b :
  (∀ q, ub_stockQuantity dto = Some q → 0 ≤ q) →
  0 ≤ book_stockQuantity b →
  0 ≤ book_stockQuantity (updateData dto b).
Proof.
  intros Hq Hb. cbn. destruct (ub_stockQuantity dto) as [q|]; cbn; [|exact Hb].
  now apply Hq.
Qed.

Lemma priced_lines s items (lines : list (OrderItemInput price)) :
  Forall2 (priced s) items lines →
  Forall (λ item, item_invalid item = false) items →
  ∀ l, l ∈ lines → is_Some (books s !! in_bookId l) ∧ 0 < in_quantity l.
Proof.
  induction 1 as [|item l items lines (b & Hb & ->) _ IH]; intros Hv l' Hl'.
  - inversion Hl'.
  - inversion Hv as [|? ? Hv1 Hv2]; subst.
    apply elem_of_cons in Hl' as [->|Hl']; [|now apply IH].
    cbn. split; [eauto|]. now apply item_invalid_false in Hv1.
Qed.

Lemma createOrder_preserves_inv userId items s order s' :
  createOrder userId items s = (Ok order, s') → db_inv s → db_inv s'.
Proof.
  intros Hc [H1 H2 H3 H4].
  apply createOrder_Ok in Hc
    as (lines & _ & Hv & Hl & Hbooks & _ & Horders & Hitems & _ & Hnn).
  pose proof (priced_lines _ _ _ Hl Hv) as Hlines.
  assert (Hkeep : ∀ id, is_Some (books s !! id) → is_Some (books s' !! id)).
  { intros id [b Hb]. rewrite Hbooks, Hb. cbn. eauto. }
  split.
  - now apply Hnn.
  - intros r. rewrite Hitems. intros Hr. apply elem_of_app in Hr as [Hr|Hr].
    + now apply Hkeep, H2.
    + apply list_elem_of_fmap in Hr as (l & -> & Hin). cbn.
      now apply Hkeep, Hlines.
  - intros r. rewrite Hitems, Horders. intros Hr. apply elem_of_app in Hr as [Hr|Hr].
    + destruct (decide (fresh (dom (orders s)) = oi_orderId r)) as [<-|Hne].
      * rewrite lookup_insert_eq. eauto.
      * rewrite lookup_insert_ne by assumption. now apply H3.
    + apply list_elem_of_fmap in Hr as (l & -> & Hin). cbn.
      rewrite lookup_insert_eq. eauto.
  - intros r. rewrite Hitems. intros Hr. apply elem_of_app in Hr as [Hr|Hr].
    + now apply H4.
    + apply list_elem_of_fmap in Hr as (l & -> & Hin). cbn. now apply Hlines.
Qed.

Lemma items_of_order_elem orderId (rows : list (OrderItemRow price)) r :
  r ∈ items_of_order orderId rows → r ∈ rows.
Proof.
  unfold items_of_order. induction rows as [|r' rows IH]; cbn; [done|].
  destruct (bool_decide _).
  - intros Hr. apply elem_of_cons in Hr as [->|Hr]; [left|right; now apply IH].
  - intros Hr. right. now apply IH.
Qed.

Lemma cancelOrder_preserves_inv orderId userId s order s' :
  cancelOrder orderId userId s = (Ok order, s') → db_inv s → db_inv s'.
Proof.
  intros Hc [H1 H2 H3 H4].
  apply cancelOrder_Ok in Hc as (o & Ho & Hbooks & Horders & Hitems & _).
  assert (Hreq : ∀ id, 0 ≤ requested id
                          (map oi_pair (items_of_order orderId (orderItems s)))).
  { intros id. apply requested_nonneg. intros p Hp.
    apply list_elem_of_fmap in Hp as (r & -> & Hr). cbn.
    apply items_of_order_elem in Hr. specialize (H4 r Hr). lia. }
  split.
  - intros id b'. rewrite Hbooks.
    destruct (books s !! id) as [b|] eqn:Hb; cbn; [|discriminate].
    intros [= <-]. rewrite increment_stock. specialize (H1 _ _ Hb).
    specialize (Hreq id). lia.
  - intros r. rewrite Hitems. intros Hr. destruct (H2 r Hr) as [b Hb].
    rewrite Hbooks, Hb. cbn. eauto.
  - intros r. rewrite Hitems, Horders. intros Hr.
    destruct (decide (orderId = oi_orderId r)) as [<-|Hne].
    + rewrite lookup_insert_eq. eauto.
    + rewrite lookup_insert_ne by assumption. now apply H3.
  - intros r. rewrite Hitems. apply H4.
Qed.

(** Every request keeps the invariant. *)
Lemma handle_preserves_inv (r : Request price) s : db_inv s → db_inv (handle r s).
Proof.
  intros Hinv. destruct r as [body|user body|user id body|user id|user items
                              |user id status|orderId userId|bookId quantity];
    unfold handle.
  - destruct (POST_api_register_cases body s)
      as [(dto & r & _ & _ & _ & _ & ->)|(st & e & m & ->)]; cbn [snd]; [|exact Hinv].
    destruct (registerUser_effect dto s) as (Hb & Ho & Hi & _).
    now apply (db_inv_frame s).
  - destruct (POST_api_books_state user body s) as [->|(data & Hq & ->)];
      [exact Hinv|]. now apply db_inv_insert_book.
  - destruct (PUT_api_books_id_state user id body s) as [->|(b & Hb & Hq & ->)];
      [exact Hinv|].
    apply db_inv_insert_book; [|exact Hinv].
    apply updateData_stock_nonneg; [exact Hq|]. exact (inv_stock s Hinv _ _ Hb).
  - destruct (DELETE_api_books_id_state user id s) as [->|(Hfree & ->)];
      [exact Hinv|]. now apply db_inv_delete_book.
  - destruct (POST_api_orders_state user items s) as [->|(userId & order & Hc)];
      [exact Hinv|]. exact (createOrder_preserves_inv _ _ _ _ _ Hc Hinv).
  - destruct (PUT_api_orders_id_state user id status s) as [->|(o & st & _ & ->)];
      [exact Hinv|]. now apply db_inv_insert_order.
  - destruct (cancelOrder orderId userId s) as [[order|m] s'] eqn:Hc; cbn [snd].
    + exact (cancelOrder_preserves_inv _ _ _ _ _ Hc Hinv).
    + apply cancelOrder_Throw in Hc as ->. exact Hinv.
  - rewrite decrementStock_unfold.
    destruct (books s !! bookId) as [b|] eqn:Hb; [|exact Hinv].
    destruct (book_stockQuantity b <? quantity) eqn:Hlt; [exact Hinv|]. cbn [snd].
    apply db_inv_insert_book; [|exact Hinv].
    rewrite decrement_stock. apply Z.ltb_ge in Hlt.
    pose proof (inv_stock s Hinv _ _ Hb). lia.
Qed.

Lemma reachable_inv s : reachable s → db_inv s.
Proof.
  induction 1 as [|r s _ IH]; [apply db_inv_empty | now apply handle_preserves_inv].
Qed.

(** Requests that are neither ledger operations nor catalog writes leave the
    catalog alone. *)
Lemma handle_other_books (r : Request price) s :
  is_ledger_request r = false → is_catalog_request r = false →
  books (handle r s) = books s.
Proof.
  destruct r as [body|user body|user id body|user id|user items
                |user id status|orderId userId|bookId quantity];
    try discriminate; intros _ _; unfold handle.
  - destruct (POST_api_register_cases body s)
      as [(dto & r & _ & _ & _ & _ & ->)|(st & e & m & ->)]; cbn [snd]; [|reflexivity].
    apply registerUser_effect.
  - destruct (PUT_api_orders_id_state user id status s) as [->|(o & st & _ & ->)];
      reflexivity.
Qed.

(** C3, as the code has it.  In every state the API reaches by handling
    requests one after the other, no stock count is negative, and handling
    any further request keeps it so.  The catalog is written by the ledger
    operations (order placement, [decrementStock], cancellation) and by the
    book routes, which may set a stock count directly and refuse a negative
    one; every other request leaves the catalog as it is. *)
Theorem reachable_stock_nonneg s :
  reachable s →
  stock_nonneg s
  ∧ (∀ r : Request price, stock_nonneg (handle r s))
  ∧ (∀ r : Request price,
       is_ledger_request r = false → is_catalog_request r = false →
       books (handle r s) = books s).
Proof.
  intros Hr. apply reachable_inv in Hr. split; [apply Hr|]. split.
  - intros r. apply handle_preserves_inv, Hr.
  - intros r. apply handle_other_books.
Qed.

(** C9.  [deleteBook] on a book that some line item refers to throws and
    leaves the whole store, the book and the orders included, as it was; when
    it does delete, no line item referred to the book, and only that book is
    gone.  It keeps, and so does every request, the property that each
    stored line item refers to a book of the catalog: the property holds in
    every reachable state. *)
Theorem deleteBook_keeps_references id s :
  (∀ b r, books s !! id = Some b → r ∈ orderItems s → oi_bookId r = id →
     deleteBook id s = (Throw "Cannot delete book that is referenced in orders", s))
  ∧ (∀ s', deleteBook id s = (Ok tt, s') →
       (∀ r, r ∈ orderItems s → oi_bookId r ≠ id)
       ∧ books s' = delete id (books s)
       ∧ orders s' = orders s
       ∧ orderItems s' = orderItems s
       ∧ users s' = users s)
  ∧ (items_reference_books s → items_reference_books (snd (deleteBook id s)))
  ∧ (reachable s → items_reference_books s)
  ∧ (reachable s → ∀ r : Request price, items_reference_books (handle r s)).
Proof.
  split; [|split; [|split; [|split]]].
  - intros b r. apply deleteBook_referenced.
  - intros s' Hd. apply deleteBook_Ok in Hd as (_ & Hfree & ->). done.
  - intros Href. destruct (deleteBook id s) as [[[]|m] s'] eqn:Hd; cbn [snd].
    + apply deleteBook_Ok in Hd as (_ & Hfree & ->).
      intros r Hr. cbn. rewrite lookup_delete_ne by (apply not_eq_sym, Hfree, Hr).
      now apply Href.
    + now apply deleteBook_Throw in Hd as ->.
  - intros Hr. apply reachable_inv in Hr. apply Hr.
  - intros Hr r. apply reachable_inv in Hr.
    apply (inv_books _ (handle_preserves_inv r s Hr)).
Qed.

(** ** createOrder, step by step *)

Lemma run_alone_done (c : CreateOrderCall price) n s r :
  co_pc c = CoDone r → run_alone createOrder_step n c s = (c, s).
Proof.
  intros Hc. induction n as [|n IH]; [reflexivity|]. cbn.
  unfold createOrder_step. rewrite Hc. cbn. exact IH.
Qed.

Lemma co_at_co_at (c : CreateOrderCall price) pc pc' :
  co_at (co_at c pc) pc' = co_at c pc'.
Proof. reflexivity. Qed.

Lemma createOrder_step_item (c : CreateOrderCall price) item rest acc total s :
  createOrder_step (co_at c (CoLoop (item :: rest) acc total)) s =
  if item_invalid item then (co_at c (CoDone (Throw "Invalid order item")), s)
  else match books s !! item_bookId item with
       | None => (co_at c (CoDone (Throw (book_not_found_message (item_bookId item)))), s)
       | Some b => (co_at c (CoCheck item b rest acc total), s)
       end.
Proof.
  unfold createOrder_step. cbn [co_pc co_at].
  destruct (item_invalid item); [reflexivity|].
  unfold getBookById, book_findUnique.
  destruct (books s !! item_bookId item); reflexivity.
Qed.

Lemma createOrder_step_check (c : CreateOrderCall price) item b rest acc total s :
  createOrder_step (co_at c (CoCheck item b rest acc total)) s =
  match books s !! item_bookId item with
  | None => (co_at c (CoDone (Throw "Book not found")), s)
  | Some b' =>
      if item_quantity item <=? book_stockQuantity b'
      then (co_at c (CoLoop rest (acc ++ [snapshot b item])%list
                       (price_add total (in_subtotal (snapshot b item)))), s)
      else (co_at c (CoDone (Throw (insufficient_stock_message (book_title b)
                                      (book_stockQuantity b) (item_quantity item)))), s)
  end.
Proof.
  unfold createOrder_step. cbn [co_pc co_at].
  unfold checkStockAvailability, bind, book_findUnique, throw, ret.
  destruct (books s !! item_bookId item) as [b'|]; [|reflexivity].
  destruct (item_quantity item <=? book_stockQuantity b'); reflexivity.
Qed.

Lemma createOrder_step_tx (c : CreateOrderCall price) lines total s :
  createOrder_step (co_at c (CoLoop [] lines total)) s =
  (co_at c (CoDone (fst (db_transaction (createOrder_tx (co_userId c) lines total) s))),
   snd (db_transaction (createOrder_tx (co_userId c) lines total) s)).
Proof. reflexivity. Qed.

Lemma createOrder_step_done (c : CreateOrderCall price) r s :
  co_pc c = CoDone r → createOrder_step c s = (c, s).
Proof. intros Hc. unfold createOrder_step. now rewrite Hc. Qed.

Lemma run_alone_S {P} (step : P → DB price → P * DB price) n p s :
  run_alone step (S n) p s = run_alone step n (fst (step p s)) (snd (step p s)).
Proof. reflexivity. Qed.

Lemma createOrder_run_loop (c : CreateOrderCall price) items acc total s :
  run_alone createOrder_step (2 * length items + 1) (co_at c (CoLoop items acc total)) s
  = match fst (createOrder_collect items acc total s) with
    | Ok acc' =>
        (co_at c (CoDone (fst (db_transaction
                                 (createOrder_tx (co_userId c) (fst acc') (snd acc')) s))),
         snd (db_transaction (createOrder_tx (co_userId c) (fst acc') (snd acc')) s))
    | Throw m => (co_at c (CoDone (Throw m)), s)
    end.
Proof.
  revert acc total. induction items as [|item rest IH]; intros acc total.
  - reflexivity.
  - replace (2 * length (item :: rest) + 1)%nat
      with (S (S (2 * length rest + 1))) by (cbn [length]; lia).
    rewrite createOrder_collect_cons, createOrder_item_spec.
    rewrite run_alone_S, createOrder_step_item.
    destruct (item_invalid item).
    { cbn [fst snd]. now erewrite run_alone_done by reflexivity. }
    destruct (books s !! item_bookId item) as [b|] eqn:Hb; cbn [fst snd].
    2:{ now erewrite run_alone_done by reflexivity. }
    rewrite run_alone_S, createOrder_step_check, Hb.
    destruct (item_quantity item <=? book_stockQuantity b); cbn [fst snd].
    + apply IH.
    + now erewrite run_alone_done by reflexivity.
Qed.

(** Run with no other request in between, the steps of a call are
    [createOrder]. *)
Lemma createOrder_run_alone userId items s :
  run_alone createOrder_step (2 * length items + 1) (createOrder_call userId items) s
  = (co_at (createOrder_call userId items) (CoDone (fst (createOrder userId items s))),
     snd (createOrder userId items s)).
Proof.
  destruct items as [|item rest].
  - reflexivity.
  - rewrite createOrder_unfold by done.
    change (createOrder_call userId (item :: rest))
      with (co_at (createOrder_call userId (item :: rest))
              (CoLoop (item :: rest) [] price_zero)) at 1.
    rewrite createOrder_run_loop.
    destruct (fst (createOrder_collect _ _ _ s)) as [acc|m]; reflexivity.
Qed.

(** ** Calls racing for the whole stock of one book *)

Lemma co_at_pc (c : CreateOrderCall price) : co_at c (co_pc c) = c.
Proof. now destruct c. Qed.

(** No step of a call writes to the users or changes whom the call is for. *)
Lemma createOrder_step_users (c : CreateOrderCall price) s :
  users (snd (createOrder_step c s)) = users s
  ∧ co_userId (fst (createOrder_step c s)) = co_userId c.
Proof.
  destruct c as [userId pc]. unfold createOrder_step. cbn [co_pc co_userId].
  destruct pc as [[|item rest] acc total|item b rest acc total|r];
    cbn [fst snd co_at co_userId].
  - split; [|reflexivity].
    unfold db_transaction. rewrite createOrder_tx_unfold.
    pose proof (createOrder_decrementAll_frame acc s) as (Hu & _).
    destruct (fst (createOrder_decrementAll acc s)) as [[]|m]; [|reflexivity].
    unfold order_create.
    destruct (users _ !! _); cbn [snd users set_orders set_orderItems];
      [exact Hu|reflexivity].
  - destruct (item_invalid item); [done|].
    unfold getBookById, book_findUnique. destruct (books s !! item_bookId item); done.
  - unfold checkStockAvailability, bind, book_findUnique, throw, ret.
    destruct (books s !! item_bookId item) as [b'|]; [|done].
    destruct (item_quantity item <=? book_stockQuantity b'); done.
  - done.
Qed.

Lemma count_insert_same {A} (f : A → bool) (l : list A) i x y :
  l !! i = Some x → f y = f x →
  length (List.filter f (<[i:=y]> l)) = length (List.filter f l).
Proof.
  revert i. induction l as [|z l IH]; intros [|i] Hx Hf; try discriminate.
  - injection Hx as ->. cbn. rewrite Hf. destruct (f x); reflexivity.
  - cbn. destruct (f z); cbn; [f_equal|]; apply (IH i); assumption.
Qed.

Lemma count_insert_gain {A} (f : A → bool) (l : list A) i x y :
  l !! i = Some x → f x = false → f y = true →
  length (List.filter f (<[i:=y]> l)) = S (length (List.filter f l)).
Proof.
  revert i. induction l as [|z l IH]; intros [|i] Hx Hfx Hfy; try discriminate.
  - injection Hx as ->. cbn. now rewrite Hfx, Hfy.
  - cbn. destruct (f z); cbn; [f_equal|]; apply (IH i); assumption.
Qed.

Lemma count_none {A} (f : A → bool) (l : list A) :
  Forall (λ x, f x = false) l → length (List.filter f l) = O.
Proof.
  induction 1 as [|x l Hx _ IH]; [reflexivity|]. cbn. now rewrite Hx.
Qed.

Section Race.

Variables (bookId : string) (quantity : Z) (title : string).
Hypothesis bookId_given : bookId ≠ EmptyString.
Hypothesis quantity_positive : 0 < quantity.

Local Abbreviation waiting := (race_waiting bookId quantity title).
Local Abbreviation lost := (race_lost (price:=price) quantity title).

Lemma race_waiting_not_succeeded (c : CreateOrderCall price) :
  waiting (co_pc c) → co_succeeded c = false ∧ co_finished c = false.
Proof.
  unfold co_succeeded, co_finished.
  intros [->|[(b & -> & _)|(l & total & -> & _)]]; done.
Qed.

Lemma race_lost_not_succeeded (c : CreateOrderCall price) :
  lost (co_pc c) → co_succeeded c = false.
Proof. unfold co_succeeded. now intros (m & -> & _). Qed.

Lemma race_won_succeeded (c : CreateOrderCall price) :
  race_won (co_pc c) → co_succeeded c = true.
Proof. unfold co_succeeded. now intros (o & ->). Qed.

Lemma race_item_valid : item_invalid (line bookId quantity) = false.
Proof. apply item_invalid_false. cbn. split; assumption. Qed.

(** While the stock is whole, a step of a waiting call either leaves it
    waiting and the store alone, or commits and takes the whole stock. *)
Lemma race_step_full (c : CreateOrderCall price) s b :
  books s !! bookId = Some b → book_title b = title →
  book_stockQuantity b = quantity →
  is_Some (users s !! co_userId c) →
  waiting (co_pc c) →
  (waiting (co_pc (fst (createOrder_step c s))) ∧ snd (createOrder_step c s) = s)
  ∨ (race_won (co_pc (fst (createOrder_step c s)))
     ∧ ∃ b', books (snd (createOrder_step c s)) !! bookId = Some b'
             ∧ book_title b' = title ∧ book_stockQuantity b' = 0).
Proof.
  intros Hb Ht Hq [u Hu] Hw. rewrite <- (co_at_pc c).
  destruct Hw as [->|[(b1 & -> & Ht1 & Hq1)|(l & total & -> & Hl & Hlq)]].
  - rewrite createOrder_step_item, race_item_valid. cbn [line item_bookId].
    rewrite Hb. left. split; [|reflexivity]. right. left. exists b. cbn. eauto.
  - rewrite createOrder_step_check. cbn [line item_bookId item_quantity].
    rewrite Hb, Hq, Z.leb_refl. left. split; [|reflexivity].
    right. right. eexists _, _. cbn. eauto.
  - rewrite createOrder_step_tx. unfold db_transaction.
    rewrite createOrder_tx_unfold, createOrder_decrementAll_cons, Hl, Hb, Hlq, Hq.
    rewrite Z.ltb_irrefl. cbn [createOrder_decrementAll ret fst snd].
    unfold order_create. cbn [pending_order order_userId users set_books].
    rewrite Hu. cbn. right. split; [eexists; reflexivity|].
    rewrite lookup_insert_eq. eexists. split; [reflexivity|].
    rewrite decrement_stock. split; [exact Ht|lia].
Qed.

(** Once the stock is gone, a step of a waiting call leaves it waiting or
    makes it lose, and leaves the store alone. *)
Lemma race_step_empty (c : CreateOrderCall price) s b :
  books s !! bookId = Some b → book_title b = title →
  book_stockQuantity b = 0 →
  waiting (co_pc c) →
  (waiting (co_pc (fst (createOrder_step c s)))
   ∨ lost (co_pc (fst (createOrder_step c s))))
  ∧ snd (createOrder_step c s) = s.
Proof.
  intros Hb Ht Hq Hw. rewrite <- (co_at_pc c).
  destruct Hw as [->|[(b1 & -> & Ht1 & Hq1)|(l & total & -> & Hl & Hlq)]].
  - rewrite createOrder_step_item, race_item_valid. cbn [line item_bookId].
    rewrite Hb. split; [|reflexivity]. left. right. left. exists b. cbn. eauto.
  - rewrite createOrder_step_check. cbn [line item_bookId item_quantity].
    rewrite Hb, Hq. rewrite (proj2 (Z.leb_gt _ _)) by assumption.
    split; [|reflexivity]. right. eexists. split; [reflexivity|].
    rewrite Ht1. destruct Hq1 as [->| ->]; [right; left|right; right]; reflexivity.
  - rewrite createOrder_step_tx. unfold db_transaction.
    rewrite createOrder_tx_unfold, createOrder_decrementAll_cons, Hl, Hb, Hlq, Hq.
    rewrite (proj2 (Z.ltb_lt _ _)) by assumption. cbn.
    split; [|reflexivity]. right. eexists. split; [reflexivity|]. now left.
Qed.

Lemma race_inv_step_at i (calls : list (CreateOrderCall price)) s :
  race_inv bookId quantity title calls s →
  race_inv bookId quantity title
    (fst (step_at createOrder_step i calls s)) (snd (step_at createOrder_step i calls s)).
Proof.
  intros Hinv. unfold step_at.
  destruct (calls !! i) as [c|] eqn:Hc; [|exact Hinv]. cbn [fst snd].
  destruct Hinv as (b & Hb & Ht & Hstored & Hcases).
  assert (Hstored' : Forall (λ c0, is_Some (users (snd (createOrder_step c s))
                                              !! co_userId c0))
                       (<[i:=fst (createOrder_step c s)]> calls)).
  { destruct (createOrder_step_users c s) as [Husers Hsame]. rewrite Husers.
    apply Forall_insert; [exact Hstored|]. rewrite Hsame.
    exact (proj1 (Forall_lookup _ _) Hstored i c Hc). }
  pose proof (proj1 (Forall_lookup _ _) Hstored i c Hc) as Huser. cbn beta in Huser.
  destruct Hcases as [(Hq & Hall)|(Hq & Hall & Hcount)].
  - pose proof (proj1 (Forall_lookup _ _) Hall i c Hc) as Hw. cbn beta in Hw.
    destruct (race_step_full c s b Hb Ht Hq Huser Hw)
      as [(Hw' & Hs)|(Hwon & b' & Hb' & Ht' & Hq')].
    + exists b. rewrite Hs in Hstored' |- *.
      split; [exact Hb|]. split; [exact Ht|]. split; [exact Hstored'|].
      left. split; [exact Hq|].
      now apply Forall_insert.
    + exists b'. split; [exact Hb'|]. split; [exact Ht'|]. split; [exact Hstored'|].
      right. split; [exact Hq'|]. split.
      * apply Forall_insert; [|now right; right].
        eapply Forall_impl; [exact Hall|]. intros c0 H0. now left.
      * unfold count_succeeded.
        rewrite (count_insert_gain _ _ _ c); [| exact Hc
          | apply race_waiting_not_succeeded, Hw | apply race_won_succeeded, Hwon].
        rewrite count_none; [reflexivity|].
        eapply Forall_impl; [exact Hall|]. intros c0 H0.
        now apply race_waiting_not_succeeded.
  - pose proof (proj1 (Forall_lookup _ _) Hall i c Hc) as Hc'. cbn beta in Hc'.
    destruct Hc' as [Hw|Hdone].
    + destruct (race_step_empty c s b Hb Ht Hq Hw) as (Hn & Hs).
      rewrite Hs in Hstored' |- *.
      exists b. split; [exact Hb|]. split; [exact Ht|]. split; [exact Hstored'|].
      right. split; [exact Hq|]. split.
      * apply Forall_insert; [exact Hall|]. destruct Hn; [now left|now right; left].
      * unfold count_succeeded. rewrite (count_insert_same _ _ _ c); [exact Hcount|exact Hc|].
        rewrite (proj1 (race_waiting_not_succeeded c Hw)).
        destruct Hn as [Hn|Hn];
          [apply race_waiting_not_succeeded, Hn | apply race_lost_not_succeeded, Hn].
    + assert (Hstep : createOrder_step c s = (c, s)).
      { destruct Hdone as [(m & Hm & _)|(o & Ho)];
          eapply createOrder_step_done; eassumption. }
      rewrite Hstep. cbn [fst snd]. rewrite list_insert_id by exact Hc.
      exists b. split; [exact Hb|]. split; [exact Ht|]. split; [exact Hstored|].
      right. done.
Qed.

Lemma race_inv_run schedule (calls : list (CreateOrderCall price)) s :
  race_inv bookId quantity title calls s →
  race_inv bookId quantity title
    (fst (run_schedule createOrder_step schedule calls s))
    (snd (run_schedule createOrder_step schedule calls s)).
Proof.
  revert calls s. induction schedule as [|i rest IH]; intros calls s Hinv; [exact Hinv|].
  cbn [run_schedule]. apply IH. now apply race_inv_step_at.
Qed.

Lemma run_schedule_length schedule (calls : list (CreateOrderCall price)) s :
  length (fst (run_schedule createOrder_step schedule calls s)) = length calls.
Proof.
  revert calls s. induction schedule as [|i rest IH]; intros calls s; [reflexivity|].
  cbn [run_schedule]. rewrite IH. unfold step_at.
  destruct (calls !! i); cbn [fst]; [apply length_insert|reflexivity].
Qed.

Lemma race_inv_start (userIds : list string) s b :
  books s !! bookId = Some b → book_title b = title →
  book_stockQuantity b = quantity →
  (∀ userId, userId ∈ userIds → is_Some (users s !! userId)) →
  race_inv bookId quantity title
    (map (λ userId, createOrder_call userId [line bookId quantity]) userIds) s.
Proof.
  intros Hb Ht Hq Hstored. exists b. split; [exact Hb|]. split; [exact Ht|]. split.
  { apply Forall_fmap, Forall_forall. intros u Hu. cbn. now apply Hstored. }
  left. split; [exact Hq|]. apply Forall_fmap, Forall_forall. intros u _. now left.
Qed.

(** When every call has finished, one has won and the others have lost. *)
Lemma race_inv_finished (calls : list (CreateOrderCall price)) s :
  calls ≠ [] →
  forallb co_finished calls = true →
  race_inv bookId quantity title calls s →
  count_succeeded calls = 1%nat
  ∧ Forall (λ c, co_succeeded c = true ∨ lost (co_pc c)) calls
  ∧ stock s bookId = Some 0.
Proof.
  intros Hne Hfin (b & Hb & Ht & _ & [(Hq & Hall)|(Hq & Hall & Hcount)]).
  - destruct calls as [|c calls]; [done|]. exfalso.
    apply Forall_cons in Hall as [Hw _].
    apply race_waiting_not_succeeded in Hw as [_ Hw].
    cbn in Hfin. rewrite Hw in Hfin. discriminate.
  - split; [exact Hcount|]. split.
    + apply Forall_forall. intros c Hc.
      pose proof (proj1 (Forall_forall _ _) Hall c Hc) as [Hw|[Hl|Hwon]].
      * exfalso. apply race_waiting_not_succeeded in Hw as [_ Hw].
        rewrite forallb_forall in Hfin. apply list_elem_of_In in Hc.
        rewrite (Hfin c Hc) in Hw. discriminate.
      * now right.
      * left. now apply race_won_succeeded.
    + unfold stock. rewrite Hb. cbn. now rewrite Hq.
Qed.

End Race.

(** ** Every call finishes *)

Lemma steps_left_step (c : CreateOrderCall price) s :
  (steps_left (co_pc (fst (createOrder_step c s))) ≤ pred (steps_left (co_pc c)))%nat.
Proof.
  rewrite <- (co_at_pc c) at 1. destruct (co_pc c) as [[|item rest] acc total|item b rest acc total|r].
  - rewrite createOrder_step_tx. cbn. lia.
  - rewrite createOrder_step_item. destruct (item_invalid item); [cbn; lia|].
    destruct (books s !! item_bookId item); cbn; lia.
  - rewrite createOrder_step_check. destruct (books s !! item_bookId item) as [b'|]; [|cbn; lia].
    destruct (item_quantity item <=? book_stockQuantity b'); cbn; lia.
  - cbn. lia.
Qed.

Lemma steps_left_0 (c : CreateOrderCall price) :
  steps_left (co_pc c) = O → co_finished c = true.
Proof.
  unfold co_finished. destruct (co_pc c) as [items acc total|item b rest acc total|r];
    cbn; [lia|lia|reflexivity].
Qed.

(** Whatever the other calls do in between, a call has at most as many steps
    left as it had, less the steps the schedule gave it. *)
Lemma run_schedule_steps_left schedule (calls : list (CreateOrderCall price)) s i c :
  calls !! i = Some c →
  ∃ c', fst (run_schedule createOrder_step schedule calls s) !! i = Some c'
        ∧ (steps_left (co_pc c') ≤ steps_left (co_pc c) - steps_given i schedule)%nat.
Proof.
  revert calls s c. induction schedule as [|j rest IH]; intros calls s c Hc.
  - exists c. split; [exact Hc|]. cbn. lia.
  - cbn [run_schedule]. unfold step_at at 1 2.
    destruct (calls !! j) as [cj|] eqn:Hj; cbn [fst snd].
    + destruct (decide (i = j)) as [->|Hne].
      * rewrite Hc in Hj. injection Hj as <-.
        destruct (IH (<[j:=fst (createOrder_step c s)]> calls)
                     (snd (createOrder_step c s)) (fst (createOrder_step c s)))
          as (c' & Hc' & Hle).
        { apply list_lookup_insert_eq. now apply lookup_lt_Some in Hc. }
        exists c'. split; [exact Hc'|].
        pose proof (steps_left_step c s). unfold steps_given in *. cbn.
        rewrite Nat.eqb_refl. cbn. lia.
      * destruct (IH (<[j:=fst (createOrder_step cj s)]> calls)
                     (snd (createOrder_step cj s)) c) as (c' & Hc' & Hle).
        { rewrite list_lookup_insert_ne by (apply not_eq_sym, Hne). exact Hc. }
        exists c'. split; [exact Hc'|]. unfold steps_given in *. cbn.
        rewrite (proj2 (Nat.eqb_neq i j)) by exact Hne. exact Hle.
    + destruct (IH calls s c Hc) as (c' & Hc' & Hle).
      exists c'. split; [exact Hc'|]. unfold steps_given in *. cbn.
      destruct (i =? j)%nat eqn:Hij; [|exact Hle].
      apply Nat.eqb_eq in Hij as ->. rewrite Hc in Hj. discriminate.
Qed.

(** A schedule that gives every call as many steps as it can take finishes
    them all. *)
Lemma run_schedule_finishes schedule (calls : list (CreateOrderCall price)) s :
  (∀ i c, calls !! i = Some c → (steps_left (co_pc c) ≤ steps_given i schedule)%nat) →
  forallb co_finished (fst (run_schedule createOrder_step schedule calls s)) = true.
Proof.
  intros Hfair. apply forallb_forall. intros c' Hin.
  apply list_elem_of_In, list_elem_of_lookup in Hin as [i Hi].
  assert (Hlt : (i < length calls)%nat).
  { rewrite <- (run_schedule_length schedule calls s). now apply lookup_lt_Some in Hi. }
  apply lookup_lt_is_Some in Hlt as [c Hc].
  destruct (run_schedule_steps_left schedule calls s i c Hc) as (c'' & Hc'' & Hle).
  rewrite Hi in Hc''. injection Hc'' as <-.
  apply steps_left_0. specialize (Hfair i c Hc). lia.
Qed.

(** C7, as the code has it.  Any number of [createOrder] calls of stored
    users, each for the whole stock of the same book, run interleaved at
    their client calls, the transaction of each being one step: under every
    schedule that lets each
    call take its three steps, exactly one call succeeds; every other call
    throws, either the "Insufficient stock" message of the first loop (with
    the stock it read earlier, whole or gone) or, having passed the first
    loop, the fixed message [STOCK_VALIDATION_FAILED] of the transaction;
    and the stock ends at what it was less the one quantity. *)
Theorem createOrder_race_one_winner (userIds : list string) bookId quantity s b schedule :
  bookId ≠ EmptyString →
  0 < quantity →
  books s !! bookId = Some b →
  book_stockQuantity b = quantity →
  userIds ≠ [] →
  (∀ userId, userId ∈ userIds → is_Some (users s !! userId)) →
  (∀ i, (i < length userIds)%nat → (3 ≤ steps_given i schedule)%nat) →
  forallb co_finished
    (fst (run_schedule createOrder_step schedule
            (map (λ userId, createOrder_call userId [line bookId quantity]) userIds) s))
  = true
  ∧ count_succeeded
      (fst (run_schedule createOrder_step schedule
              (map (λ userId, createOrder_call userId [line bookId quantity]) userIds) s))
    = 1%nat
  ∧ Forall (λ c, co_succeeded c = true
                 ∨ ∃ m, co_pc c = CoDone (Throw m)
                        ∧ race_lost_message quantity (book_title b) m)
      (fst (run_schedule createOrder_step schedule
              (map (λ userId, createOrder_call userId [line bookId quantity]) userIds) s))
  ∧ stock (snd (run_schedule createOrder_step schedule
                  (map (λ userId, createOrder_call userId [line bookId quantity]) userIds) s))
      bookId
    = Some (book_stockQuantity b - quantity).
Proof.
  intros Hid Hq Hb Hstock Hne Hstored Hfair.
  set (calls := map (λ userId, createOrder_call userId [line bookId quantity]) userIds).
  assert (Hfin : forallb co_finished (fst (run_schedule createOrder_step schedule calls s))
                 = true).
  { apply run_schedule_finishes. intros i c Hc.
    assert (Hlt : (i < length userIds)%nat).
    { apply lookup_lt_Some in Hc. unfold calls in Hc. now rewrite length_map in Hc. }
    unfold calls in Hc. apply list_lookup_fmap_Some in Hc as (u & -> & _).
    cbn. now apply Hfair. }
  split; [exact Hfin|].
  pose proof (race_inv_run bookId quantity (book_title b) Hid Hq schedule calls s
                (race_inv_start bookId quantity (book_title b) userIds s b Hb eq_refl Hstock
                   Hstored))
    as Hinv.
  assert (Hne' : fst (run_schedule createOrder_step schedule calls s) ≠ []).
  { intros Hnil. apply (f_equal length) in Hnil.
    rewrite run_schedule_length in Hnil. unfold calls in Hnil.
    rewrite length_map in Hnil. destruct userIds; [done|discriminate]. }
  destruct (race_inv_finished bookId quantity (book_title b) _ _ Hne' Hfin Hinv)
    as (Hcount & Hall & Hs).
  split; [exact Hcount|]. split; [exact Hall|].
  rewrite Hs. f_equal. lia.
Qed.

End Properties.

(** * The model at work *)

(** ** The scenarios of the specification *)

(** Item A starts at stock 5; an order for 5 succeeds and leaves 0; a second
    order for 1 then fails, naming the title, 0 available and 1 requested. *)
Example scenario_last_copies :
  stock shop "A" = Some 5
  ∧ stock shop_after_order "A" = Some 0
  ∧ createOrder "cust-2" [line "A" 1] shop_after_order
    = (Throw (insufficient_stock_message "Alpha" 0 1), shop_after_order).
Proof. vm_compute. repeat split; reflexivity. Qed.

(** An order for 3 of item B (stock 2) and 1 of item C (stock 10) is rejected
    as a whole; item C keeps its 10, also when C comes first. *)
Example scenario_rejected_as_a_whole :
  createOrder "cust-1" [line "B" 3; line "C" 1] shop
  = (Throw (insufficient_stock_message "Beta" 2 3), shop)
  ∧ createOrder "cust-1" [line "C" 1; line "B" 3] shop
    = (Throw (insufficient_stock_message "Beta" 2 3), shop)
  ∧ stock shop "C" = Some 10.
Proof. vm_compute. repeat split; reflexivity. Qed.

(** Inside the transaction the first of two lines for item A is decremented
    before the second is refused; the transaction undoes it. *)
Example rollback_of_first_decrement :
  fst (createOrder_decrementAll
         [snapshot (example_book "Alpha" "111" 1299 5) (line "A" 3);
          snapshot (example_book "Alpha" "111" 1299 5) (line "A" 3)] shop)
  = Throw STOCK_VALIDATION_FAILED
  ∧ stock (snd (createOrder_decrementAll
                  [snapshot (example_book "Alpha" "111" 1299 5) (line "A" 3);
                   snapshot (example_book "Alpha" "111" 1299 5) (line "A" 3)] shop)) "A"
    = Some 2
  ∧ createOrder "cust-1" twice_three_of_A shop = (Throw STOCK_VALIDATION_FAILED, shop).
Proof. vm_compute. repeat split; reflexivity. Qed.

(** ** The theorems at concrete inputs *)

Ltac elem_cases H :=
  repeat (apply elem_of_cons in H; destruct H as [->|H]);
  try (apply elem_of_nil in H; destruct H).

Lemma shop_lookup_other id :
  id ≠ "A" → id ≠ "B" → id ≠ "C" → books shop !! id = None.
Proof.
  intros HA HB HC. unfold shop. cbn [books].
  rewrite !lookup_insert_ne by (apply not_eq_sym; assumption).
  apply lookup_empty.
Qed.

Lemma createOrder_insufficient_stock_no_effect_witness :
  line "B" 3 ∈ [line "B" 3; line "C" 1]
  ∧ books shop !! "B" = Some (example_book "Beta" "222" 500 2)
  ∧ 2 < 3
  ∧ ∃ m, createOrder "cust-1" [line "B" 3; line "C" 1] shop = (Throw m, shop).
Proof.
  assert (H1 : line "B" 3 ∈ [line "B" 3; line "C" 1]) by left.
  assert (H2 : books shop !! item_bookId (line "B" 3)
               = Some (example_book "Beta" "222" 500 2)) by reflexivity.
  assert (H3 : book_stockQuantity (example_book "Beta" "222" 500 2)
               < item_quantity (line "B" 3)) by reflexivity.
  split; [exact H1|]. split; [exact H2|]. split; [reflexivity|].
  exact (proj1 (createOrder_insufficient_stock_no_effect "cust-1" _ shop _ _ H1 H2 H3)).
Defined.

Lemma decrementStock_read_then_write_witness :
  books shop !! "A" = Some (example_book "Alpha" "111" 1299 5)
  ∧ 3 ≤ 5
  ∧ stock (snd (decrementStock "A" 3 shop)) "A" = Some 2.
Proof.
  assert (H1 : books shop !! "A" = Some (example_book "Alpha" "111" 1299 5))
    by reflexivity.
  assert (H2 : 3 ≤ book_stockQuantity (example_book "Alpha" "111" 1299 5))
    by (cbn; lia).
  split; [exact H1|]. split; [lia|].
  destruct (decrementStock_read_then_write "A" 3 shop) as (_ & _ & H & _).
  exact (proj2 (H _ H1 H2)).
Defined.

Lemma reachable_stock_nonneg_witness :
  reachable stocked
  ∧ stock stocked "0" = Some 5
  ∧ stock_nonneg stocked
  ∧ stock_nonneg (handle (Req_PUT_books_id (Some admin) "0" restock_to_40) stocked).
Proof.
  assert (H : reachable stocked) by apply reachable_handle, reachable_empty.
  split; [exact H|]. split; [reflexivity|].
  destruct (reachable_stock_nonneg stocked H) as (H1 & H2 & _).
  split; [exact H1 | apply H2].
Defined.

Lemma createOrder_sufficient_stock_witness :
  is_Some (users shop !! "cust-1")
  ∧ [line "A" 3; line "B" 1] ≠ []
  ∧ items_reference_orders shop
  ∧ ∃ order s',
      createOrder "cust-1" [line "A" 3; line "B" 1] shop = (Ok order, s')
      ∧ stock s' "A" = Some 2 ∧ stock s' "B" = Some 1 ∧ stock s' "C" = Some 10
      ∧ Order_totalPrice order
        = sum_subtotals price_zero (map oi_subtotal (Order_orderItems order))
      ∧ Order_orderStatus order = PENDING.
Proof.
  assert (H0 : is_Some (users shop !! "cust-1")) by (eexists; reflexivity).
  assert (H1 : [line "A" 3; line "B" 1] ≠ []) by discriminate.
  assert (H2 : ∀ item, item ∈ [line "A" 3; line "B" 1] →
                 item_bookId item ≠ EmptyString ∧ 0 < item_quantity item).
  { intros item Hin. elem_cases Hin; (split; [discriminate|reflexivity]). }
  assert (H3 : ∀ item, item ∈ [line "A" 3; line "B" 1] →
                 is_Some (books shop !! item_bookId item)).
  { intros item Hin. elem_cases Hin; eexists; reflexivity. }
  assert (H4 : ∀ id b, books shop !! id = Some b →
                 requested id (map item_pair [line "A" 3; line "B" 1])
                 ≤ book_stockQuantity b).
  { intros id b.
    destruct (decide (id = "A")) as [->|HA];
      [intros Hb; vm_compute in Hb; injection Hb as <-; vm_compute; discriminate|].
    destruct (decide (id = "B")) as [->|HB];
      [intros Hb; vm_compute in Hb; injection Hb as <-; vm_compute; discriminate|].
    destruct (decide (id = "C")) as [->|HC];
      [intros Hb; vm_compute in Hb; injection Hb as <-; vm_compute; discriminate|].
    rewrite shop_lookup_other by assumption. discriminate. }
  assert (H5 : items_reference_orders shop) by (intros r Hr; inversion Hr).
  split; [exact H0|]. split; [exact H1|]. split; [exact H5|].
  destruct (createOrder_sufficient_stock "cust-1" _ shop H0 H1 H2 H3 H4 H5)
    as (order & s' & Hrun & _ & Hstock & _ & _ & _ & _ & _ & Htotal & _ & Hst & _).
  exists order, s'. split; [exact Hrun|].
  rewrite !Hstock. repeat split; try reflexivity; assumption.
Defined.

Lemma createOrder_stock_failure_messages_witness :
  is_Some (users shop !! "cust-1")
  ∧ (∃ acc, fst (createOrder_collect [line "C" 1] [] price_zero shop) = Ok acc)
  ∧ createOrder "cust-1" [line "C" 1; line "B" 3] shop
    = (Throw (insufficient_stock_message "Beta" 2 3), shop)
  ∧ (∃ acc, fst (createOrder_collect twice_three_of_A [] price_zero shop) = Ok acc)
  ∧ fst (createOrder "cust-1" twice_three_of_A shop) = Throw STOCK_VALIDATION_FAILED.
Proof.
  assert (H1 : ∃ acc, fst (createOrder_collect [line "C" 1] [] price_zero shop) = Ok acc)
    by (eexists; reflexivity).
  assert (H2 : ∃ acc, fst (createOrder_collect twice_three_of_A [] price_zero shop) = Ok acc)
    by (eexists; reflexivity).
  assert (H3 : is_Some (users shop !! "cust-1")) by (eexists; reflexivity).
  split; [exact H3|]. split; [exact H1|]. split; [|split; [exact H2|]].
  - refine (proj1 (createOrder_stock_failure_messages "cust-1" _ shop)
              [line "C" 1] (line "B" 3) [] (example_book "Beta" "222" 500 2)
              eq_refl H1 eq_refl eq_refl _).
    reflexivity.
  - destruct H2 as [acc Hacc].
    destruct (fst (createOrder "cust-1" twice_three_of_A shop)) as [o|m] eqn:Hr.
    + vm_compute in Hr. discriminate.
    + f_equal.
      refine (proj1 (proj2 (createOrder_stock_failure_messages "cust-1" twice_three_of_A
                               shop) acc m _ Hacc Hr) H3).
      discriminate.
Defined.

Lemma placed_order_placed :
  createOrder "cust-1" [line "A" 5] shop = (Ok placed_order, shop_after_order).
Proof. vm_compute. reflexivity. Qed.

Lemma cancelOrder_pending_restores_witness :
  orders shop_after_order !! "0" = Some (pending_order "cust-1" 6495)
  ∧ ∃ order s',
      cancelOrder "0" "cust-1" shop_after_order = (Ok order, s')
      ∧ stock shop_after_order "A" = Some 0
      ∧ stock s' "A" = Some 5
      ∧ books s' = books shop
      ∧ Order_orderStatus order = CANCELLED
      ∧ cancelOrder "0" "cust-1" s' = (Throw "Only pending orders can be cancelled", s').
Proof.
  assert (H1 : orders shop_after_order !! "0" = Some (pending_order "cust-1" 6495))
    by (vm_compute; reflexivity).
  assert (H2 : ∀ r, r ∈ items_of_order "0" (orderItems shop_after_order) →
                 is_Some (books shop_after_order !! oi_bookId r)).
  { assert (Hrows : items_of_order "0" (orderItems shop_after_order)
                    = Order_orderItems placed_order) by (vm_compute; reflexivity).
    rewrite Hrows. intros r Hr. cbn in Hr. elem_cases Hr.
    eexists. vm_compute. reflexivity. }
  split; [exact H1|].
  destruct (cancelOrder_pending_restores "0" "cust-1" shop_after_order _ H1 eq_refl eq_refl H2)
    as (order & s' & Hrun & _ & _ & _ & _ & Hst & _ & _ & Hagain & Hround).
  exists order, s'. split; [exact Hrun|].
  pose proof (Hround [line "A" 5] shop placed_order
                (λ r Hr, match elem_of_nil r with conj f _ => False_ind _ (f Hr) end)
                placed_order_placed eq_refl) as Hbooks.
  split; [reflexivity|]. split; [unfold stock; rewrite Hbooks; reflexivity|].
  split; [exact Hbooks|]. split; [exact Hst|exact Hagain].
Defined.

Lemma createOrder_race_one_winner_witness :
  ["cust-1"; "cust-2"; "cust-3"] ≠ []
  ∧ books shop !! "A" = Some (example_book "Alpha" "111" 1299 5)
  ∧ (∀ userId, userId ∈ ["cust-1"; "cust-2"; "cust-3"] → is_Some (users shop !! userId))
  ∧ count_succeeded
      (fst (run_schedule createOrder_step [0; 1; 2; 0; 1; 2; 0; 1; 2]%nat
              (map (λ userId, createOrder_call userId [line "A" 5]) ["cust-1"; "cust-2"; "cust-3"])
              shop))
    = 1%nat
  ∧ stock (snd (run_schedule createOrder_step [0; 1; 2; 0; 1; 2; 0; 1; 2]%nat
                  (map (λ userId, createOrder_call userId [line "A" 5]) ["cust-1"; "cust-2"; "cust-3"])
                  shop)) "A"
    = Some 0.
Proof.
  assert (H1 : "A" ≠ EmptyString) by discriminate.
  assert (H2 : 0 < 5) by reflexivity.
  assert (H3 : books shop !! "A" = Some (example_book "Alpha" "111" 1299 5))
    by reflexivity.
  assert (H4 : ["cust-1"; "cust-2"; "cust-3"] ≠ []) by discriminate.
  assert (H5 : ∀ i, (i < length ["cust-1"; "cust-2"; "cust-3"])%nat →
                 (3 ≤ steps_given i [0; 1; 2; 0; 1; 2; 0; 1; 2])%nat).
  { intros [|[|[|i]]] Hi; cbn in *; lia. }
  assert (H6 : ∀ userId, userId ∈ ["cust-1"; "cust-2"; "cust-3"] →
                 is_Some (users shop !! userId)).
  { intros userId Hin. elem_cases Hin; eexists; reflexivity. }
  split; [exact H4|]. split; [exact H3|]. split; [exact H6|].
  destruct (createOrder_race_one_winner ["cust-1"; "cust-2"; "cust-3"] "A" 5 shop _
              [0; 1; 2; 0; 1; 2; 0; 1; 2]%nat H1 H2 H3 eq_refl H4 H6 H5)
    as (_ & Hcount & _ & Hstock).
  split; [exact Hcount|exact Hstock].
Defined.

Lemma updateOrderStatus_only_status_witness :
  orders shop_after_order !! "0" = Some (pending_order "cust-1" 6495)
  ∧ ∃ order,
      updateOrderStatus "0" DELIVERED shop_after_order
      = (Ok order,
         set_orders (insert "0" (set_orderStatus DELIVERED (pending_order "cust-1" 6495)))
           shop_after_order)
      ∧ Order_orderStatus order = DELIVERED
      ∧ Order_totalPrice order = 6495.
Proof.
  assert (H1 : orders shop_after_order !! "0" = Some (pending_order "cust-1" 6495))
    by (vm_compute; reflexivity).
  split; [exact H1|].
  destruct (updateOrderStatus_only_status "0" DELIVERED shop_after_order)
    as (_ & H & _).
  destruct (H _ H1) as (order & Hrun & _ & Hst & _ & Htotal & _).
  exists order. split; [exact Hrun|]. split; [exact Hst|exact Htotal].
Defined.

Lemma deleteBook_keeps_references_witness :
  books shop_after_order !! "A" = Some (example_book "Alpha" "111" 1299 0)
  ∧ deleteBook "A" shop_after_order
    = (Throw "Cannot delete book that is referenced in orders", shop_after_order)
  ∧ reachable stocked
  ∧ items_reference_books stocked.
Proof.
  assert (H1 : books shop_after_order !! "A" = Some (example_book "Alpha" "111" 1299 0))
    by (vm_compute; reflexivity).
  assert (H2 : {| oi_orderId := "0"; oi_bookId := "A"; oi_quantity := 5;
                  oi_unitPrice := 1299; oi_subtotal := 6495 |}
               ∈ orderItems shop_after_order) by (vm_compute; left).
  assert (H3 : reachable stocked) by apply reachable_handle, reachable_empty.
  split; [exact H1|]. split; [|split; [exact H3|]].
  - exact (proj1 (deleteBook_keeps_references "A" shop_after_order) _ _ H1 H2 eq_refl).
  - destruct (deleteBook_keeps_references "A" stocked) as (_ & _ & _ & H & _).
    exact (H H3).
Defined.

Lemma registered_users :
  users registered
  = <["0" := {| user_name := "John"; user_email := "john@example.com";
                user_password := "hash:secret1"; user_role := CUSTOMER |}]> ∅.
Proof. vm_compute. reflexivity. Qed.

Lemma POST_api_register_creates_customer_witness :
  rb_other body_with_role = [("role", "ADMIN")]
  ∧ is_Some (users registered !! "0")
  ∧ ∃ id,
      users registered !! id = None
      ∧ POST_api_register body_with_role registered
        = (Json 201
             {| ar_token := generateToken id "mallory@example.com" CUSTOMER;
                ar_tokenType := "Bearer";
                ar_expiresIn := getTokenExpiresIn;
                ar_user := {| api_user_id := id; api_user_name := "Mallory";
                              api_user_email := "mallory@example.com";
                              api_user_role := CUSTOMER |} |},
           set_users (insert id {| user_name := "Mallory";
                                   user_email := "mallory@example.com";
                                   user_password := hashPassword "secret1";
                                   user_role := CUSTOMER |}) registered).
Proof.
  assert (H1 : rb_name body_with_role ≠ EmptyString) by discriminate.
  assert (H2 : rb_email body_with_role ≠ EmptyString) by discriminate.
  assert (H3 : emailRegex_test (rb_email body_with_role) = true) by reflexivity.
  assert (H4 : 6 ≤ Z.of_nat (js_length (rb_password body_with_role)))
    by (vm_compute; discriminate).
  assert (H5 : ∀ id u, users registered !! id = Some u →
                 user_email u ≠ toLowerCase_trim (rb_email body_with_role)).
  { intros id u. rewrite registered_users. intros Hu.
    apply lookup_insert_Some in Hu as [[_ <-]|[_ Hu]]; [discriminate|].
    rewrite lookup_empty in Hu. discriminate. }
  split; [reflexivity|]. split; [eexists; vm_compute; reflexivity|].
  destruct (POST_api_register_creates_customer body_with_role registered)
    as (_ & _ & _ & _ & Hcreates).
  exact (Hcreates H1 H2 H3 H4 H5).
Defined.

(** ** Where the code departs from the specification *)

(** Two [decrementStock] calls for the 5 copies of item A, interleaved at
    their awaits: both read 5, both pass the test, both write.  Both succeed
    and the stock ends at -5. *)
Lemma decrementStock_interleaved_oversells :
  stock shop "A" = Some 5
  ∧ map ds_pc (fst (run_schedule decrementStock_step [0; 1; 0; 1]%nat
                      [decrementStock_call "A" 5; decrementStock_call "A" 5] shop))
    = [DsDone (Ok tt); DsDone (Ok tt)]
  ∧ stock (snd (run_schedule decrementStock_step [0; 1; 0; 1]%nat
                  [decrementStock_call "A" 5; decrementStock_call "A" 5] shop)) "A"
    = Some (-5).
Proof. vm_compute. repeat split; reflexivity. Qed.

(** The admin's update of a book is no ledger operation and sets the stock
    from 5 to 40. *)
Lemma stock_set_outside_ledger :
  ¬ (∀ (r : Request Z) (s : DB Z),
       reachable s → is_ledger_request r = false →
       ∀ id, stock (handle r s) id = stock s id).
Proof.
  intros H.
  specialize (H (Req_PUT_books_id (Some admin) "0" restock_to_40) stocked
                (reachable_handle _ _ reachable_empty) eq_refl "0").
  vm_compute in H. discriminate.
Qed.

(** An order whose two lines for item A pass the first loop and fail in the
    transaction: the error is the fixed message, which holds neither the
    title nor the id of the book nor a quantity, is the same for another book
    and other quantities, and is answered with status 500, where the failure
    of the first loop is answered with 400. *)
Lemma createOrder_commit_failure_names_nothing :
  (∃ acc, fst (createOrder_collect twice_three_of_A [] price_zero shop) = Ok acc)
  ∧ fst (createOrder "cust-1" twice_three_of_A shop) = Throw STOCK_VALIDATION_FAILED
  ∧ fst (createOrder "cust-1" [line "C" 6; line "C" 6] shop) = Throw STOCK_VALIDATION_FAILED
  ∧ includes "Alpha" STOCK_VALIDATION_FAILED = false
  ∧ includes "A" STOCK_VALIDATION_FAILED = false
  ∧ includes "2" STOCK_VALIDATION_FAILED = false
  ∧ includes "3" STOCK_VALIDATION_FAILED = false
  ∧ includes "Insufficient stock" STOCK_VALIDATION_FAILED = false
  ∧ fst (createOrder "cust-1" [line "A" 6] shop)
    = Throw (insufficient_stock_message "Alpha" 5 6)
  ∧ response_status (fst (POST_api_orders (Some customer) twice_three_of_A shop)) = 500
  ∧ response_status (fst (POST_api_orders (Some customer) [line "A" 6] shop)) = 400.
Proof.
  split; [eexists; vm_compute; reflexivity|].
  vm_compute. repeat split; reflexivity.
Qed.

(** Two calls for the 5 copies of item A that both pass the first loop
    before either commits: the first commits, the second fails in its
    transaction with the fixed message, not with "Insufficient stock". *)
Lemma createOrder_race_loser_generic_failure :
  map co_succeeded
    (fst (run_schedule createOrder_step [0; 1; 0; 1; 0; 1]%nat
            [createOrder_call "cust-1" [line "A" 5]; createOrder_call "cust-2" [line "A" 5]] shop))
  = [true; false]
  ∧ co_pc <$> fst (run_schedule createOrder_step [0; 1; 0; 1; 0; 1]%nat
                     [createOrder_call "cust-1" [line "A" 5];
                      createOrder_call "cust-2" [line "A" 5]] shop) !! 1%nat
    = Some (CoDone (Throw STOCK_VALIDATION_FAILED))
  ∧ includes "Insufficient stock" STOCK_VALIDATION_FAILED = false
  ∧ response_status (POST_api_orders_catch (price:=Z) STOCK_VALIDATION_FAILED) = 500.
Proof. vm_compute. repeat split; reflexivity. Qed.

(** * Further properties *)

(** ** Splitting the Authorization header *)

Lemma split_not_nil sep s : split sep s ≠ [].
Proof.
  destruct s as [|c rest]; cbn; [discriminate|].
  destruct (Ascii.eqb c sep); [discriminate|].
  destruct (split sep rest); discriminate.
Qed.

Lemma join_cons sep piece pieces :
  pieces ≠ [] → join sep (piece :: pieces) = piece +:+ String sep (join sep pieces).
Proof. destruct pieces; [done|reflexivity]. Qed.

Lemma join_split sep s : join sep (split sep s) = s.
Proof.
  induction s as [|c rest IH]; [reflexivity|]. cbn [split].
  destruct (Ascii.eqb c sep) eqn:Hc.
  - apply Ascii.eqb_eq in Hc as ->.
    rewrite join_cons by apply split_not_nil. now rewrite IH.
  - pose proof (split_not_nil sep rest) as Hne.
    destruct (split sep rest) as [|piece pieces]; [done|].
    destruct pieces as [|piece' pieces].
    + cbn in *. now rewrite IH.
    + rewrite join_cons by discriminate. rewrite join_cons in IH by discriminate.
      change (String c (piece +:+ String sep (join sep (piece' :: pieces)))
              = String c rest).
      now rewrite IH.
Qed.

Lemma split_pieces_clean sep s piece :
  In piece (split sep s) → contains_char sep piece = false.
Proof.
  revert piece. induction s as [|c rest IH]; intros piece; cbn [split].
  - intros [<-|[]]. reflexivity.
  - destruct (Ascii.eqb c sep) eqn:Hc.
    + intros [<-|Hin]; [reflexivity | now apply IH].
    + pose proof (split_not_nil sep rest) as Hne.
      destruct (split sep rest) as [|p ps]; [done|].
      intros [<-|Hin].
      * cbn [contains_char]. rewrite Hc. apply IH. now left.
      * apply IH. now right.
Qed.

Lemma split_clean sep s : contains_char sep s = false → split sep s = [s].
Proof.
  induction s as [|c rest IH]; [reflexivity|]. cbn [split contains_char].
  intros H. apply orb_false_iff in H as [Hc Hrest].
  rewrite Hc, (IH Hrest). reflexivity.
Qed.

Lemma split_app sep a b :
  contains_char sep a = false →
  split sep (a +:+ String sep b) = a :: split sep b.
Proof.
  induction a as [|c rest IH].
  - intros _. change (EmptyString +:+ String sep b) with (String sep b).
    cbn [split]. now rewrite Ascii.eqb_refl.
  - cbn [contains_char]. intros H. apply orb_false_iff in H as [Hc Hrest].
    change (String c rest +:+ String sep b) with (String c (rest +:+ String sep b)).
    cbn [split]. rewrite Hc, (IH Hrest). reflexivity.
Qed.

Lemma extractTokenFromHeader_inv authHeader token :
  extractTokenFromHeader authHeader = Some token →
  authHeader = Some ("Bearer " +:+ token) ∧ contains_char space token = false.
Proof.
  unfold extractTokenFromHeader.
  destruct authHeader as [h|]; [|discriminate].
  case_bool_decide; [discriminate|].
  pose proof (join_split space h) as Hjoin.
  pose proof (split_pieces_clean space h) as Hclean.
  destruct (split space h) as [|scheme [|token' [|more pieces]]]; try discriminate.
  case_bool_decide; [|discriminate]. intros [= <-]. subst scheme.
  split; [|apply Hclean; right; now left].
  rewrite <- Hjoin. reflexivity.
Qed.

Lemma extractTokenFromHeader_bearer token :
  contains_char space token = false →
  extractTokenFromHeader (Some ("Bearer " +:+ token)) = Some token.
Proof.
  intros Hclean. unfold extractTokenFromHeader.
  rewrite bool_decide_eq_false_2 by discriminate.
  change ("Bearer " +:+ token) with ("Bearer" +:+ String space token).
  rewrite split_app by reflexivity. rewrite (split_clean _ _ Hclean).
  rewrite bool_decide_eq_true_2 by reflexivity. reflexivity.
Qed.

(** X1.  The header yields a token exactly when it is "Bearer", one space, and
    a token without a space (an empty one included); the token is then what
    follows the space. *)
Theorem extractTokenFromHeader_Some authHeader token :
  extractTokenFromHeader authHeader = Some token
  ↔ authHeader = Some ("Bearer " +:+ token) ∧ contains_char space token = false.
Proof.
  split.
  - apply extractTokenFromHeader_inv.
  - intros [-> Hclean]. now apply extractTokenFromHeader_bearer.
Qed.

Section MoreProperties.

Context {price : Type} {PA : PriceArith price} {AL : AuthLib} {NT : NumberText}
  {CL : CredentialLib}.

Implicit Types (s : DB price) (b : Book price) (id : string).

(** ** getAuthenticatedUser *)

(** X2.  With the three x-user headers present and not empty the request
    counts as that user with that role, whatever the Authorization header
    holds and without a token being verified.  Otherwise the request counts as
    a user exactly when the Authorization header is "Bearer", a space and a
    token that is not empty, holds no space and passes [verifyToken]; the user
    is then the token's payload. *)
Theorem getAuthenticatedUser_cases (headers : gmap string string) :
  (∀ userId email role,
     headers !! "x-user-id" = Some userId →
     headers !! "x-user-email" = Some email →
     headers !! "x-user-role" = Some role →
     userId ≠ EmptyString → email ≠ EmptyString → role ≠ EmptyString →
     getAuthenticatedUser headers
     = Some {| jwt_userId := userId; jwt_email := email; jwt_role := role |})
  ∧ ((headers !! "x-user-id" = None ∨ headers !! "x-user-id" = Some EmptyString
      ∨ headers !! "x-user-email" = None ∨ headers !! "x-user-email" = Some EmptyString
      ∨ headers !! "x-user-role" = None ∨ headers !! "x-user-role" = Some EmptyString) →
     ∀ user,
       getAuthenticatedUser headers = Some user
       ↔ ∃ token,
           headers !! "authorization" = Some ("Bearer " +:+ token)
           ∧ token ≠ EmptyString
           ∧ contains_char space token = false
           ∧ verifyToken token = Some user).
Proof.
  split.
  - intros userId email role H1 H2 H3 Hu He Hr. unfold getAuthenticatedUser.
    rewrite H1, H2, H3, !bool_decide_eq_false_2 by assumption. reflexivity.
  - intros Hmiss user.
    assert (Hget : getAuthenticatedUser headers
                   = user_from_token (headers !! "authorization")).
    { unfold getAuthenticatedUser.
      destruct (headers !! "x-user-id") as [u|]; [|reflexivity].
      destruct (headers !! "x-user-email") as [e|]; [|reflexivity].
      destruct (headers !! "x-user-role") as [r|]; [|reflexivity].
      destruct Hmiss as [H|[H|[H|[H|[H|H]]]]]; try discriminate;
        injection H as ->; cbn; rewrite ?andb_false_r; reflexivity. }
    rewrite Hget. unfold user_from_token. split.
    + destruct (extractTokenFromHeader _) as [token|] eqn:He; [|discriminate].
      case_bool_decide; [discriminate|]. intros Hv.
      apply extractTokenFromHeader_inv in He as [Hh Hclean]. exists token. done.
    + intros (token & Hh & Hne & Hclean & Hv).
      rewrite Hh, (extractTokenFromHeader_bearer token Hclean).
      now rewrite bool_decide_eq_false_2.
Qed.

(** ** Pagination *)

Lemma or_default_nonzero x d : d ≠ 0 → or_default x d ≠ 0.
Proof.
  intros Hd. unfold or_default. destruct x as [v|]; [|exact Hd].
  destruct (v =? 0) eqn:Hv; [exact Hd|]. now apply Z.eqb_neq.
Qed.

Lemma ceil_div_gt total size page :
  0 < size → (page < ceil_div total size ↔ page * size < total).
Proof.
  intros Hsize. unfold ceil_div.
  pose proof (Z.div_mod (- total) size ltac:(lia)) as Hdm.
  pose proof (Z.mod_pos_bound (- total) size Hsize) as Hmod.
  split; intros H; nia.
Qed.

(** X3.  For a page and a size of at least 1: there is a next page exactly
    when the page is before the last one; the pages are just enough to hold
    all elements, so all fit and, unless there is none, the last page is not
    empty; there is a previous page exactly when the page is past the first;
    with no element there is no page. *)
Theorem pagination_hasNext query total :
  1 ≤ query_page query →
  1 ≤ query_size query →
  0 ≤ total →
  (pg_hasNext (pagination query total) = true
   ↔ pg_page (pagination query total) < pg_totalPages (pagination query total))
  ∧ total ≤ pg_totalPages (pagination query total) * pg_size (pagination query total)
  ∧ (pg_totalPages (pagination query total) - 1) * pg_size (pagination query total) < total
    + (if total =? 0 then 1 else 0)
  ∧ 0 ≤ pg_totalPages (pagination query total)
  ∧ (pg_hasPrevious (pagination query total) = true
     ↔ 1 < pg_page (pagination query total))
  ∧ (total = 0 → pg_totalPages (pagination query total) = 0).
Proof.
  intros Hpage Hsize Htotal. cbn [pagination pg_hasNext pg_page pg_totalPages pg_size
    pg_hasPrevious]. unfold query_skip.
  set (page := query_page query) in *. set (size := query_size query) in *.
  pose proof (ceil_div_gt total size page ltac:(lia)) as Hgt.
  pose proof (ceil_div_gt total size (ceil_div total size) ltac:(lia)) as Hup.
  pose proof (ceil_div_gt total size (ceil_div total size - 1) ltac:(lia)) as Hlow.
  pose proof (ceil_div_gt total size (-1) ltac:(lia)) as Hneg.
  split; [rewrite Z.ltb_lt, Hgt; lia|].
  split; [lia|]. split; [destruct (total =? 0) eqn:H0; lia|].
  split; [lia|]. split; [apply Z.ltb_lt|].
  intros ->. unfold ceil_div. cbn [Z.opp]. rewrite Z.div_0_l by lia. reflexivity.
Qed.

(** Whatever the query holds, the size is at most 100 and not 0, and it is
    10 when the query gives none. *)
Lemma query_size_bounds query :
  query_size query ≤ 100 ∧ query_size query ≠ 0 ∧ query_page query ≠ 0
  ∧ (q_size query = None → query_size query = 10)
  ∧ (q_page query = None → query_page query = 1).
Proof.
  unfold query_size, query_page.
  pose proof (or_default_nonzero (q_size query) 10 ltac:(lia)).
  pose proof (or_default_nonzero (q_page query) 1 ltac:(lia)).
  repeat split; try lia; intros ->; reflexivity.
Qed.

(** ** Reading orders *)

Lemma list_filter_sublist {A} (f : A → bool) (l : list A) : sublist (List.filter f l) l.
Proof.
  induction l as [|x l IH]; cbn; [constructor|].
  destruct (f x); now constructor.
Qed.

Lemma list_filter_elem_of {A} (f : A → bool) (l : list A) x :
  x ∈ List.filter f l ↔ x ∈ l ∧ f x = true.
Proof. rewrite !list_elem_of_In. apply filter_In. Qed.

Lemma skip_take_sublist {A} (skip take : Z) (rows : list A) :
  sublist (skip_take skip take rows) rows.
Proof.
  unfold skip_take. etransitivity; [apply sublist_take|apply sublist_drop].
Qed.

Section Listing.

Variable createdAt_desc : list (string * OrderRow price) → list (string * OrderRow price).
Hypothesis createdAt_desc_rearranges : ∀ rows, createdAt_desc rows ≡ₚ rows.

Lemma getOrders_rows userId isAdmin where_ query s :
  getOrders_where userId isAdmin = Some where_ →
  ∃ rows,
    getOrders createdAt_desc userId isAdmin query s
    = (Ok {| pr_data := List.map (λ row, transformOrder (fst row) (snd row) (orderItems s))
                          rows;
             pr_pagination :=
               pagination query
                 (Z.of_nat (length (List.filter where_ (map_to_list (orders s))))) |}, s)
    ∧ rows = skip_take (query_skip query) (query_size query)
               (createdAt_desc (List.filter where_ (map_to_list (orders s))))
    ∧ NoDup rows.*1
    ∧ ∀ row, row ∈ rows →
        orders s !! fst row = Some (snd row)
        ∧ where_ row = true.
Proof.
  intros Hwhere. unfold getOrders. rewrite Hwhere.
  eexists. split; [reflexivity|]. split; [reflexivity|]. split.
  - eapply sublist_NoDup; [|apply fmap_sublist, skip_take_sublist].
    rewrite createdAt_desc_rearranges.
    eapply sublist_NoDup; [|apply fmap_sublist, list_filter_sublist].
    apply NoDup_fst_map_to_list.
  - intros row Hrow.
    apply (λ H, elem_of_sublist _ _ _ H (skip_take_sublist _ _ _)) in Hrow.
    rewrite createdAt_desc_rearranges in Hrow.
    apply list_filter_elem_of in Hrow as [Hrow Hmatch].
    split; [|exact Hmatch]. now apply elem_of_map_to_list'.
Qed.

(** X4.  For an admin, and for a caller whose id is given, the pages cover
    the list: the element at index [i] of the matching orders, in the order
    they come, is on page [i / size + 1] at index [i mod size]. *)
Theorem getOrders_pages_cover userId isAdmin where_ size (i : nat) s :
  getOrders_where userId isAdmin = Some where_ →
  1 ≤ size → size ≤ 100 →
  ∃ result,
    getOrders createdAt_desc userId isAdmin
      {| q_page := Some (Z.of_nat i / size + 1); q_size := Some size |} s
    = (Ok result, s)
    ∧ pr_data result !! Z.to_nat (Z.of_nat i mod size)
      = (λ row, transformOrder (fst row) (snd row) (orderItems s))
        <$> createdAt_desc (List.filter where_ (map_to_list (orders s))) !! i.
Proof.
  intros Hwhere Hlo Hhi. unfold getOrders. rewrite Hwhere.
  eexists. split; [reflexivity|]. cbn [pr_data].
  set (all := createdAt_desc _).
  assert (Hdiv : 0 ≤ Z.of_nat i / size) by (apply Z.div_pos; lia).
  assert (Hpage : query_page {| q_page := Some (Z.of_nat i / size + 1); q_size := Some size |}
                  = Z.of_nat i / size + 1).
  { unfold query_page, or_default. cbn. now rewrite (proj2 (Z.eqb_neq _ _)) by lia. }
  assert (Hsize : query_size {| q_page := Some (Z.of_nat i / size + 1); q_size := Some size |}
                  = size).
  { unfold query_size, or_default. cbn. rewrite (proj2 (Z.eqb_neq _ _)) by lia. lia. }
  unfold query_skip. rewrite Hpage, Hsize.
  rewrite list_lookup_fmap. f_equal. unfold skip_take.
  pose proof (Z.mod_pos_bound (Z.of_nat i) size ltac:(lia)) as Hmod.
  pose proof (Z.div_mod (Z.of_nat i) size ltac:(lia)) as Hdm.
  rewrite lookup_take_lt by lia. rewrite lookup_drop. f_equal. nia.
Qed.

(** X5.  The route lists to a caller who is no admin only that caller's own
    orders and counts only those; to an admin it counts all orders; no order
    is listed twice, a page holds at most [size] orders, and the store is left
    as it is.  Without credentials the answer is 401. *)
Theorem GET_api_orders_visibility user query s :
  1 ≤ query_page query →
  1 ≤ query_size query →
  snd (GET_api_orders createdAt_desc (Some user) query s) = s
  ∧ (∃ result,
       fst (GET_api_orders createdAt_desc (Some user) query s) = Json 200 result
       ∧ NoDup (map Order_id (pr_data result))
       ∧ Z.of_nat (length (pr_data result)) ≤ query_size query
       ∧ Forall (λ order, ∃ row, orders s !! Order_id order = Some row
                                 ∧ order = transformOrder (Order_id order) row (orderItems s))
           (pr_data result)
       ∧ (au_role user ≠ ADMIN →
          Forall (λ order, Order_userId order = au_userId user) (pr_data result)
          ∧ pg_totalElements (pr_pagination result)
            = Z.of_nat (length (List.filter
                                  (λ row, bool_decide (order_userId (snd row) = au_userId user))
                                  (map_to_list (orders s)))))
       ∧ (au_role user = ADMIN →
          pg_totalElements (pr_pagination result) = Z.of_nat (size (orders s))))
  ∧ snd (GET_api_orders createdAt_desc None query s) = s
  ∧ response_status (fst (GET_api_orders createdAt_desc None query s)) = 401.
Proof.
  intros Hpage Hsize. unfold GET_api_orders, unauthorized.
  assert (Hwhere : ∃ where_,
            getOrders_where (if isAdmin user then None else Some (au_userId user))
              (isAdmin user) = Some where_
            ∧ (au_role user ≠ ADMIN →
               where_ = λ row : string * OrderRow price,
                          bool_decide (order_userId (snd row) = au_userId user))
            ∧ (au_role user = ADMIN → where_ = λ _, true)).
  { unfold isAdmin, getOrders_where. case_bool_decide; eexists; done. }
  destruct Hwhere as (where_ & Hwhere & Hown & Hadmin).
  destruct (getOrders_rows _ _ where_ query s Hwhere) as (rows & -> & Hrows & Hnd & Hall).
  cbn [fst snd]. split; [reflexivity|]. split; [|split; reflexivity].
  eexists. split; [reflexivity|]. cbn [pr_data pr_pagination pagination pg_totalElements].
  split; [rewrite map_map; exact Hnd|].
  split; [rewrite length_map, Hrows; unfold skip_take; rewrite length_take; lia|].
  split.
  { apply Forall_forall. intros order Horder.
    apply list_elem_of_fmap in Horder as (row & -> & Hrow).
    destruct (Hall row Hrow) as [Hstored _]. cbn. eauto. }
  split.
  - intros Hrole. rewrite (Hown Hrole) in Hall |- *.
    split; [|reflexivity]. apply Forall_forall. intros order Horder.
    apply list_elem_of_fmap in Horder as (row & -> & Hrow).
    destruct (Hall row Hrow) as [_ Hmatch]. cbn in Hmatch |- *.
    now apply bool_decide_eq_true in Hmatch.
  - intros Hrole. rewrite (Hadmin Hrole). clear Hrows Hall.
    rewrite <- length_map_to_list. do 2 f_equal.
    induction (map_to_list (orders s)) as [|x l IH]; [reflexivity|].
    cbn [List.filter]. now rewrite IH.
Qed.

End Listing.

Lemma getOrderById_unfold id s :
  getOrderById id s
  = (Ok (match orders s !! id with
         | Some o => Some (transformOrder id o (orderItems s))
         | None => None
         end), s).
Proof. reflexivity. Qed.

(** X6.  The route shows an order to an admin and to its owner and to nobody
    else: it answers with the order exactly when the order is stored and the
    caller is an admin or owns it, 404 when it is not stored, 403 otherwise;
    it never changes the store. *)
Theorem GET_api_orders_id_access user id s :
  snd (GET_api_orders_id (Some user) id s) = s
  ∧ (∀ order, fst (GET_api_orders_id (Some user) id s) = Json 200 order
       ↔ ∃ o, orders s !! id = Some o
              ∧ order = transformOrder id o (orderItems s)
              ∧ (au_role user = ADMIN ∨ order_userId o = au_userId user))
  ∧ (orders s !! id = None →
     response_status (fst (GET_api_orders_id (Some user) id s)) = 404)
  ∧ (∀ o, orders s !! id = Some o →
       au_role user ≠ ADMIN → order_userId o ≠ au_userId user →
       response_status (fst (GET_api_orders_id (Some user) id s)) = 403)
  ∧ snd (GET_api_orders_id None id s) = s
  ∧ response_status (fst (GET_api_orders_id None id s)) = 401.
Proof.
  unfold GET_api_orders_id, unauthorized. rewrite getOrderById_unfold.
  split.
  { destruct (orders s !! id); cbn; [destruct (negb _)|]; reflexivity. }
  split.
  { intros order. destruct (orders s !! id) as [o|] eqn:Ho; cbn [fst].
    - cbn [transformOrder Order_userId]. unfold canAccessResource, isAdmin. split.
      + destruct (negb _) eqn:Hacc; cbn [fst]; [discriminate|]. intros [= <-].
        exists o. split; [reflexivity|]. split; [reflexivity|].
        apply negb_false_iff, orb_true_iff in Hacc as [H|H];
          apply bool_decide_eq_true in H; auto.
      + intros (o' & [= <-] & -> & Hor).
        rewrite (proj2 (negb_false_iff _)); [reflexivity|].
        apply orb_true_iff.
        destruct Hor; [left|right]; apply bool_decide_eq_true_2; auto.
    - split; [discriminate|]. intros (o & Hc & _). discriminate. }
  split.
  { intros ->. reflexivity. }
  split.
  { intros o Ho Hna Hno. rewrite Ho. cbn [fst transformOrder Order_userId].
    unfold canAccessResource, isAdmin.
    rewrite (bool_decide_eq_false_2 _ Hna).
    rewrite bool_decide_eq_false_2 by (apply not_eq_sym, Hno). reflexivity. }
  split; reflexivity.
Qed.

(** X7.  The order [createOrder] returns is the one [getOrderById] reads back,
    and the route shows it to the user who placed it and refuses it to another
    customer. *)
Theorem createOrder_then_read userId items s order s' :
  createOrder userId items s = (Ok order, s') →
  getOrderById (Order_id order) s' = (Ok (Some order), s')
  ∧ Order_userId order = userId
  ∧ (∀ user, au_userId user = userId →
       GET_api_orders_id (Some user) (Order_id order) s' = (Json 200 order, s'))
  ∧ (∀ user, au_userId user ≠ userId → au_role user = CUSTOMER →
       response_status (fst (GET_api_orders_id (Some user) (Order_id order) s')) = 403).
Proof.
  intros Hc. apply createOrder_Ok in Hc
    as (lines & _ & _ & _ & _ & _ & Horders & _ & -> & _).
  cbn [transformOrder Order_id Order_userId pending_order order_userId].
  unfold GET_api_orders_id. rewrite getOrderById_unfold, Horders, lookup_insert_eq.
  split; [reflexivity|]. split; [reflexivity|].
  cbn [transformOrder Order_userId pending_order order_userId].
  unfold canAccessResource, isAdmin. split.
  - intros user Hu. rewrite Hu.
    rewrite (bool_decide_eq_true_2 (userId = userId)) by reflexivity.
    rewrite orb_true_r. reflexivity.
  - intros user Hne Hrole. rewrite Hrole.
    rewrite bool_decide_eq_false_2 by discriminate.
    rewrite bool_decide_eq_false_2 by assumption. reflexivity.
Qed.

(** ** Login *)

Lemma loginUser_unfold dto s :
  loginUser dto s =
  match first_with_email (lg_email dto) (users s) with
  | None => (Throw "Invalid email or password", s)
  | Some prismaUser =>
      if comparePassword (lg_password dto) (user_password (snd prismaUser))
      then (Ok {| ar_token := generateToken (fst prismaUser) (user_email (snd prismaUser))
                                (user_role (snd prismaUser));
                  ar_tokenType := "Bearer";
                  ar_expiresIn := getTokenExpiresIn;
                  ar_user := transformUser prismaUser |}, s)
      else (Throw "Invalid email or password", s)
  end.
Proof.
  unfold loginUser, bind, user_findUnique_email, throw, ret.
  destruct (first_with_email _ _) as [pu|]; [|reflexivity].
  destruct (comparePassword _ _); reflexivity.
Qed.

(** X8.  [loginUser] never changes the store.  It fails with one and the same
    message, for an e-mail no user has and for a password that does not match
    the stored hash alike.  It succeeds only for a stored user with that
    e-mail whose hash matches, and then returns that user, without the hash,
    and a token made for that user's id, e-mail and role.  The login route
    changes nothing either and answers every failure of [loginUser] with 401
    and the same message. *)
Theorem loginUser_cases dto s :
  snd (loginUser dto s) = s
  ∧ (∀ m, fst (loginUser dto s) = Throw m → m = "Invalid email or password")
  ∧ (∀ r, fst (loginUser dto s) = Ok r →
       ∃ id u, users s !! id = Some u
               ∧ user_email u = lg_email dto
               ∧ comparePassword (lg_password dto) (user_password u) = true
               ∧ ar_user r = transformUser (id, u)
               ∧ ar_token r = generateToken id (user_email u) (user_role u))
  ∧ ((∀ id u, users s !! id = Some u → user_email u ≠ lg_email dto) →
     fst (loginUser dto s) = Throw "Invalid email or password")
  ∧ (∀ id u, emails_unique s → users s !! id = Some u → user_email u = lg_email dto →
       comparePassword (lg_password dto) (user_password u) = false →
       fst (loginUser dto s) = Throw "Invalid email or password")
  ∧ (∀ body, snd (POST_api_login body s) = s)
  ∧ (∀ body status error message,
       fst (POST_api_login body s) = ErrorJson status error message →
       (status = 400 ∧ (lb_email body = EmptyString ∨ lb_password body = EmptyString))
       ∨ (status = 401 ∧ message = "Invalid email or password")).
Proof.
  rewrite loginUser_unfold.
  split; [|split; [|split; [|split; [|split; [|split]]]]].
  - destruct (first_with_email _ _) as [pu|]; [|reflexivity].
    destruct (comparePassword _ _); reflexivity.
  - intros m. destruct (first_with_email _ _) as [pu|]; [|now intros [= <-]].
    destruct (comparePassword _ _); [discriminate|now intros [= <-]].
  - intros r. destruct (first_with_email _ _) as [[id u]|] eqn:Hf; [|discriminate].
    cbn [fst snd]. destruct (comparePassword _ _) eqn:Hp; [|discriminate].
    intros [= <-]. apply first_with_email_Some in Hf as [Hu He].
    exists id, u. done.
  - intros Hnone. now rewrite (proj2 (first_with_email_None _ _) Hnone).
  - intros id u Huniq Hu He Hp.
    rewrite (first_with_email_unique (lg_email dto) (users s) id u); [|..|exact Hu|exact He].
    + cbn [snd]. now rewrite Hp.
    + intros id' u' Hu' He'. apply (Huniq id' id u' u Hu' Hu). congruence.
  - intros body. unfold POST_api_login, bad_request.
    destruct (_ || _); [reflexivity|]. rewrite loginUser_unfold.
    destruct (first_with_email _ _) as [pu|]; [|reflexivity].
    destruct (comparePassword _ _); reflexivity.
  - intros body status error message. unfold POST_api_login, bad_request.
    destruct (_ || _) eqn:Hmiss.
    + intros [= <- _ _]. left. split; [reflexivity|].
      apply orb_true_iff in Hmiss as [H|H]; apply bool_decide_eq_true in H; auto.
    + rewrite loginUser_unfold.
      destruct (first_with_email _ _) as [pu|].
      * destruct (comparePassword _ _); [discriminate|]. intros [= <- _ <-]. now right.
      * intros [= <- _ <-]. now right.
Qed.

(** ** Registration, continued *)

Lemma first_with_email_insert_new email (us : gmap string User) id u :
  first_with_email email us = None → user_email u = email →
  first_with_email email (<[id:=u]> us) = Some (id, u).
Proof.
  intros Hnone He. apply first_with_email_unique; [|apply lookup_insert_eq|exact He].
  intros id' u' Hu' He'. destruct (decide (id = id')) as [->|Hne]; [reflexivity|].
  rewrite lookup_insert_ne in Hu' by assumption.
  destruct (proj1 (first_with_email_None _ _) Hnone id' u' Hu' He').
Qed.

(** X9.  After a successful [registerUser], [loginUser] with the same e-mail
    and password succeeds, given that the password matches its own hash, and
    returns the same user, a CUSTOMER; with a password that does not match the
    hash it fails; and a second [registerUser] with that e-mail is refused
    with "Email already registered", answered 409 by the route, and changes
    nothing.  [getUserById], [getUserByEmail] and the profile route read the
    new user back. *)
Theorem registerUser_then_loginUser dto s r s' :
  registerUser dto s = (Ok r, s') →
  (comparePassword (cu_password dto) (hashPassword (cu_password dto)) = true →
   ∃ r', loginUser {| lg_email := cu_email dto; lg_password := cu_password dto |} s'
         = (Ok r', s')
         ∧ ar_user r' = ar_user r
         ∧ api_user_role (ar_user r') = CUSTOMER)
  ∧ (∀ password,
       comparePassword password (hashPassword (cu_password dto)) = false →
       loginUser {| lg_email := cu_email dto; lg_password := password |} s'
       = (Throw "Invalid email or password", s'))
  ∧ (∀ dto2, cu_email dto2 = cu_email dto →
       registerUser dto2 s' = (Throw "Email already registered", s'))
  ∧ POST_api_register_catch "Email already registered"
    = ErrorJson 409 "Conflict" "Email already registered"
  ∧ getUserById (api_user_id (ar_user r)) s' = (Ok (Some (ar_user r)), s')
  ∧ getUserByEmail (cu_email dto) s' = (Ok (Some (ar_user r)), s')
  ∧ (∀ user, au_userId user = api_user_id (ar_user r) →
       GET_api_users_me (Some user) s' = (Json 200 (ar_user r), s')).
Proof.
  rewrite registerUser_unfold.
  destruct (first_with_email (cu_email dto) (users s)) eqn:Hnone; [discriminate|].
  intros [= <- <-].
  pose proof (first_with_email_insert_new (cu_email dto) (users s)
                (fresh (dom (users s)))
                {| user_name := cu_name dto; user_email := cu_email dto;
                   user_password := hashPassword (cu_password dto);
                   user_role := CUSTOMER |} Hnone eq_refl) as Hfound.
  split; [|split; [|split; [|split; [|split; [|split]]]]].
  - intros Hp. rewrite loginUser_unfold. cbn [lg_email lg_password users set_users].
    rewrite Hfound. cbn [snd user_password]. rewrite Hp. eexists. split; [reflexivity|].
    split; reflexivity.
  - intros password Hp. rewrite loginUser_unfold. cbn [lg_email lg_password users set_users].
    rewrite Hfound. cbn [snd user_password]. now rewrite Hp.
  - intros dto2 He. rewrite registerUser_unfold. cbn [users set_users].
    rewrite He, Hfound. reflexivity.
  - reflexivity.
  - unfold getUserById. cbn [users set_users ar_user api_user_id].
    rewrite lookup_insert_eq. reflexivity.
  - unfold getUserByEmail, bind, user_findUnique_email, ret. cbn [users set_users].
    rewrite Hfound. reflexivity.
  - intros user Hu. unfold GET_api_users_me, getUserById. rewrite Hu.
    cbn [users set_users ar_user api_user_id]. rewrite lookup_insert_eq. reflexivity.
Qed.

(** ** E-mail addresses stay unique *)

Lemma handle_users (r : Request price) s :
  users (handle r s) = users s
  ∨ ∃ dto r', registerUser dto s = (Ok r', handle r s).
Proof.
  destruct r as [body|user body|user id body|user id|user items
                |user id status|orderId userId|bookId quantity]; unfold handle.
  - destruct (POST_api_register_cases body s)
      as [(dto & r & _ & _ & _ & Hr & ->)|(st & e & m & ->)]; cbn [snd];
      [right; eauto|now left].
  - left. destruct (POST_api_books_state user body s) as [->|(data & _ & ->)]; reflexivity.
  - left. destruct (PUT_api_books_id_state user id body s) as [->|(b & _ & _ & ->)];
      reflexivity.
  - left. destruct (DELETE_api_books_id_state user id s) as [->|(_ & ->)]; reflexivity.
  - left. destruct (POST_api_orders_state user items s) as [->|(userId & order & Hc)];
      [reflexivity|].
    now apply createOrder_Ok in Hc as (_ & _ & _ & _ & _ & Hu & _).
  - left. destruct (PUT_api_orders_id_state user id status s) as [->|(o & st & _ & ->)];
      reflexivity.
  - left. destruct (cancelOrder orderId userId s) as [[order|m] s'] eqn:Hc; cbn [snd].
    + now apply cancelOrder_Ok in Hc as (o & _ & _ & _ & _ & Hu).
    + now apply cancelOrder_Throw in Hc as ->.
  - left. rewrite decrementStock_unfold.
    destruct (books s !! bookId) as [b|]; [|reflexivity].
    destruct (book_stockQuantity b <? quantity); reflexivity.
Qed.

Lemma registerUser_emails_unique dto s r s' :
  registerUser dto s = (Ok r, s') → emails_unique s → emails_unique s'.
Proof.
  rewrite registerUser_unfold.
  destruct (first_with_email (cu_email dto) (users s)) eqn:Hnone; [discriminate|].
  intros [= _ <-] Huniq id1 id2 u1 u2. cbn [users set_users].
  pose proof (proj1 (first_with_email_None _ _) Hnone) as Hfree.
  destruct (decide (fresh (dom (users s)) = id1)) as [<-|H1];
    destruct (decide (fresh (dom (users s)) = id2)) as [<-|H2];
    rewrite ?lookup_insert_eq, ?lookup_insert_ne by assumption.
  - reflexivity.
  - intros [= <-] Hu2 He. cbn in He. destruct (Hfree id2 u2 Hu2). now symmetry.
  - intros Hu1 [= <-] He. cbn in He. destruct (Hfree id1 u1 Hu1 He).
  - apply Huniq.
Qed.

(** X10.  In every state the API reaches, no two users share an e-mail
    address. *)
Theorem reachable_emails_unique s : reachable s → emails_unique s.
Proof.
  induction 1 as [|r s _ IH].
  - intros id1 id2 u1 u2 H1. cbn in H1. now rewrite lookup_empty in H1.
  - destruct (handle_users r s) as [Hu|(dto & r' & Hr)].
    + intros id1 id2 u1 u2. rewrite Hu. apply IH.
    + exact (registerUser_emails_unique _ _ _ _ Hr IH).
Qed.

(** ** Books: create, read, update, delete *)

Lemma set_books_id (m : gmap string (Book price)) s :
  books s = m → set_books (λ _, m) s = s.
Proof. intros <-. now destruct s. Qed.

Lemma getBookById_unfold id s : getBookById id s = (Ok (books s !! id), s).
Proof. reflexivity. Qed.

(** X11.  [createBook] refuses an ISBN some book has and then changes nothing.
    Otherwise it stores a book with exactly the fields of the DTO under an id
    that was free: [getBookById] and the route read that book back, every
    other book reads as before, and orders, line items and users are left
    alone. *)
Theorem createBook_then_read (dto : CreateBookDTO price) s :
  (∀ id b, books s !! id = Some b → book_isbn b = cb_isbn dto →
     createBook dto s = (Throw "A book with this ISBN already exists", s))
  ∧ ((∀ id b, books s !! id = Some b → book_isbn b ≠ cb_isbn dto) →
     ∃ id, createBook dto s
           = (Ok (id, book_of_dto dto), set_books (insert id (book_of_dto dto)) s))
  ∧ (∀ id b s', createBook dto s = (Ok (id, b), s') →
       b = book_of_dto dto
       ∧ books s !! id = None
       ∧ getBookById id s' = (Ok (Some b), s')
       ∧ GET_api_books_id id s' = (Json 200 (id, b), s')
       ∧ (∀ id', id' ≠ id → getBookById id' s' = (Ok (books s !! id'), s'))
       ∧ orders s' = orders s ∧ orderItems s' = orderItems s ∧ users s' = users s).
Proof.
  rewrite createBook_unfold. split; [|split].
  - intros id b Hb Hisbn.
    destruct (first_with_isbn (cb_isbn dto) (books s)) eqn:Hf; [reflexivity|].
    destruct (proj1 (first_with_isbn_None _ _) Hf id b Hb Hisbn).
  - intros Hfree. rewrite (proj2 (first_with_isbn_None _ _) Hfree).
    eexists. reflexivity.
  - intros id b s'.
    destruct (first_with_isbn (cb_isbn dto) (books s)); [discriminate|].
    unfold book_create. intros [= <- <- <-].
    split; [reflexivity|]. split; [apply not_elem_of_dom, is_fresh|].
    unfold GET_api_books_id. rewrite !getBookById_unfold. cbn [books set_books].
    rewrite lookup_insert_eq. split; [reflexivity|]. split; [reflexivity|].
    split; [|done]. intros id' Hne. rewrite getBookById_unfold. cbn [books set_books].
    now rewrite lookup_insert_ne by (apply not_eq_sym, Hne).
Qed.

(** X12.  Deleting a book right after creating it succeeds and gives back the
    very store there was before, when every line item refers to a stored book.
    *)
Theorem createBook_then_deleteBook (dto : CreateBookDTO price) s id b s' :
  items_reference_books s →
  createBook dto s = (Ok (id, b), s') →
  deleteBook id s' = (Ok tt, s).
Proof.
  intros Href. rewrite createBook_unfold.
  destruct (first_with_isbn (cb_isbn dto) (books s)); [discriminate|].
  unfold book_create. intros [= <- <- <-].
  assert (Hfree : books s !! fresh (dom (books s)) = None)
    by apply not_elem_of_dom, is_fresh.
  rewrite deleteBook_unfold. cbn [books set_books orderItems]. rewrite lookup_insert_eq.
  assert (Hcount : length (List.filter
                             (λ r, bool_decide (oi_bookId r = fresh (dom (books s))))
                             (orderItems s)) = O).
  { apply count_none, Forall_forall. intros r Hr. apply bool_decide_eq_false_2.
    intros Heq. destruct (Href r Hr) as [b' Hb']. rewrite Heq, Hfree in Hb'.
    discriminate. }
  rewrite Hcount. cbn. f_equal. destruct s as [bs us os ois]; cbn in *.
  unfold set_books; cbn. f_equal. rewrite delete_insert_eq. now apply delete_id.
Qed.

Lemma isbn_changes_Some (dto : UpdateBookDTO price) b i :
  isbn_changes dto b = Some i →
  ub_isbn dto = Some i ∧ i ≠ EmptyString ∧ i ≠ book_isbn b
  ∧ book_isbn (updateData dto b) = i.
Proof.
  unfold isbn_changes. destruct (ub_isbn dto) as [i'|] eqn:Hi; [|discriminate].
  do 2 (case_bool_decide; [discriminate|]). intros [= <-].
  unfold updateData. cbn. now rewrite Hi.
Qed.

(** The code's own test comes first; the unique index then has the last
    word, which it needs when the DTO sets the ISBN to the empty string. *)
Lemma updateBook_unfold id (dto : UpdateBookDTO price) s :
  updateBook id dto s =
  match books s !! id with
  | None => (Throw "Book not found", s)
  | Some b =>
      match isbn_changes dto b with
      | Some i =>
          if bool_decide (is_Some (first_with_isbn i (books s)))
          then (Throw "A book with this ISBN already exists", s)
          else (Ok (updateData dto b), set_books (insert id (updateData dto b)) s)
      | None =>
          if isbn_taken b (updateData dto b) (books s)
          then (Throw UNIQUE_CONSTRAINT_FAILED, s)
          else (Ok (updateData dto b), set_books (insert id (updateData dto b)) s)
      end
  end.
Proof.
  unfold updateBook, bind, book_findUnique, book_findUnique_isbn, book_update, throw, ret.
  destruct (books s !! id) as [b|] eqn:Hb; [|reflexivity].
  destruct (isbn_changes dto b) as [i|] eqn:Hi; cbn.
  - apply isbn_changes_Some in Hi as (_ & _ & _ & Hnew).
    case_bool_decide as Htaken; cbn; [reflexivity|]. rewrite Hb.
    unfold isbn_taken. rewrite Hnew, (bool_decide_eq_false_2 _ Htaken), andb_false_r.
    reflexivity.
  - now rewrite Hb.
Qed.

Lemma updateData_twice (dto : UpdateBookDTO price) b :
  updateData dto (updateData dto b) = updateData dto b.
Proof.
  unfold updateData; cbn.
  destruct (ub_title dto), (ub_authors dto), (ub_genre dto), (ub_isbn dto),
    (ub_price dto), (ub_description dto), (ub_stockQuantity dto), (ub_imageUrl dto);
    reflexivity.
Qed.

Lemma updateData_no_update b : updateData no_update b = b.
Proof. destruct b as [? ? ? ? ? [?|] ? [?|]]; reflexivity. Qed.

Lemma isbn_changes_after (dto : UpdateBookDTO price) b :
  isbn_changes dto (updateData dto b) = None.
Proof.
  unfold isbn_changes. cbn. destruct (ub_isbn dto) as [i|]; [|reflexivity]. cbn.
  case_bool_decide; [reflexivity|]. now rewrite bool_decide_eq_true_2.
Qed.

(** X13.  An update of a book, of its price too, leaves every stored order
    and every stored line item, with its unit price, its subtotal and the
    order's total, as it was; users and the other books are untouched as
    well.  The same holds of the route. *)
Theorem updateBook_keeps_orders id (dto : UpdateBookDTO price) s :
  orders (snd (updateBook id dto s)) = orders s
  ∧ orderItems (snd (updateBook id dto s)) = orderItems s
  ∧ users (snd (updateBook id dto s)) = users s
  ∧ (∀ id', id' ≠ id → books (snd (updateBook id dto s)) !! id' = books s !! id')
  ∧ (∀ user body,
       orders (snd (PUT_api_books_id user id body s)) = orders s
       ∧ orderItems (snd (PUT_api_books_id user id body s)) = orderItems s
       ∧ users (snd (PUT_api_books_id user id body s)) = users s
       ∧ ∀ id', id' ≠ id →
           books (snd (PUT_api_books_id user id body s)) !! id' = books s !! id').
Proof.
  assert (Hkeep : ∀ s', s' = s ∨ (∃ b', s' = set_books (insert id b') s) →
            orders s' = orders s ∧ orderItems s' = orderItems s ∧ users s' = users s
            ∧ (∀ id', id' ≠ id → books s' !! id' = books s !! id')).
  { intros s' [->|[b' ->]]; [done|]. repeat split; try reflexivity.
    intros id' Hne. cbn. now rewrite lookup_insert_ne by (apply not_eq_sym, Hne). }
  assert (Hs : snd (updateBook id dto s) = s
               ∨ ∃ b', snd (updateBook id dto s) = set_books (insert id b') s).
  { destruct (updateBook_state id dto s) as [H|(b & _ & H)]; [now left|right; eauto]. }
  destruct (Hkeep _ Hs) as (H1 & H2 & H3 & H4).
  do 4 (split; [assumption|]).
  intros user body. apply Hkeep.
  destruct (PUT_api_books_id_state user id body s) as [H|(b & _ & _ & H)];
    [now left|right; eauto].
Qed.

(** X14.  [updateBook] replaces the fields the DTO gives and keeps the others;
    doing the same update again changes nothing more and returns the same
    book; an update that gives no field leaves the store as it is and returns
    the book unchanged; an id that is not stored is refused with "Book not
    found". *)
Theorem updateBook_again id (dto : UpdateBookDTO price) s :
  (books s !! id = None → updateBook id dto s = (Throw "Book not found", s))
  ∧ (∀ b s', updateBook id dto s = (Ok b, s') →
       (∃ b0, books s !! id = Some b0 ∧ b = updateData dto b0)
       ∧ getBookById id s' = (Ok (Some b), s')
       ∧ updateBook id dto s' = (Ok b, s'))
  ∧ (∀ b, books s !! id = Some b → updateBook id no_update s = (Ok b, s))
  ∧ (∀ m s', updateBook id dto s = (Throw m, s') → s' = s).
Proof.
  split; [|split; [|split]].
  - intros Hnone. now rewrite updateBook_unfold, Hnone.
  - intros b s' Hup.
    assert (Hres : ∃ b0, books s !! id = Some b0 ∧ b = updateData dto b0
                         ∧ s' = set_books (insert id b) s).
    { rewrite updateBook_unfold in Hup.
      destruct (books s !! id) as [b0|]; [|discriminate]. exists b0.
      destruct (isbn_changes dto b0) as [i|].
      - destruct (bool_decide _); [discriminate|]. now injection Hup as <- <-.
      - destruct (isbn_taken _ _ _); [discriminate|]. now injection Hup as <- <-. }
    destruct Hres as (b0 & Hb0 & -> & ->). split; [eauto|].
    rewrite getBookById_unfold. cbn [books set_books]. rewrite lookup_insert_eq.
    split; [reflexivity|].
    rewrite updateBook_unfold. cbn [books set_books]. rewrite lookup_insert_eq.
    rewrite isbn_changes_after, updateData_twice.
    rewrite isbn_taken_same by reflexivity. f_equal.
    destruct s as [bs us os ois]; unfold set_books; cbn. f_equal.
    apply insert_insert_eq.
  - intros b Hb. rewrite updateBook_unfold, Hb. cbn [isbn_changes no_update ub_isbn].
    rewrite updateData_no_update. rewrite isbn_taken_same by reflexivity. f_equal.
    destruct s as [bs us os ois]; unfold set_books; cbn in *. f_equal.
    now apply insert_id.
  - intros m s'. rewrite updateBook_unfold.
    destruct (books s !! id) as [b0|]; [|congruence].
    destruct (isbn_changes dto b0) as [i|].
    + destruct (bool_decide _); [congruence|discriminate].
    + destruct (isbn_taken _ _ _); [congruence|discriminate].
Qed.

(** ** ISBNs stay unique *)

Lemma isbns_unique_insert s id bnew :
  (∀ id' b', id' ≠ id → books s !! id' = Some b' → book_isbn b' ≠ book_isbn bnew) →
  isbns_unique s → isbns_unique (set_books (insert id bnew) s).
Proof.
  intros Hother Huniq id1 id2 b1 b2. cbn [books set_books].
  destruct (decide (id = id1)) as [<-|H1]; destruct (decide (id = id2)) as [<-|H2];
    rewrite ?lookup_insert_eq, ?lookup_insert_ne by assumption.
  - reflexivity.
  - intros [= <-] Hb2 He. destruct (Hother id2 b2); [now apply not_eq_sym|exact Hb2|].
    now symmetry.
  - intros Hb1 [= <-] He. destruct (Hother id1 b1); [now apply not_eq_sym|exact Hb1|].
    exact He.
  - apply Huniq.
Qed.

Lemma isbns_unique_insert_same s id b b' :
  books s !! id = Some b → book_isbn b' = book_isbn b →
  isbns_unique s → isbns_unique (set_books (insert id b') s).
Proof.
  intros Hb He Huniq. apply isbns_unique_insert; [|exact Huniq].
  intros id' b0 Hne Hb0 He0. apply Hne.
  apply (Huniq id' id b0 b Hb0 Hb); congruence.
Qed.

Lemma isbns_unique_fmap s s' (f : string → Book price → Book price) :
  (∀ id, books s' !! id = f id <$> books s !! id) →
  (∀ id b, book_isbn (f id b) = book_isbn b) →
  isbns_unique s → isbns_unique s'.
Proof.
  intros Hbooks Hisbn Huniq id1 id2 b1 b2. rewrite !Hbooks.
  destruct (books s !! id1) as [b1'|] eqn:H1; [|discriminate].
  destruct (books s !! id2) as [b2'|] eqn:H2; [|discriminate].
  cbn. intros [= <-] [= <-]. rewrite !Hisbn. now apply Huniq.
Qed.

Lemma POST_api_books_created user (body : PostBookBody price) s :
  snd (POST_api_books user body s) = s
  ∨ ∃ dto, first_with_isbn (cb_isbn dto) (books s) = None
           ∧ snd (POST_api_books user body s)
             = set_books (insert (fresh (dom (books s))) (book_of_dto dto)) s.
Proof.
  unfold POST_api_books, unauthorized, forbidden, bad_request.
  destruct user as [user|]; [|now left].
  destruct (requireAdmin user); [|now left].
  destruct (pb_authors body); [|now left].
  destruct (pb_price body); [|now left].
  destruct (pb_stockQuantity body) as [q|]; [|now left].
  destruct (_ || _); [now left|]. cbn [cb_price cb_stockQuantity].
  destruct (price_negative _); [now left|].
  destruct (q <? 0); [now left|].
  rewrite createBook_unfold. cbn [cb_isbn].
  destruct (first_with_isbn _ _) eqn:Hf; [now left|].
  right. eexists {| cb_isbn := pb_isbn body |}. split; [exact Hf|]. reflexivity.
Qed.

(** An update that succeeds leaves the ISBN as it is or sets one that no
    book has. *)
Lemma updateBook_isbn_ok id (dto : UpdateBookDTO price) s :
  snd (updateBook id dto s) = s
  ∨ ∃ b, books s !! id = Some b
         ∧ (book_isbn (updateData dto b) = book_isbn b
            ∨ first_with_isbn (book_isbn (updateData dto b)) (books s) = None)
         ∧ snd (updateBook id dto s) = set_books (insert id (updateData dto b)) s.
Proof.
  rewrite updateBook_unfold.
  destruct (books s !! id) as [b|] eqn:Hb; [|now left].
  destruct (isbn_changes dto b) as [i|] eqn:Hi.
  - apply isbn_changes_Some in Hi as (_ & _ & _ & Hnew).
    destruct (first_with_isbn i (books s)) eqn:Hf.
    + rewrite bool_decide_eq_true_2 by eauto. now left.
    + rewrite bool_decide_eq_false_2 by (intros [? ?]; discriminate).
      right. exists b. rewrite Hnew. auto.
  - unfold isbn_taken. case_bool_decide as Hsame; cbn [negb andb].
    + right. exists b. auto.
    + case_bool_decide as Htaken; [now left|]. right. exists b.
      split; [reflexivity|]. split; [|reflexivity]. right.
      destruct (first_with_isbn _ _); [destruct Htaken; eauto|reflexivity].
Qed.

Lemma handle_isbns_unique (r : Request price) s :
  isbns_unique s → isbns_unique (handle r s).
Proof.
  intros Huniq.
  destruct r as [body|user body|user id body|user id|user items
                |user id status|orderId userId|bookId quantity]; unfold handle.
  - intros id1 id2 b1 b2.
    destruct (POST_api_register_cases body s)
      as [(dto & r & _ & _ & _ & _ & ->)|(st & e & m & ->)]; cbn [snd]; [|apply Huniq].
    destruct (registerUser_effect dto s) as (-> & _). apply Huniq.
  - destruct (POST_api_books_created user body s) as [->|(dto & Hf & ->)];
      [exact Huniq|].
    apply isbns_unique_insert; [|exact Huniq].
    intros id' b' _ Hb' He. destruct (proj1 (first_with_isbn_None _ _) Hf id' b' Hb' He).
  - assert (Hput : snd (PUT_api_books_id user id body s) = s
                   ∨ snd (PUT_api_books_id user id body s)
                     = snd (updateBook id (put_fields body) s)).
    { unfold PUT_api_books_id, unauthorized, forbidden, bad_request.
      destruct user as [user|]; [|now left].
      destruct (requireAdmin user); [|now left].
      destruct (body_has_no_keys body); [now left|].
      destruct (match ub_price _ with Some _ => _ | None => _ end); [now left|].
      destruct (match ub_stockQuantity _ with Some _ => _ | None => _ end); [now left|].
      right. destruct (updateBook id (put_fields body) s) as [[o|m] s1]; reflexivity. }
    destruct Hput as [->| ->]; [exact Huniq|].
    destruct (updateBook_isbn_ok id (put_fields body) s) as [->|(b & Hb & Hok & ->)];
      [exact Huniq|].
    destruct Hok as [Hsame|Hfree].
    + now apply (isbns_unique_insert_same s id b).
    + apply isbns_unique_insert; [|exact Huniq].
      intros id' b' _ Hb' He.
      destruct (proj1 (first_with_isbn_None _ _) Hfree id' b' Hb' He).
  - destruct (DELETE_api_books_id_state user id s) as [->|(_ & ->)]; [exact Huniq|].
    intros id1 id2 b1 b2. cbn [books set_books]. intros H1 H2.
    apply lookup_delete_Some in H1 as [_ H1]. apply lookup_delete_Some in H2 as [_ H2].
    now apply Huniq.
  - destruct (POST_api_orders_state user items s) as [->|(userId & order & Hc)];
      [exact Huniq|].
    apply createOrder_Ok in Hc as (_ & _ & _ & _ & Hbooks & _).
    exact (isbns_unique_fmap s _ _ Hbooks (λ _ _, eq_refl) Huniq).
  - destruct (PUT_api_orders_id_state user id status s) as [->|(o & st & _ & ->)];
      exact Huniq.
  - destruct (cancelOrder orderId userId s) as [[order|m] s'] eqn:Hc; cbn [snd].
    + apply cancelOrder_Ok in Hc as (o & _ & Hbooks & _).
      exact (isbns_unique_fmap s _ _ Hbooks (λ _ _, eq_refl) Huniq).
    + now apply cancelOrder_Throw in Hc as ->.
  - rewrite decrementStock_unfold.
    destruct (books s !! bookId) as [b|] eqn:Hb; [|exact Huniq].
    destruct (book_stockQuantity b <? quantity); [exact Huniq|]. cbn [snd].
    now apply (isbns_unique_insert_same s bookId b).
Qed.

(** X15.  In every state the API reaches, no two books share an ISBN: the
    look-ups of [createBook] and [updateBook] and, where [updateBook] skips
    its own, the unique index keep it so. *)
Theorem reachable_isbns_unique s : reachable s → isbns_unique s.
Proof.
  induction 1 as [|r s _ IH]; [|now apply handle_isbns_unique].
  intros id1 id2 b1 b2 H1. cbn in H1. now rewrite lookup_empty in H1.
Qed.

(** ** Who may write *)

(** X16.  A caller who is not an admin cannot write through the book routes or
    the order status route: without credentials the answer is 401, with the
    credentials of a non-admin 403, and the store is unchanged. *)
Theorem non_admin_cannot_write (user : option AuthenticatedUser) s :
  (∀ u, user = Some u → au_role u ≠ ADMIN) →
  (∀ body, snd (POST_api_books user body s) = s
           ∧ response_status (fst (POST_api_books user body s))
             = match user with Some _ => 403 | None => 401 end)
  ∧ (∀ id body, snd (PUT_api_books_id user id body s) = s
                ∧ response_status (fst (PUT_api_books_id user id body s))
                  = match user with Some _ => 403 | None => 401 end)
  ∧ (∀ id, snd (@DELETE_api_books_id price user id s) = s
           ∧ response_status (fst (@DELETE_api_books_id price user id s))
             = match user with Some _ => 403 | None => 401 end)
  ∧ (∀ id status, snd (@PUT_api_orders_id price user id status s) = s
                  ∧ response_status (fst (@PUT_api_orders_id price user id status s))
                    = match user with Some _ => 403 | None => 401 end).
Proof.
  intros Hrole.
  unfold POST_api_books, PUT_api_books_id, DELETE_api_books_id, PUT_api_orders_id,
    unauthorized, forbidden.
  destruct user as [u|]; [|done].
  assert (Hreq : requireAdmin u = Throw "Forbidden: Admin access required").
  { unfold requireAdmin, isAdmin.
    now rewrite (bool_decide_eq_false_2 _ (Hrole u eq_refl)). }
  rewrite Hreq. done.
Qed.

(** ** checkStockAvailability and decrementStock *)

Lemma checkStockAvailability_unfold bookId quantity s :
  checkStockAvailability bookId quantity s
  = match books s !! bookId with
    | None => (Throw "Book not found", s)
    | Some b => (Ok (quantity <=? book_stockQuantity b), s)
    end.
Proof.
  unfold checkStockAvailability, bind, book_findUnique, throw, ret.
  destruct (books s !! bookId); reflexivity.
Qed.

(** X17.  [checkStockAvailability] only reads.  With no other request in
    between it says yes exactly when [decrementStock] of the same quantity
    succeeds, no exactly when that fails with "Insufficient stock", and throws
    "Book not found" exactly when that does; after a successful
    [decrementStock] it says yes to a further quantity exactly when that is at
    most what is left. *)
Theorem checkStockAvailability_decrementStock bookId quantity s :
  snd (checkStockAvailability bookId quantity s) = s
  ∧ (fst (checkStockAvailability bookId quantity s) = Ok true
     ↔ ∃ s', decrementStock bookId quantity s = (Ok tt, s'))
  ∧ (fst (checkStockAvailability bookId quantity s) = Ok false
     ↔ decrementStock bookId quantity s = (Throw "Insufficient stock", s))
  ∧ (fst (checkStockAvailability bookId quantity s) = Throw "Book not found"
     ↔ decrementStock bookId quantity s = (Throw "Book not found", s))
  ∧ (∀ b s' more,
       books s !! bookId = Some b →
       decrementStock bookId quantity s = (Ok tt, s') →
       fst (checkStockAvailability bookId more s')
       = Ok (more <=? book_stockQuantity b - quantity)).
Proof.
  rewrite checkStockAvailability_unfold, decrementStock_unfold.
  destruct (books s !! bookId) as [b|] eqn:Hb; cbn [fst snd].
  - destruct (book_stockQuantity b <? quantity) eqn:Hlt.
    + apply Z.ltb_lt in Hlt. rewrite (proj2 (Z.leb_gt _ _)) by lia.
      split; [reflexivity|]. split; [split; [discriminate|intros [s' H]; discriminate]|].
      split; [done|]. split; [split; discriminate|]. intros b' s' more _ H. discriminate.
    + apply Z.ltb_ge in Hlt. rewrite (proj2 (Z.leb_le _ _)) by lia.
      split; [reflexivity|]. split; [split; eauto|].
      split; [split; discriminate|]. split; [split; discriminate|].
      intros b' s' more [= <-] [= <-]. rewrite checkStockAvailability_unfold.
      cbn [books set_books]. rewrite lookup_insert_eq. reflexivity.
  - split; [reflexivity|]. split; [split; [discriminate|intros [s' H]; discriminate]|].
    split; [split; discriminate|]. split; [done|]. intros b' s' more H. discriminate.
Qed.

(** ** Orders keep their totals *)

Lemma items_of_order_app id (rows1 rows2 : list (OrderItemRow price)) :
  items_of_order id (rows1 ++ rows2)
  = (items_of_order id rows1 ++ items_of_order id rows2)%list.
Proof.
  unfold items_of_order. induction rows1 as [|r rows1 IH]; cbn; [reflexivity|].
  destruct (bool_decide _); cbn; now rewrite IH.
Qed.

Lemma items_of_order_other id orderId (lines : list (OrderItemInput price)) :
  id ≠ orderId → items_of_order id (map (row_of_input orderId) lines) = [].
Proof.
  intros Hne. unfold items_of_order. induction lines as [|l lines IH]; cbn; [reflexivity|].
  rewrite bool_decide_eq_false_2 by (apply not_eq_sym, Hne). exact IH.
Qed.

Lemma totals_consistent_frame s s' :
  orders s' = orders s → orderItems s' = orderItems s →
  totals_consistent s → totals_consistent s'.
Proof. intros Ho Hi H id o. rewrite Ho, Hi. apply H. Qed.

Lemma totals_consistent_status s id o st :
  orders s !! id = Some o → totals_consistent s →
  totals_consistent (set_orders (insert id (set_orderStatus st o)) s).
Proof.
  intros Ho H id' o'. cbn [orders set_orders orderItems].
  destruct (decide (id = id')) as [<-|Hne].
  - rewrite lookup_insert_eq. intros [= <-]. cbn. now apply H.
  - rewrite lookup_insert_ne by assumption. apply H.
Qed.

Lemma createOrder_totals_consistent userId items s order s' :
  createOrder userId items s = (Ok order, s') →
  items_reference_orders s → totals_consistent s → totals_consistent s'.
Proof.
  intros Hc Href H.
  apply createOrder_Ok in Hc as (lines & _ & _ & Hl & _ & _ & Horders & Hitems & _ & _).
  intros id o. rewrite Horders, Hitems.
  destruct (decide (fresh (dom (orders s)) = id)) as [<-|Hne].
  - rewrite lookup_insert_eq. intros [= <-]. cbn [pending_order order_totalPrice].
    rewrite items_of_order_fresh by assumption. now rewrite map_map.
  - rewrite lookup_insert_ne by assumption. intros Ho.
    rewrite items_of_order_app, items_of_order_other by (apply not_eq_sym, Hne).
    rewrite app_nil_r. now apply H.
Qed.

Lemma handle_totals_consistent (r : Request price) s :
  db_inv s → totals_consistent s → totals_consistent (handle r s).
Proof.
  intros Hinv Htot.
  destruct r as [body|user body|user id body|user id|user items
                |user id status|orderId userId|bookId quantity]; unfold handle.
  - destruct (POST_api_register_cases body s)
      as [(dto & r & _ & _ & _ & _ & ->)|(st & e & m & ->)]; cbn [snd]; [|exact Htot].
    destruct (registerUser_effect dto s) as (_ & Ho & Hi & _).
    now apply (totals_consistent_frame s).
  - destruct (POST_api_books_state user body s) as [->|(data & _ & ->)]; exact Htot.
  - destruct (PUT_api_books_id_state user id body s) as [->|(b & _ & _ & ->)]; exact Htot.
  - destruct (DELETE_api_books_id_state user id s) as [->|(_ & ->)]; exact Htot.
  - destruct (POST_api_orders_state user items s) as [->|(userId & order & Hc)];
      [exact Htot|].
    exact (createOrder_totals_consistent _ _ _ _ _ Hc (inv_orders s Hinv) Htot).
  - destruct (PUT_api_orders_id_state user id status s) as [->|(o & st & Ho & ->)];
      [exact Htot|]. now apply totals_consistent_status.
  - destruct (cancelOrder orderId userId s) as [[order|m] s'] eqn:Hc; cbn [snd].
    + apply cancelOrder_Ok in Hc as (o & Ho & _ & Horders & Hitems & _).
      pose proof (totals_consistent_status s orderId o CANCELLED Ho Htot) as H.
      intros id' o'. rewrite Horders, Hitems. apply H.
    + now apply cancelOrder_Throw in Hc as ->.
  - rewrite decrementStock_unfold.
    destruct (books s !! bookId) as [b|]; [|exact Htot].
    destruct (book_stockQuantity b <? quantity); exact Htot.
Qed.

(** X18.  In every state the API reaches, the total of every stored order is
    the sum of the subtotals of its line items, added in order from 0:
    status changes, cancellations and later price changes do not touch
    them. *)
Theorem reachable_totals_consistent s : reachable s → totals_consistent s.
Proof.
  induction 1 as [|r s Hr IH].
  - intros id o H. cbn in H. now rewrite lookup_empty in H.
  - apply handle_totals_consistent; [now apply reachable_inv|exact IH].
Qed.

(** ** Orders and their owners *)

Lemma orders_reference_users_frame s s' :
  orders s' = orders s → (∀ id, is_Some (users s !! id) → is_Some (users s' !! id)) →
  orders_reference_users s → orders_reference_users s'.
Proof. intros Ho Hu H id o. rewrite Ho. intros Hid. apply Hu. exact (H id o Hid). Qed.

Lemma orders_reference_users_status s id o st :
  orders s !! id = Some o → orders_reference_users s →
  orders_reference_users (set_orders (insert id (set_orderStatus st o)) s).
Proof.
  intros Ho H id' o'. cbn [orders set_orders users].
  destruct (decide (id = id')) as [<-|Hne].
  - rewrite lookup_insert_eq. intros [= <-]. cbn. exact (H id o Ho).
  - rewrite lookup_insert_ne by assumption. apply H.
Qed.

Lemma handle_orders_reference_users (r : Request price) s :
  orders_reference_users s → orders_reference_users (handle r s).
Proof.
  intros Href.
  destruct r as [body|user body|user id body|user id|user items
                |user id status|orderId userId|bookId quantity]; unfold handle.
  - destruct (POST_api_register_cases body s)
      as [(dto & r & _ & _ & _ & _ & ->)|(st & e & m & ->)]; cbn [snd]; [|exact Href].
    destruct (registerUser_effect dto s) as (_ & Ho & _).
    apply (orders_reference_users_frame s); [exact Ho| |exact Href].
    intros id. rewrite registerUser_unfold.
    destruct (first_with_email _ _); [done|]. cbn [snd users set_users].
    intros [u Hu]. destruct (decide (fresh (dom (users s)) = id)) as [<-|Hne].
    + rewrite lookup_insert_eq. eauto.
    + rewrite lookup_insert_ne by assumption. eauto.
  - destruct (POST_api_books_state user body s) as [->|(data & _ & ->)]; exact Href.
  - destruct (PUT_api_books_id_state user id body s) as [->|(b & _ & _ & ->)]; exact Href.
  - destruct (DELETE_api_books_id_state user id s) as [->|(_ & ->)]; exact Href.
  - destruct (POST_api_orders_state user items s) as [->|(userId & order & Hc)];
      [exact Href|].
    apply createOrder_Ok in Hc
      as (lines & _ & _ & _ & _ & Husers & Horders & _ & _ & _ & Hstored).
    intros id o. rewrite Horders, Husers.
    destruct (decide (fresh (dom (orders s)) = id)) as [<-|Hne].
    + rewrite lookup_insert_eq. intros [= <-]. exact Hstored.
    + rewrite lookup_insert_ne by assumption. apply Href.
  - destruct (PUT_api_orders_id_state user id status s) as [->|(o & st & Ho & ->)];
      [exact Href|]. now apply orders_reference_users_status.
  - destruct (cancelOrder orderId userId s) as [[order|m] s'] eqn:Hc; cbn [snd].
    + apply cancelOrder_Ok in Hc as (o & Ho & _ & Horders & _ & Husers).
      pose proof (orders_reference_users_status s orderId o CANCELLED Ho Href) as H.
      intros id' o'. rewrite Horders, Husers. apply H.
    + now apply cancelOrder_Throw in Hc as ->.
  - rewrite decrementStock_unfold.
    destruct (books s !! bookId) as [b|]; [|exact Href].
    destruct (book_stockQuantity b <? quantity); exact Href.
Qed.

(** X19.  In every state the API reaches, every stored order belongs to a
    stored user and every stored line item to a stored order. *)
Theorem reachable_references_stored s :
  reachable s → orders_reference_users s ∧ items_reference_orders s.
Proof.
  intros Hr. split; [|apply reachable_inv in Hr; apply Hr].
  induction Hr as [|r s _ IH]; [|now apply handle_orders_reference_users].
  intros id o H. cbn in H. now rewrite lookup_empty in H.
Qed.

(** ** cancelOrder, continued *)

Lemma cancelOrder_restore_missing (rows : list (OrderItemRow price)) s r :
  r ∈ rows → books s !! oi_bookId r = None →
  fst (cancelOrder_restore rows s) = Throw RECORD_NOT_FOUND.
Proof.
  revert s. induction rows as [|item rest IH]; intros s Hin Hnone; [inversion Hin|].
  rewrite cancelOrder_restore_cons.
  destruct (books s !! oi_bookId item) as [b|] eqn:Hb; [|reflexivity].
  apply elem_of_cons in Hin as [->|Hin]; [congruence|].
  apply IH; [exact Hin|]. cbn [books set_books].
  rewrite lookup_insert_ne; [exact Hnone|]. intros Heq. congruence.
Qed.

Lemma cancelOrder_runs orderId userId s o :
  orders s !! orderId = Some o →
  order_userId o = userId →
  order_orderStatus o = PENDING →
  (∀ r, r ∈ items_of_order orderId (orderItems s) → is_Some (books s !! oi_bookId r)) →
  ∃ order s', cancelOrder orderId userId s = (Ok order, s').
Proof.
  intros Ho Hu Hp Hex.
  pose proof (cancelOrder_restore_succeeds _ s Hex) as Hok.
  pose proof (cancelOrder_restore_frame (items_of_order orderId (orderItems s)) s)
    as (_ & Hfo & _).
  rewrite cancelOrder_unfold, Ho, Hu, Hp.
  rewrite !bool_decide_eq_true_2 by reflexivity. cbn [negb].
  unfold db_transaction. rewrite cancelOrder_tx_unfold, Hok.
  unfold order_update_status. rewrite Hfo, Ho. eauto.
Qed.

(** X20.  [cancelOrder] refuses, in this order: an order that is not stored
    ("Order not found"), an order of another user, admin or not ("You can only
    cancel your own orders"), an order that is not PENDING ("Only pending
    orders can be cancelled"), and an order with a line whose book is gone,
    which fails in the transaction.  Every refusal leaves the store as it was,
    and these are the only ones. *)
Theorem cancelOrder_refusals orderId userId s :
  (orders s !! orderId = None →
   cancelOrder orderId userId s = (Throw "Order not found", s))
  ∧ (∀ o, orders s !! orderId = Some o → order_userId o ≠ userId →
       cancelOrder orderId userId s = (Throw "You can only cancel your own orders", s))
  ∧ (∀ o, orders s !! orderId = Some o → order_userId o = userId →
       order_orderStatus o ≠ PENDING →
       cancelOrder orderId userId s = (Throw "Only pending orders can be cancelled", s))
  ∧ (∀ o r, orders s !! orderId = Some o → order_userId o = userId →
       order_orderStatus o = PENDING →
       r ∈ items_of_order orderId (orderItems s) → books s !! oi_bookId r = None →
       cancelOrder orderId userId s = (Throw RECORD_NOT_FOUND, s))
  ∧ ((∃ order s', cancelOrder orderId userId s = (Ok order, s'))
     ↔ ∃ o, orders s !! orderId = Some o ∧ order_userId o = userId
            ∧ order_orderStatus o = PENDING
            ∧ ∀ r, r ∈ items_of_order orderId (orderItems s) →
                   is_Some (books s !! oi_bookId r)).
Proof.
  split; [|split; [|split; [|split]]].
  - intros Ho. now rewrite cancelOrder_unfold, Ho.
  - intros o Ho Hu. rewrite cancelOrder_unfold, Ho.
    now rewrite bool_decide_eq_false_2 by assumption.
  - intros o Ho Hu Hp. rewrite cancelOrder_unfold, Ho.
    rewrite bool_decide_eq_true_2 by assumption.
    now rewrite bool_decide_eq_false_2 by assumption.
  - intros o r Ho Hu Hp Hr Hnone. rewrite cancelOrder_unfold, Ho.
    rewrite !bool_decide_eq_true_2 by assumption. cbn [negb].
    unfold db_transaction. rewrite cancelOrder_tx_unfold.
    now rewrite (cancelOrder_restore_missing _ s r Hr Hnone).
  - split.
    + intros (order & s' & Hc). rewrite cancelOrder_unfold in Hc.
      destruct (orders s !! orderId) as [o|] eqn:Ho; [|discriminate].
      case_bool_decide as Hu; [|discriminate].
      case_bool_decide as Hp; [|discriminate]. cbn [negb] in Hc.
      exists o. do 3 (split; [done|]). intros r Hr.
      destruct (books s !! oi_bookId r) as [b|] eqn:Hb; [eauto|].
      unfold db_transaction in Hc. rewrite cancelOrder_tx_unfold in Hc.
      rewrite (cancelOrder_restore_missing _ s r Hr Hb) in Hc. discriminate.
    + intros (o & Ho & Hu & Hp & Hex). now apply (cancelOrder_runs _ _ _ o).
Qed.

(** X21.  A cancelled order that [updateOrderStatus] sets back to PENDING can
    be cancelled again, and its quantities are then added to the stock a
    second time: after cancel, reopen, cancel, every book holds what it held
    before the first cancel plus twice the order's quantities for it. *)
Theorem cancelOrder_reopen_cancelOrder orderId userId s o :
  orders s !! orderId = Some o →
  order_userId o = userId →
  order_orderStatus o = PENDING →
  (∀ r, r ∈ items_of_order orderId (orderItems s) → is_Some (books s !! oi_bookId r)) →
  ∃ order1 s1 order2 s2 order3 s3,
    cancelOrder orderId userId s = (Ok order1, s1)
    ∧ updateOrderStatus orderId PENDING s1 = (Ok order2, s2)
    ∧ cancelOrder orderId userId s2 = (Ok order3, s3)
    ∧ ∀ id, stock s3 id
            = (λ n, n + 2 * requested id
                              (map oi_pair (items_of_order orderId (orderItems s))))
              <$> stock s id.
Proof.
  intros Ho Hu Hp Hex.
  destruct (cancelOrder_runs orderId userId s o Ho Hu Hp Hex) as (order1 & s1 & Hc1).
  destruct (cancelOrder_Ok _ _ _ _ _ Hc1) as (o' & Ho' & Hb1 & Ho1 & Hi1 & _).
  rewrite Ho in Ho'. injection Ho' as <-.
  assert (Hs1 : orders s1 !! orderId = Some (set_orderStatus CANCELLED o))
    by (rewrite Ho1; apply lookup_insert_eq).
  pose proof (updateOrderStatus_unfold orderId PENDING s1) as Hup. rewrite Hs1 in Hup.
  set (s2 := set_orders (insert orderId (set_orderStatus PENDING
                                           (set_orderStatus CANCELLED o))) s1) in *.
  assert (Hex2 : ∀ r, r ∈ items_of_order orderId (orderItems s2) →
                      is_Some (books s2 !! oi_bookId r)).
  { intros r. cbn [s2 orderItems books set_orders]. rewrite Hi1. intros Hr.
    destruct (Hex r Hr) as [b Hb]. rewrite Hb1, Hb. cbn. eauto. }
  destruct (cancelOrder_runs orderId userId s2 _ (lookup_insert_eq _ _ _) Hu eq_refl Hex2)
    as (order3 & s3 & Hc3).
  destruct (cancelOrder_Ok _ _ _ _ _ Hc3) as (o3 & _ & Hb3 & _).
  eexists _, _, _, _, _, _. split; [exact Hc1|]. split; [exact Hup|].
  split; [exact Hc3|].
  intros id. unfold stock. rewrite Hb3. cbn [s2 orderItems books set_orders].
  rewrite Hi1, Hb1. destruct (books s !! id) as [b|]; cbn; [|reflexivity].
  f_equal. lia.
Qed.

(** ** Orders for a book that is not in the catalog *)

Lemma substring_prefix needle rest :
  substring 0 (String.length needle) (needle +:+ rest) = needle.
Proof.
  induction needle as [|c needle IH]; [now destruct rest|].
  change (String c (substring 0 (String.length needle) (needle +:+ rest))
          = String c needle).
  now rewrite IH.
Qed.

Lemma substring_after prefix needle rest :
  substring (String.length prefix) (String.length needle) (prefix +:+ needle +:+ rest)
  = needle.
Proof.
  induction prefix as [|c prefix IH]; [exact (substring_prefix needle rest)|exact IH].
Qed.

Lemma includes_app prefix needle rest :
  needle ≠ EmptyString → includes needle (prefix +:+ needle +:+ rest) = true.
Proof.
  intros Hne. unfold includes.
  destruct (index 0 needle (prefix +:+ needle +:+ rest)) eqn:Hi; [reflexivity|].
  exfalso. apply (index_correct3 0 (String.length prefix) _ _ Hi Hne (Nat.le_0_l _)).
  apply substring_after.
Qed.

Lemma string_app_assoc (a b c : string) : (a +:+ b) +:+ c = a +:+ (b +:+ c).
Proof.
  induction a as [|x a IH]; [reflexivity|].
  change (String x ((a +:+ b) +:+ c) = String x (a +:+ (b +:+ c))). now rewrite IH.
Qed.

Lemma book_not_found_message_includes bookId :
  includes "not found" (book_not_found_message bookId) = true.
Proof.
  unfold book_not_found_message.
  replace ("Book with ID " +:+ bookId +:+ " not found")
    with (("Book with ID " +:+ bookId +:+ " ") +:+ "not found" +:+ EmptyString).
  - apply includes_app. discriminate.
  - rewrite !string_app_assoc. reflexivity.
Qed.

(** X22.  When the first item that does not pass the first loop names a book
    that is not in the catalog, [createOrder] throws "Book with ID <id> not
    found" with that id, the store unchanged, and the route answers 404 with
    that message, whatever the id is. *)
Theorem createOrder_unknown_book userId items s before item after :
  items = (before ++ item :: after)%list →
  (∃ acc, fst (createOrder_collect before [] price_zero s) = Ok acc) →
  item_invalid item = false →
  books s !! item_bookId item = None →
  createOrder userId items s = (Throw (book_not_found_message (item_bookId item)), s)
  ∧ (∀ user, au_userId user = userId →
       existsb item_invalid items = false →
       POST_api_orders (Some user) items s
       = (ErrorJson 404 "Not Found" (book_not_found_message (item_bookId item)), s)).
Proof.
  intros -> [acc Hacc] Hinv Hnone.
  assert (Hrun : createOrder userId (before ++ item :: after) s
                 = (Throw (book_not_found_message (item_bookId item)), s)).
  { rewrite createOrder_unfold by (destruct before; discriminate).
    rewrite createOrder_collect_app, Hacc, createOrder_collect_cons,
      createOrder_item_spec, Hinv, Hnone. reflexivity. }
  split; [exact Hrun|]. intros user Hu Hvalid. unfold POST_api_orders.
  remember (before ++ item :: after)%list as items eqn:Hitems.
  destruct items as [|item0 rest0]; [destruct before; discriminate|].
  rewrite Hvalid, Hu, Hrun.
  unfold POST_api_orders_catch, message_or.
  rewrite bool_decide_eq_false_2.
  - now rewrite book_not_found_message_includes.
  - unfold book_not_found_message. discriminate.
Qed.

(** ** What POST /api/orders answers *)

(** X23.  The route places orders for any caller with credentials, an admin
    included: of the caller only the id is used.  An answer that is an error
    leaves the store as it was.  A success is a 201 whose order belongs to the
    caller, is PENDING, got an id no order had before, and is what
    [getOrderById] reads afterwards. *)
Theorem POST_api_orders_outcomes user items s :
  (∀ status error message,
     fst (POST_api_orders user items s) = ErrorJson status error message →
     snd (POST_api_orders user items s) = s)
  ∧ (∀ status order,
       fst (POST_api_orders user items s) = Json status order →
       status = 201
       ∧ (∃ u, user = Some u ∧ Order_userId order = au_userId u)
       ∧ Order_orderStatus order = PENDING
       ∧ orders s !! Order_id order = None
       ∧ getOrderById (Order_id order) (snd (POST_api_orders user items s))
         = (Ok (Some order), snd (POST_api_orders user items s)))
  ∧ (∀ u1 u2, user = Some u1 → au_userId u2 = au_userId u1 →
       POST_api_orders (Some u2) items s = POST_api_orders user items s).
Proof.
  split; [|split].
  - intros status error message Hfst.
    destruct (POST_api_orders_state user items s) as [Hs|(userId & order & Hc)];
      [exact Hs|].
    revert Hfst. unfold POST_api_orders, unauthorized, bad_request.
    destruct user as [u|]; [|reflexivity].
    destruct items as [|item rest]; [reflexivity|].
    destruct (existsb item_invalid (item :: rest)); [reflexivity|].
    destruct (createOrder (au_userId u) (item :: rest) s) as [[o|m] s1] eqn:Hrun;
      cbn [fst snd]; [discriminate|].
    intros _. now apply createOrder_Throw in Hrun.
  - intros status order. unfold POST_api_orders, unauthorized, bad_request.
    destruct user as [u|]; [|discriminate].
    destruct items as [|item rest]; [discriminate|].
    destruct (existsb item_invalid (item :: rest)); [discriminate|].
    destruct (createOrder (au_userId u) (item :: rest) s) as [[o|m] s1] eqn:Hrun;
      cbn [fst snd].
    + intros [= <- <-]. split; [reflexivity|].
      apply createOrder_Ok in Hrun
        as (lines & _ & _ & _ & _ & _ & Horders & _ & -> & _).
      cbn [transformOrder Order_id Order_userId Order_orderStatus pending_order
           order_userId order_orderStatus].
      split; [eauto|]. split; [reflexivity|].
      split; [apply not_elem_of_dom, is_fresh|].
      rewrite getOrderById_unfold, Horders, lookup_insert_eq. reflexivity.
    + unfold POST_api_orders_catch.
      destruct (includes "not found" _); [discriminate|].
      destruct (includes "Insufficient stock" _); discriminate.
  - intros u1 u2 -> Hid. unfold POST_api_orders. now rewrite Hid.
Qed.

(** ** Orders for a user that is not stored *)

(** With every item valid, known and in stock, [createOrder] gets as far as
    [order.create]: both loops run to their end. *)
Lemma createOrder_loops_succeed items s :
  items ≠ [] →
  (∀ item, item ∈ items → item_bookId item ≠ EmptyString ∧ 0 < item_quantity item) →
  (∀ item, item ∈ items → is_Some (books s !! item_bookId item)) →
  (∀ id b, books s !! id = Some b →
           requested id (map item_pair items) ≤ book_stockQuantity b) →
  ∃ acc, fst (createOrder_collect items [] price_zero s) = Ok acc
         ∧ fst (createOrder_decrementAll (fst acc) s) = Ok tt
         ∧ existsb item_invalid items = false.
Proof.
  intros Hne Hvalid Hknown Hstock.
  assert (Hpos : ∀ p, p ∈ map item_pair items → 0 ≤ snd p).
  { intros p Hp. apply list_elem_of_fmap in Hp as (item & -> & Hin).
    cbn. destruct (Hvalid item Hin). lia. }
  assert (Hv : Forall (λ item, item_invalid item = false) items).
  { apply Forall_forall. intros item Hin. now apply item_invalid_false, Hvalid. }
  assert (Hper : ∀ item, item ∈ items →
            ∃ b, books s !! item_bookId item = Some b
                 ∧ item_quantity item ≤ book_stockQuantity b).
  { intros item Hin. destruct (Hknown item Hin) as [b Hb]. exists b. split; [done|].
    etransitivity; [|exact (Hstock _ _ Hb)].
    apply requested_elem; [assumption|].
    apply list_elem_of_fmap. exists item. split; [reflexivity|assumption]. }
  destruct (createOrder_collect_succeeds items [] price_zero s Hv Hper) as [acc Hacc].
  exists acc. split; [exact Hacc|].
  destruct (createOrder_collect_Ok _ _ _ _ _ Hacc) as (lines & Hl & _ & ->).
  pose proof (priced_pairs _ _ _ Hl) as Hpairs. cbn [fst app]. split.
  - apply createOrder_decrementAll_succeeds.
    + intros l Hin. apply (Hpos (in_pair l)). rewrite <- Hpairs.
      apply list_elem_of_fmap. eauto.
    + intros l Hin.
      assert (Hp : in_pair l ∈ map item_pair items).
      { rewrite <- Hpairs. apply list_elem_of_fmap. eauto. }
      apply list_elem_of_fmap in Hp as (item & Heq & Hitem).
      injection Heq as -> _. now apply Hknown.
    + rewrite Hpairs. exact Hstock.
  - clear -Hv. induction Hv as [|item items Hi _ IH]; [reflexivity|].
    cbn. now rewrite Hi, IH.
Qed.

(** X25.  An order for a user that is not stored is never placed:
    [createOrder] throws and leaves the store as it was, and the route
    answers with an error.  When the items are valid, known and in stock, so
    that the order of a stored user would be placed, the error is the
    client's own, raised by [order.create] inside the transaction after the
    stock was taken; the transaction gives the stock back, and the route
    answers 500. *)
Theorem createOrder_unknown_user userId items s :
  users s !! userId = None →
  (∃ m, createOrder userId items s = (Throw m, s))
  ∧ (∀ user, au_userId user = userId →
       snd (POST_api_orders (Some user) items s) = s
       ∧ ∃ status error message,
           fst (POST_api_orders (Some user) items s) = ErrorJson status error message)
  ∧ (items ≠ [] →
     (∀ item, item ∈ items → item_bookId item ≠ EmptyString ∧ 0 < item_quantity item) →
     (∀ item, item ∈ items → is_Some (books s !! item_bookId item)) →
     (∀ id b, books s !! id = Some b →
              requested id (map item_pair items) ≤ book_stockQuantity b) →
     createOrder userId items s = (Throw FOREIGN_KEY_FAILED, s)
     ∧ ∀ user, au_userId user = userId →
         POST_api_orders (Some user) items s
         = (ErrorJson 500 "Internal Server Error" FOREIGN_KEY_FAILED, s)).
Proof.
  intros Hnone.
  assert (Hfails : ∃ m, createOrder userId items s = (Throw m, s)).
  { destruct (createOrder userId items s) as [[order|m] s'] eqn:Hrun.
    - apply createOrder_Ok in Hrun as (lines & _ & _ & _ & _ & _ & _ & _ & _ & _ & [u Hu]).
      rewrite Hnone in Hu. discriminate.
    - apply createOrder_Throw in Hrun as Hs. subst s'. eauto. }
  split; [exact Hfails|]. split.
  - intros user Hu. destruct Hfails as [m Hm].
    unfold POST_api_orders, bad_request. destruct items as [|item rest]; [eauto|].
    destruct (existsb item_invalid (item :: rest)); [eauto|].
    rewrite Hu, Hm. cbn [fst snd]. split; [reflexivity|].
    unfold POST_api_orders_catch.
    destruct (includes "not found" _); [eauto|].
    destruct (includes "Insufficient stock" _); eauto.
  - intros Hne Hvalid Hknown Hstock.
    destruct (createOrder_loops_succeed items s Hne Hvalid Hknown Hstock)
      as (acc & Hacc & Hdec & Hall).
    assert (Hrun : createOrder userId items s = (Throw FOREIGN_KEY_FAILED, s)).
    { rewrite createOrder_unfold, Hacc by assumption.
      unfold db_transaction. rewrite createOrder_tx_unfold, Hdec.
      unfold order_create. cbn [pending_order order_userId].
      rewrite (proj1 (createOrder_decrementAll_frame (fst acc) s)), Hnone.
      reflexivity. }
    split; [exact Hrun|]. intros user Hu.
    unfold POST_api_orders. destruct items as [|item rest]; [done|].
    rewrite Hall, Hu, Hrun. reflexivity.
Qed.

(** ** A book that was ordered stays *)

Lemma handle_orderItems_grow (req : Request price) s r :
  r ∈ orderItems s → r ∈ orderItems (handle req s).
Proof.
  intros Hr.
  destruct req as [body|user body|user id body|user id|user items
                  |user id status|orderId userId|bookId quantity]; unfold handle.
  - destruct (POST_api_register_cases body s)
      as [(dto & r' & _ & _ & _ & _ & ->)|(st & e & m & ->)]; cbn [snd]; [|exact Hr].
    destruct (registerUser_effect dto s) as (_ & _ & -> & _). exact Hr.
  - destruct (POST_api_books_state user body s) as [->|(data & _ & ->)]; exact Hr.
  - destruct (PUT_api_books_id_state user id body s) as [->|(b & _ & _ & ->)]; exact Hr.
  - destruct (DELETE_api_books_id_state user id s) as [->|(_ & ->)]; exact Hr.
  - destruct (POST_api_orders_state user items s) as [->|(userId & order & Hc)];
      [exact Hr|].
    apply createOrder_Ok in Hc as (lines & _ & _ & _ & _ & _ & _ & -> & _).
    apply elem_of_app. now left.
  - destruct (PUT_api_orders_id_state user id status s) as [->|(o & st & _ & ->)];
      exact Hr.
  - destruct (cancelOrder orderId userId s) as [[order|m] s'] eqn:Hc; cbn [snd].
    + apply cancelOrder_Ok in Hc as (o & _ & _ & _ & -> & _). exact Hr.
    + now apply cancelOrder_Throw in Hc as ->.
  - rewrite decrementStock_unfold.
    destruct (books s !! bookId) as [b|]; [|exact Hr].
    destruct (book_stockQuantity b <? quantity); exact Hr.
Qed.

(** X24.  Line items are never removed, so a book that some line item refers
    to stays in the catalog whatever requests follow, the cancellation of the
    order among them: it is still stored, and [deleteBook] still refuses it.
    *)
Theorem ordered_book_stays (requests : list (Request price)) s r :
  reachable s →
  r ∈ orderItems s →
  reachable (handle_all requests s)
  ∧ r ∈ orderItems (handle_all requests s)
  ∧ is_Some (books (handle_all requests s) !! oi_bookId r)
  ∧ deleteBook (oi_bookId r) (handle_all requests s)
    = (Throw "Cannot delete book that is referenced in orders", handle_all requests s).
Proof.
  revert s. induction requests as [|req requests IH]; intros s Hreach Hr.
  - cbn. split; [exact Hreach|]. split; [exact Hr|].
    destruct (inv_books s (reachable_inv s Hreach) r Hr) as [b Hb].
    split; [eauto|]. now apply (deleteBook_referenced _ _ b r).
  - cbn [handle_all fold_left]. apply (IH (handle req s)).
    + now constructor.
    + now apply handle_orderItems_grow.
Qed.

End MoreProperties.

(** ** The further properties on the small shop *)

Lemma extractTokenFromHeader_Some_witness :
  extractTokenFromHeader (Some "Bearer token:admin-1") = Some "token:admin-1".
Proof. apply extractTokenFromHeader_Some. split; reflexivity. Defined.

Lemma getAuthenticatedUser_cases_witness :
  getAuthenticatedUser forwarded_headers
  = Some {| jwt_userId := "cust-1"; jwt_email := "john@example.com";
            jwt_role := "CUSTOMER" |}.
Proof.
  apply (proj1 (getAuthenticatedUser_cases forwarded_headers));
    [reflexivity|reflexivity|reflexivity|discriminate|discriminate|discriminate].
Defined.

Lemma pagination_hasNext_witness :
  1 ≤ query_page {| q_page := Some 2; q_size := Some 10 |}
  ∧ 1 ≤ query_size {| q_page := Some 2; q_size := Some 10 |}
  ∧ 0 ≤ 25
  ∧ (pg_hasNext (pagination {| q_page := Some 2; q_size := Some 10 |} 25) = true
     ↔ pg_page (pagination {| q_page := Some 2; q_size := Some 10 |} 25)
       < pg_totalPages (pagination {| q_page := Some 2; q_size := Some 10 |} 25)).
Proof.
  assert (H1 : 1 ≤ query_page {| q_page := Some 2; q_size := Some 10 |})
    by (vm_compute; discriminate).
  assert (H2 : 1 ≤ query_size {| q_page := Some 2; q_size := Some 10 |})
    by (vm_compute; discriminate).
  assert (H3 : 0 ≤ 25) by lia.
  split; [exact H1|]. split; [exact H2|]. split; [exact H3|].
  exact (proj1 (pagination_hasNext _ 25 H1 H2 H3)).
Defined.

Lemma GET_api_orders_visibility_witness :
  (∀ rows : list (string * OrderRow Z), rows ≡ₚ rows)
  ∧ 1 ≤ query_page first_page
  ∧ 1 ≤ query_size first_page
  ∧ ∃ result,
      fst (GET_api_orders (λ rows, rows) (Some john_caller) first_page
             stocked_after_order)
      = Json 200 result
      ∧ Forall (λ order, Order_userId order = au_userId john_caller) (pr_data result)
      ∧ pg_totalElements (pr_pagination result) = 1.
Proof.
  assert (H0 : ∀ rows : list (string * OrderRow Z), rows ≡ₚ rows) by reflexivity.
  assert (H1 : 1 ≤ query_page first_page) by (vm_compute; discriminate).
  assert (H2 : 1 ≤ query_size first_page) by (vm_compute; discriminate).
  split; [exact H0|]. split; [exact H1|]. split; [exact H2|].
  destruct (GET_api_orders_visibility (λ rows, rows) H0 john_caller first_page
              stocked_after_order H1 H2)
    as (_ & (result & Hrun & _ & _ & _ & Hown & _) & _).
  destruct (Hown ltac:(discriminate)) as [Hall Htotal].
  exists result. split; [exact Hrun|]. split; [exact Hall|].
  rewrite Htotal. vm_compute. reflexivity.
Defined.

Lemma getOrders_pages_cover_witness :
  getOrders_where (Some "0") false
  = Some (λ row : string * OrderRow Z, bool_decide (order_userId (snd row) = "0"))
  ∧ 1 ≤ 10 ∧ 10 ≤ 100
  ∧ ∃ result,
      getOrders (λ rows, rows) (Some "0") false
        {| q_page := Some (Z.of_nat 0 / 10 + 1); q_size := Some 10 |} stocked_after_order
      = (Ok result, stocked_after_order)
      ∧ pr_data result !! Z.to_nat (Z.of_nat 0 mod 10)
        = Some (transformOrder "0" (pending_order "0" 2598)
                  (orderItems stocked_after_order)).
Proof.
  assert (H0 : getOrders_where (Some "0") false
               = Some (λ row : string * OrderRow Z,
                         bool_decide (order_userId (snd row) = "0"))) by reflexivity.
  assert (H1 : 1 ≤ 10) by lia.
  assert (H2 : 10 ≤ 100) by lia.
  split; [exact H0|]. split; [exact H1|]. split; [exact H2|].
  destruct (getOrders_pages_cover (λ rows, rows) (Some "0") false _ 10 0
              stocked_after_order H0 H1 H2) as (result & Hrun & Hat).
  exists result. split; [exact Hrun|]. rewrite Hat. vm_compute. reflexivity.
Defined.

Lemma GET_api_orders_id_access_witness :
  orders shop !! "9" = None
  ∧ response_status (fst (GET_api_orders_id (Some customer) "9" shop)) = 404.
Proof.
  assert (H : orders shop !! "9" = None) by reflexivity.
  split; [exact H|].
  destruct (GET_api_orders_id_access customer "9" shop) as (_ & _ & Hmissing & _).
  exact (Hmissing H).
Defined.

Lemma createOrder_then_read_witness :
  createOrder "cust-1" [line "A" 5] shop = (Ok placed_order, shop_after_order)
  ∧ getOrderById (Order_id placed_order) shop_after_order
    = (Ok (Some placed_order), shop_after_order)
  ∧ response_status (fst (GET_api_orders_id
                            (Some {| au_userId := "cust-2"; au_email := "jane@example.com";
                                     au_role := CUSTOMER |})
                            (Order_id placed_order) shop_after_order)) = 403.
Proof.
  assert (H : createOrder "cust-1" [line "A" 5] shop = (Ok placed_order, shop_after_order))
    by (vm_compute; reflexivity).
  split; [exact H|].
  destruct (createOrder_then_read "cust-1" [line "A" 5] shop placed_order shop_after_order H)
    as (Hread & _ & _ & Hother).
  split; [exact Hread|]. apply Hother; [discriminate|reflexivity].
Defined.

Lemma loginUser_cases_witness :
  (∀ id u, users registered !! id = Some u → user_email u ≠ "jane@example.com")
  ∧ fst (loginUser {| lg_email := "jane@example.com"; lg_password := "secret1" |}
           registered)
    = Throw "Invalid email or password".
Proof.
  assert (H : ∀ id u, users registered !! id = Some u →
                user_email u ≠ "jane@example.com").
  { intros id u. rewrite registered_users. intros Hu.
    apply lookup_insert_Some in Hu as [[_ <-]|[_ Hu]]; [discriminate|].
    rewrite lookup_empty in Hu. discriminate. }
  split; [exact H|].
  destruct (loginUser_cases {| lg_email := "jane@example.com"; lg_password := "secret1" |}
              registered) as (_ & _ & _ & Hnone & _).
  exact (Hnone H).
Defined.

Lemma registerUser_then_loginUser_witness :
  registerUser john db_empty
  = (Ok {| ar_token := "token:0"; ar_tokenType := "Bearer"; ar_expiresIn := 604800;
           ar_user := john_user |}, registered)
  ∧ getUserById "0" registered = (Ok (Some john_user), registered)
  ∧ registerUser john registered = (Throw "Email already registered", registered)
  ∧ ∃ r', loginUser {| lg_email := "john@example.com"; lg_password := "secret1" |}
            registered = (Ok r', registered)
          ∧ ar_user r' = john_user.
Proof.
  assert (H : registerUser john db_empty
              = (Ok {| ar_token := "token:0"; ar_tokenType := "Bearer";
                       ar_expiresIn := 604800; ar_user := john_user |}, registered))
    by (vm_compute; reflexivity).
  split; [exact H|].
  destruct (registerUser_then_loginUser john db_empty _ registered H)
    as (Hlogin & _ & Hagain & _ & Hid & _).
  split; [exact Hid|]. split; [exact (Hagain john eq_refl)|].
  destruct (Hlogin eq_refl) as (r' & Hrun & Huser & _).
  exists r'. split; [exact Hrun|exact Huser].
Defined.

Lemma reachable_emails_unique_witness :
  reachable registered_twice
  ∧ user_email <$> users registered_twice !! "0" = Some "john@example.com"
  ∧ user_email <$> users registered_twice !! "1" = Some "mallory@example.com"
  ∧ emails_unique registered_twice.
Proof.
  assert (H : reachable registered_twice)
    by (do 2 apply reachable_handle; apply reachable_empty).
  split; [exact H|]. split; [vm_compute; reflexivity|]. split; [vm_compute; reflexivity|].
  exact (reachable_emails_unique registered_twice H).
Defined.

Lemma createBook_then_read_witness :
  books shop !! "A" = Some (example_book "Alpha" "111" 1299 5)
  ∧ createBook alpha_again_dto shop = (Throw "A book with this ISBN already exists", shop).
Proof.
  assert (H : books shop !! "A" = Some (example_book "Alpha" "111" 1299 5))
    by reflexivity.
  split; [exact H|].
  exact (proj1 (createBook_then_read alpha_again_dto shop) "A" _ H eq_refl).
Defined.

Lemma createBook_then_deleteBook_witness :
  items_reference_books shop
  ∧ createBook delta_dto shop
    = (Ok ("0", book_of_dto delta_dto), set_books (insert "0" (book_of_dto delta_dto)) shop)
  ∧ deleteBook "0" (set_books (insert "0" (book_of_dto delta_dto)) shop) = (Ok tt, shop).
Proof.
  assert (H1 : items_reference_books shop).
  { intros r Hr. apply elem_of_nil in Hr. destruct Hr. }
  assert (H2 : createBook delta_dto shop
               = (Ok ("0", book_of_dto delta_dto),
                  set_books (insert "0" (book_of_dto delta_dto)) shop))
    by (vm_compute; reflexivity).
  split; [exact H1|]. split; [exact H2|].
  exact (createBook_then_deleteBook delta_dto shop "0" _ _ H1 H2).
Defined.

Lemma updateBook_keeps_orders_witness :
  book_price <$> books (snd (updateBook "A" reprice_to_1999 shop_after_order)) !! "A"
  = Some 1999
  ∧ orders (snd (updateBook "A" reprice_to_1999 shop_after_order)) !! "0"
    = Some (pending_order "cust-1" 6495)
  ∧ orderItems (snd (updateBook "A" reprice_to_1999 shop_after_order))
    = [{| oi_orderId := "0"; oi_bookId := "A"; oi_quantity := 5;
          oi_unitPrice := 1299; oi_subtotal := 6495 |}].
Proof.
  destruct (updateBook_keeps_orders "A" reprice_to_1999 shop_after_order)
    as (Horders & Hitems & _).
  split; [vm_compute; reflexivity|]. rewrite Horders, Hitems.
  split; vm_compute; reflexivity.
Defined.

Lemma updateBook_again_witness :
  books shop !! "A" = Some (example_book "Alpha" "111" 1299 5)
  ∧ updateBook "A" no_update shop = (Ok (example_book "Alpha" "111" 1299 5), shop).
Proof.
  assert (H : books shop !! "A" = Some (example_book "Alpha" "111" 1299 5))
    by reflexivity.
  split; [exact H|].
  destruct (updateBook_again "A" no_update shop) as (_ & _ & Hnone & _).
  exact (Hnone _ H).
Defined.

Lemma reachable_isbns_unique_witness :
  reachable stocked_twice
  ∧ book_isbn <$> books stocked_twice !! "0" = Some "111"
  ∧ book_isbn <$> books stocked_twice !! "1" = Some "222"
  ∧ isbns_unique stocked_twice.
Proof.
  assert (H : reachable stocked_twice)
    by (do 2 apply reachable_handle; apply reachable_empty).
  split; [exact H|]. split; [vm_compute; reflexivity|]. split; [vm_compute; reflexivity|].
  exact (reachable_isbns_unique stocked_twice H).
Defined.

Lemma non_admin_cannot_write_witness :
  (∀ u, Some customer = Some u → au_role u ≠ ADMIN)
  ∧ snd (DELETE_api_books_id (Some customer) "A" shop) = shop
  ∧ response_status (fst (DELETE_api_books_id (Some customer) "A" shop)) = 403.
Proof.
  assert (H : ∀ u, Some customer = Some u → au_role u ≠ ADMIN).
  { intros u Hu. injection Hu as <-. discriminate. }
  split; [exact H|].
  destruct (non_admin_cannot_write (Some customer) shop H) as (_ & _ & Hdelete & _).
  exact (Hdelete "A").
Defined.

Lemma checkStockAvailability_decrementStock_witness :
  books shop !! "A" = Some (example_book "Alpha" "111" 1299 5)
  ∧ decrementStock "A" 3 shop = (Ok tt, snd (decrementStock "A" 3 shop))
  ∧ fst (checkStockAvailability "A" 2 (snd (decrementStock "A" 3 shop))) = Ok true
  ∧ fst (checkStockAvailability "A" 3 (snd (decrementStock "A" 3 shop))) = Ok false.
Proof.
  assert (H1 : books shop !! "A" = Some (example_book "Alpha" "111" 1299 5))
    by reflexivity.
  assert (H2 : decrementStock "A" 3 shop = (Ok tt, snd (decrementStock "A" 3 shop)))
    by reflexivity.
  split; [exact H1|]. split; [exact H2|].
  destruct (checkStockAvailability_decrementStock "A" 3 shop) as (_ & _ & _ & _ & Hafter).
  split; [exact (Hafter _ _ 2 H1 H2)|exact (Hafter _ _ 3 H1 H2)].
Defined.

Lemma reachable_totals_consistent_witness :
  reachable stocked_after_order
  ∧ orders stocked_after_order !! "0" = Some (pending_order "0" 2598)
  ∧ items_of_order "0" (orderItems stocked_after_order) = [two_of_book_0]
  ∧ totals_consistent stocked_after_order.
Proof.
  assert (H : reachable stocked_after_order)
    by (do 3 apply reachable_handle; apply reachable_empty).
  split; [exact H|]. split; [vm_compute; reflexivity|]. split; [vm_compute; reflexivity|].
  exact (reachable_totals_consistent stocked_after_order H).
Defined.

Lemma reachable_references_stored_witness :
  reachable stocked_after_order
  ∧ orders stocked_after_order !! "0" = Some (pending_order "0" 2598)
  ∧ orderItems stocked_after_order = [two_of_book_0]
  ∧ orders_reference_users stocked_after_order
  ∧ items_reference_orders stocked_after_order.
Proof.
  assert (H : reachable stocked_after_order)
    by (do 3 apply reachable_handle; apply reachable_empty).
  split; [exact H|]. split; [vm_compute; reflexivity|]. split; [vm_compute; reflexivity|].
  exact (reachable_references_stored stocked_after_order H).
Defined.

Lemma cancelOrder_refusals_witness :
  orders shop_after_order !! "0" = Some (pending_order "cust-1" 6495)
  ∧ order_userId (pending_order "cust-1" 6495) ≠ "cust-2"
  ∧ cancelOrder "0" "cust-2" shop_after_order
    = (Throw "You can only cancel your own orders", shop_after_order).
Proof.
  assert (H1 : orders shop_after_order !! "0" = Some (pending_order "cust-1" 6495))
    by (vm_compute; reflexivity).
  assert (H2 : order_userId (pending_order "cust-1" 6495) ≠ "cust-2") by discriminate.
  split; [exact H1|]. split; [exact H2|].
  destruct (cancelOrder_refusals "0" "cust-2" shop_after_order) as (_ & Hother & _).
  exact (Hother _ H1 H2).
Defined.

Lemma cancelOrder_reopen_cancelOrder_witness :
  orders shop_after_order !! "0" = Some (pending_order "cust-1" 6495)
  ∧ (∀ r, r ∈ items_of_order "0" (orderItems shop_after_order) →
          is_Some (books shop_after_order !! oi_bookId r))
  ∧ stock shop "A" = Some 5
  ∧ stock shop_after_order "A" = Some 0
  ∧ ∃ order1 s1 order2 s2 order3 s3,
      cancelOrder "0" "cust-1" shop_after_order = (Ok order1, s1)
      ∧ updateOrderStatus "0" PENDING s1 = (Ok order2, s2)
      ∧ cancelOrder "0" "cust-1" s2 = (Ok order3, s3)
      ∧ stock s3 "A" = Some 10.
Proof.
  assert (H1 : orders shop_after_order !! "0" = Some (pending_order "cust-1" 6495))
    by (vm_compute; reflexivity).
  assert (Hrows : items_of_order "0" (orderItems shop_after_order)
                  = Order_orderItems placed_order) by (vm_compute; reflexivity).
  assert (H2 : ∀ r, r ∈ items_of_order "0" (orderItems shop_after_order) →
                 is_Some (books shop_after_order !! oi_bookId r)).
  { rewrite Hrows. intros r Hr. cbn in Hr. elem_cases Hr.
    eexists. vm_compute. reflexivity. }
  split; [exact H1|]. split; [exact H2|]. split; [reflexivity|]. split; [reflexivity|].
  destruct (cancelOrder_reopen_cancelOrder "0" "cust-1" shop_after_order _
              H1 eq_refl eq_refl H2)
    as (order1 & s1 & order2 & s2 & order3 & s3 & Hc1 & Hu & Hc2 & Hstock).
  exists order1, s1, order2, s2, order3, s3.
  split; [exact Hc1|]. split; [exact Hu|]. split; [exact Hc2|].
  rewrite (Hstock "A"), Hrows. reflexivity.
Defined.

Lemma createOrder_unknown_book_witness :
  [line "A" 1; line "Z" 1] = ([line "A" 1] ++ line "Z" 1 :: [])%list
  ∧ (∃ acc, fst (createOrder_collect [line "A" 1] [] price_zero shop) = Ok acc)
  ∧ item_invalid (line "Z" 1) = false
  ∧ books shop !! item_bookId (line "Z" 1) = None
  ∧ createOrder "cust-1" [line "A" 1; line "Z" 1] shop
    = (Throw (book_not_found_message "Z"), shop).
Proof.
  assert (H1 : [line "A" 1; line "Z" 1] = ([line "A" 1] ++ line "Z" 1 :: [])%list)
    by reflexivity.
  assert (H2 : ∃ acc, fst (createOrder_collect [line "A" 1] [] price_zero shop) = Ok acc)
    by (eexists; vm_compute; reflexivity).
  assert (H3 : item_invalid (line "Z" 1) = false) by reflexivity.
  assert (H4 : books shop !! item_bookId (line "Z" 1) = None) by reflexivity.
  split; [exact H1|]. split; [exact H2|]. split; [exact H3|]. split; [exact H4|].
  exact (proj1 (createOrder_unknown_book "cust-1" _ shop _ _ _ H1 H2 H3 H4)).
Defined.

Lemma POST_api_orders_outcomes_witness :
  fst (POST_api_orders (Some admin) [line "A" 9] shop)
  = ErrorJson 400 "Bad Request"
      (insufficient_stock_message "Alpha" 5 9)
  ∧ snd (POST_api_orders (Some admin) [line "A" 9] shop) = shop.
Proof.
  assert (H : fst (POST_api_orders (Some admin) [line "A" 9] shop)
              = ErrorJson 400 "Bad Request" (insufficient_stock_message "Alpha" 5 9))
    by (vm_compute; reflexivity).
  split; [exact H|].
  exact (proj1 (POST_api_orders_outcomes (Some admin) [line "A" 9] shop) _ _ _ H).
Defined.

Lemma createOrder_unknown_user_witness :
  users shop !! "ghost" = None
  ∧ stock shop "A" = Some 5
  ∧ createOrder "ghost" [line "A" 1] shop = (Throw FOREIGN_KEY_FAILED, shop)
  ∧ POST_api_orders (Some {| au_userId := "ghost"; au_email := "ghost@example.com";
                             au_role := CUSTOMER |}) [line "A" 1] shop
    = (ErrorJson 500 "Internal Server Error" FOREIGN_KEY_FAILED, shop).
Proof.
  assert (H0 : users shop !! "ghost" = None) by reflexivity.
  assert (H1 : [line "A" 1] ≠ []) by discriminate.
  assert (H2 : ∀ item, item ∈ [line "A" 1] →
                 item_bookId item ≠ EmptyString ∧ 0 < item_quantity item).
  { intros item Hin. elem_cases Hin. split; [discriminate|reflexivity]. }
  assert (H3 : ∀ item, item ∈ [line "A" 1] → is_Some (books shop !! item_bookId item)).
  { intros item Hin. elem_cases Hin. eexists. reflexivity. }
  assert (H4 : ∀ id b, books shop !! id = Some b →
                 requested id (map item_pair [line "A" 1]) ≤ book_stockQuantity b).
  { intros id b.
    destruct (decide (id = "A")) as [->|HA];
      [intros Hb; vm_compute in Hb; injection Hb as <-; vm_compute; discriminate|].
    destruct (decide (id = "B")) as [->|HB];
      [intros Hb; vm_compute in Hb; injection Hb as <-; vm_compute; discriminate|].
    destruct (decide (id = "C")) as [->|HC];
      [intros Hb; vm_compute in Hb; injection Hb as <-; vm_compute; discriminate|].
    rewrite shop_lookup_other by assumption. discriminate. }
  split; [exact H0|]. split; [reflexivity|].
  destruct (createOrder_unknown_user "ghost" [line "A" 1] shop H0) as (_ & _ & Hclient).
  destruct (Hclient H1 H2 H3 H4) as [Hrun Hroute].
  split; [exact Hrun|]. apply Hroute. reflexivity.
Defined.

Lemma ordered_book_stays_witness :
  reachable stocked_after_order
  ∧ two_of_book_0 ∈ orderItems stocked_after_order
  ∧ is_Some (books (handle_all [Call_cancelOrder "0" "0";
                                Req_DELETE_books_id (Some admin) "0"]
                      stocked_after_order) !! "0").
Proof.
  assert (H1 : reachable stocked_after_order)
    by (do 3 apply reachable_handle; apply reachable_empty).
  assert (H2 : two_of_book_0 ∈ orderItems stocked_after_order).
  { assert (Hrows : orderItems stocked_after_order = [two_of_book_0])
      by (vm_compute; reflexivity).
    rewrite Hrows. left. }
  split; [exact H1|]. split; [exact H2|].
  destruct (ordered_book_stays [Call_cancelOrder "0" "0";
                                Req_DELETE_books_id (Some admin) "0"]
              stocked_after_order two_of_book_0 H1 H2) as (_ & _ & Hkept & _).
  exact Hkept.
Defined.
